(** * api_ihc: heat zones, safety score and route evaluation

    A shallow embedding of the three request handlers of the road-safety
    API that compute something beyond a plain table read:

    - [POST /api/reports] with its helper [updateHeatZone]
      (reports routes), which classifies the incident label and finds or
      creates the heat zone within 100 m;
    - [GET /api/stats/safety-score] (statistics routes);
    - [POST /api/routes/calculate] (route routes).

    Conventions of the embedding.

    - Integer columns and the integer-valued JavaScript numbers computed
      from them (intensity, incident count, safety score) are [Z].
    - Coordinates, distances and radii are doubles in the program; they are
      idealised as real numbers ([R]), with [Math.sin], [Math.cos],
      [Math.sqrt], [Math.atan2], [Math.round], [toFixed] and the SQL
      functions [radians], [acos] read as their mathematical meaning.
      Rounding error of the double arithmetic is outside the model.
    - A JavaScript string is the list of its UTF-16 code units.
    - The PostgreSQL tables are lists of rows in table order; a handler is
      a function from the state of the world (tables, pending store
      failures, error console) to an outcome and a new state.
    - Timestamp columns ([created_at], [updated_at], [last_incident_at])
      are not represented: no handler modelled here reads them back.

    The later parts of the file cover more of the routers: the numbers
    read from a query string and the ordered, limited selections; the
    authentication middleware with the saved routes and the reports (a
    world of its own, [Site], with the [users], [safe_routes] and
    [reports] tables, where a timestamp is a number); the two lists of
    the heat-map router; and the grouping loop of the reports trend. *)

From Stdlib Require Import ZArith NArith List String Ascii Bool Lia.
From Stdlib Require Import Permutation Reals Lra.
Import ListNotations.

(* ================================================================= *)
(** * JavaScript strings *)

Module JSString.

(** A string value: its UTF-16 code units. *)
Definition t : Type := list N.

(** Reads a literal written in this file (UTF-8, one to three bytes per
    character, which covers the Basic Multilingual Plane) as a
    JavaScript string. *)
Fixpoint lit (s : string) : t :=
  match s with
  | EmptyString => []
  | String b0 r0 =>
      let n0 := N_of_ascii b0 in
      if (n0 <? 128)%N then n0 :: lit r0
      else
        match r0 with
        | EmptyString => []
        | String b1 r1 =>
            let n1 := N_of_ascii b1 in
            if (n0 <? 224)%N
            then ((n0 - 192) * 64 + (n1 - 128))%N :: lit r1
            else
              match r1 with
              | EmptyString => []
              | String b2 r2 =>
                  let n2 := N_of_ascii b2 in
                  ((n0 - 224) * 4096 + (n1 - 128) * 64 + (n2 - 128))%N
                    :: lit r2
              end
        end
  end.

(** [String.prototype.toLowerCase], for the Basic Latin and Latin-1
    Supplement blocks (A-Z, and U+00C0-U+00DE without the multiplication
    sign U+00D7): there the lower-case letter is the code unit plus 32.
    Code units of other blocks are left as they are. *)
Definition lowerUnit (u : N) : N :=
  if ((65 <=? u) && (u <=? 90))%N then (u + 32)%N
  else if ((192 <=? u) && (u <=? 222) && negb (u =? 215))%N then (u + 32)%N
  else u.

Definition toLowerCase (s : t) : t := map lowerUnit s.

(** [s.startsWith(search)] *)
Fixpoint startsWith (s search : t) : bool :=
  match search, s with
  | [], _ => true
  | _ :: _, [] => false
  | x :: search', y :: s' => (x =? y)%N && startsWith s' search'
  end.

(** [s.includes(search)]: [search] occurs in [s] at some position. *)
Fixpoint includes (s search : t) : bool :=
  startsWith s search
  || match s with
     | [] => false
     | _ :: s' => includes s' search
     end.

End JSString.

(* ================================================================= *)
(** * Heat zones *)

(** The four values the [zone_type] column admits (its CHECK constraint). *)
Inductive zone_kind : Type := crime | accident | congestion | danger.

Definition zone_kind_eqb (a b : zone_kind) : bool :=
  match a, b with
  | crime, crime | accident, accident
  | congestion, congestion | danger, danger => true
  | _, _ => false
  end.

(** ** Classification of the incident label ([updateHeatZone], first step)

    The value of the local variable [zoneType] once the [if / else if]
    chain has run. *)
Definition zoneType (incidentType : JSString.t) : zone_kind :=
  let lower := JSString.toLowerCase incidentType in
  if JSString.includes lower (JSString.lit "accidente") then accident
  else if JSString.includes lower (JSString.lit "robo")
          || JSString.includes lower (JSString.lit "crimen") then crime
  else if JSString.includes lower (JSString.lit "congestión")
          || JSString.includes lower (JSString.lit "tráfico") then congestion
  else danger.

(** A row of the [heat_zones] table. *)
Record heat_zone : Type := {
  id : Z;                    (* SERIAL PRIMARY KEY *)
  uuid : N;
  latitude : R;
  longitude : R;
  intensity : Z;             (* INTEGER DEFAULT 1, CHECK 1..10 *)
  zone_type : zone_kind;
  incident_count : Z         (* INTEGER DEFAULT 1 *)
}.

(* ================================================================= *)
(** * Numbers: [Math] and the SQL distance predicate *)

Module Geo.
Local Open Scope R_scope.

Definition Rleb (x y : R) : bool := if Rle_dec x y then true else false.

(** SQL [radians(deg)] *)
Definition radians (deg : R) : R := deg * PI / 180.

(** The distance expression of every proximity predicate of the
    repository (spherical law of cosines):
    [6371 * acos(cos(radians($1)) * cos(radians(latitude)) *
     cos(radians(longitude) - radians($2)) +
     sin(radians($1)) * sin(radians(latitude)))]. *)
Definition sql_distance (lat lng : R) (latitude longitude : R) : R :=
  6371 * acos (cos (radians lat) * cos (radians latitude)
               * cos (radians longitude - radians lng)
               + sin (radians lat) * sin (radians latitude)).

(** [sql_distance ... <= km], the shape of each WHERE clause. *)
Definition within (km : R) (lat lng : R) (latitude longitude : R) : bool :=
  Rleb (sql_distance lat lng latitude longitude) km.

(** [Math.atan2(y, x)]: the angle of the point [(x, y)], in (-PI, PI]. *)
Definition Math_atan2 (y x : R) : R :=
  if Rlt_dec 0 x then atan (y / x)
  else if Rlt_dec x 0 then
         if Rle_dec 0 y then atan (y / x) + PI else atan (y / x) - PI
  else if Rlt_dec 0 y then PI / 2
  else if Rlt_dec y 0 then - (PI / 2)
  else 0.

(** [Math.round(x)]: the nearest integer, a tie going up. *)
Definition Math_round (x : R) : Z := Int_part (x + / 2).

(** [parseFloat(x.toFixed(2))]: [toFixed] drops the sign, takes the
    integer [n] nearest to [x * 100] (the larger one on a tie) and
    prints [n / 100]; from 1e21 on it prints the number as it is. *)
Definition toFixed2 (x : R) : R :=
  if Rlt_dec x 0 then
    if Rle_dec (10 ^ 21) (- x) then x
    else - (IZR (Int_part (- x * 100 + / 2)) / 100)
  else
    if Rle_dec (10 ^ 21) x then x
    else IZR (Int_part (x * 100 + / 2)) / 100.

(** The Haversine block of [POST /api/routes/calculate]: the value of
    [distance]. *)
Definition haversine (originLat originLng destinationLat destinationLng : R)
  : R :=
  let R_ := 6371 in
  let dLat := (destinationLat - originLat) * PI / 180 in
  let dLng := (destinationLng - originLng) * PI / 180 in
  let a := sin (dLat / 2) * sin (dLat / 2)
           + cos (originLat * PI / 180) * cos (destinationLat * PI / 180)
             * sin (dLng / 2) * sin (dLng / 2) in
  let c := 2 * Math_atan2 (sqrt a) (sqrt (1 - a)) in
  R_ * c.

(** [Math.round((distance / 30) * 60)] *)
Definition estimatedTime (distance : R) : Z :=
  Math_round ((distance / 30) * 60).

End Geo.

(* ================================================================= *)
(** * Scoring *)

Inductive safety_level : Type := high | medium | low.

(** [safetyScore >= 80 ? 'high' : safetyScore >= 50 ? 'medium' : 'low'],
    the same expression in both handlers. *)
Definition safetyLevel (safetyScore : Z) : safety_level :=
  if (80 <=? safetyScore)%Z then high
  else if (50 <=? safetyScore)%Z then medium
  else low.

(** [Math.max(0, Math.min(100, safetyScore))] *)
Definition clampScore (safetyScore : Z) : Z :=
  Z.max 0 (Z.min 100 safetyScore).

(** The counters of [GET /api/stats/safety-score] and one turn of its
    [forEach]. *)
Record tally : Type := {
  t_safetyScore : Z;
  t_crimeZones : Z;
  t_accidentZones : Z
}.

Definition stats_step (t : tally) (zone : heat_zone) : tally :=
  {| t_safetyScore := (t_safetyScore t - intensity zone * 2)%Z;
     t_crimeZones :=
       if zone_kind_eqb (zone_type zone) crime
       then (t_crimeZones t + 1)%Z else t_crimeZones t;
     t_accidentZones :=
       if zone_kind_eqb (zone_type zone) accident
       then (t_accidentZones t + 1)%Z else t_accidentZones t |}.

Definition stats_tally (rows : list heat_zone) : tally :=
  fold_left stats_step rows
    {| t_safetyScore := 100; t_crimeZones := 0; t_accidentZones := 0 |}.

(** The [forEach] of [POST /api/routes/calculate]. *)
Definition route_tally (rows : list heat_zone) : Z :=
  fold_left (fun safetyScore zone => (safetyScore - intensity zone * 2)%Z)
    rows 100%Z.

(* ================================================================= *)
(** * The store and the world *)

(** A row of [help_points] (the columns the predicates read; the display
    columns [name], [type] and [phone] travel with [hp_uuid]). *)
Record help_point : Type := {
  hp_uuid : N;
  hp_latitude : R;
  hp_longitude : R;
  is_active : bool
}.

(** A row of [reports], as [POST /api/reports] writes it. *)
Record report : Type := {
  r_uuid : N;
  user_id : Z;
  incident_type : JSString.t;
  description : option JSString.t;
  r_latitude : R;
  r_longitude : R;
  address : option JSString.t;
  severity : JSString.t;
  r_status : JSString.t;           (* DEFAULT 'pending' *)
  image_url : option JSString.t;
  is_anonymous : bool
}.

Record database : Type := {
  reports : list report;
  heat_zones : list heat_zone;
  heat_zones_id_seq : Z;          (* next value of the SERIAL column *)
  help_points : list help_point
}.

(** What a handler runs in: the tables, the outcome of the coming calls of
    the store ([true]: that call fails, whatever the reason: connection
    loss, constraint violation, argument out of range), the values
    [uuidv4()] will hand out, and what [console.error] has written. *)
Record world : Type := {
  db : database;
  failures : list bool;
  uuid_seq : N;
  console : list string
}.

Definition set_db (d : database) (w : world) : world :=
  {| db := d; failures := failures w; uuid_seq := uuid_seq w;
     console := console w |}.

Definition set_failures (f : list bool) (w : world) : world :=
  {| db := db w; failures := f; uuid_seq := uuid_seq w;
     console := console w |}.

(** ** Asynchronous functions that may throw *)

Inductive error : Type := StoreError | TypeError.

Inductive outcome (A : Type) : Type :=
| Return (a : A)
| Throw (e : error).

Arguments Return {A} a.
Arguments Throw {A} e.

Definition action (A : Type) : Type := world -> outcome A * world.

Definition ret {A} (a : A) : action A := fun w => (Return a, w).

Definition throw {A} (e : error) : action A := fun w => (Throw e, w).

(** [const x = await m; k x] *)
Definition bind {A B} (m : action A) (k : A -> action B) : action B :=
  fun w =>
    match m w with
    | (Return a, w') => k a w'
    | (Throw e, w') => (Throw e, w')
    end.

(** [try { body } catch (error) { handler }] *)
Definition try_catch {A} (body : action A) (handler : error -> action A)
  : action A :=
  fun w =>
    match body w with
    | (Return a, w') => (Return a, w')
    | (Throw e, w') => handler e w'
    end.

Declare Scope action_scope.
Delimit Scope action_scope with action.
Notation "x <- m ;; k" := (bind m (fun x => k))
  (at level 100, m at next level, right associativity) : action_scope.
Notation "m ;;; k" := (bind m (fun _ => k))
  (at level 100, right associativity) : action_scope.
Local Open Scope action_scope.

(** [console.error(msg, error)] *)
Definition console_error (msg : string) : action unit :=
  fun w =>
    (Return tt,
     {| db := db w; failures := failures w; uuid_seq := uuid_seq w;
        console := console w ++ [msg] |}).

(** [uuidv4()] *)
Definition uuidv4 : action N :=
  fun w =>
    (Return (uuid_seq w),
     {| db := db w; failures := failures w; uuid_seq := N.succ (uuid_seq w);
        console := console w |}).

(** [pool.query(text, params)]: the statement runs unless the store
    fails on this call. *)
Definition pool_query {A} (stmt : database -> A * database) : action A :=
  fun w =>
    let w' := set_failures (tl (failures w)) w in
    if hd false (failures w) then (Throw StoreError, w')
    else let (rows, d) := stmt (db w) in (Return rows, set_db d w').

(** [query] of the database module: logs the failure and rethrows. *)
Definition query {A} (stmt : database -> A * database) : action A :=
  try_catch (pool_query stmt)
    (fun error => console_error "Error en query:" ;;; throw error).

(** ** The SQL statements *)

Module SQL.

Definition set_heat_zones (zs : list heat_zone) (seq : Z) (d : database)
  : database :=
  {| reports := reports d; heat_zones := zs; heat_zones_id_seq := seq;
     help_points := help_points d |}.

(** [SELECT id, incident_count, intensity FROM heat_zones
     WHERE zone_type = $1 AND (distance) <= 0.1] *)
Definition select_zone_nearby (zoneType : zone_kind) (lat lng : R)
  (d : database) : list heat_zone * database :=
  (filter (fun z => zone_kind_eqb (zone_type z) zoneType
                    && Geo.within (1 / 10)%R lat lng (latitude z) (longitude z))
     (heat_zones d), d).

(** [UPDATE heat_zones SET incident_count = incident_count + 1,
     intensity = $1, ... WHERE id = $2] *)
Definition update_zone (newIntensity : Z) (zone_id : Z) (d : database)
  : unit * database :=
  (tt,
   set_heat_zones
     (map (fun z =>
             if (id z =? zone_id)%Z
             then {| id := id z; uuid := uuid z;
                     latitude := latitude z; longitude := longitude z;
                     intensity := newIntensity;
                     zone_type := zone_type z;
                     incident_count := (incident_count z + 1)%Z |}
             else z)
        (heat_zones d))
     (heat_zones_id_seq d) d).

(** [INSERT INTO heat_zones (uuid, latitude, longitude, zone_type,
     intensity) VALUES ($1, $2, $3, $4, 1)]; [id] and [incident_count]
    take their defaults. *)
Definition insert_zone (u : N) (lat lng : R) (zoneType : zone_kind)
  (d : database) : unit * database :=
  (tt,
   set_heat_zones
     (heat_zones d ++
        [{| id := heat_zones_id_seq d; uuid := u;
            latitude := lat; longitude := lng;
            intensity := 1; zone_type := zoneType;
            incident_count := 1 |}])
     (heat_zones_id_seq d + 1)%Z d).

(** [INSERT INTO reports (...) VALUES (...) RETURNING ...] *)
Definition insert_report (r : report) (d : database)
  : list report * database :=
  ([r],
   {| reports := reports d ++ [r]; heat_zones := heat_zones d;
      heat_zones_id_seq := heat_zones_id_seq d;
      help_points := help_points d |}).

(** [SELECT zone_type, intensity, incident_count FROM heat_zones
     WHERE (distance) <= $3] *)
Definition select_zones_within (lat lng radius : R) (d : database)
  : list heat_zone * database :=
  (filter (fun z => Geo.within radius lat lng (latitude z) (longitude z))
     (heat_zones d), d).

(** [SELECT COUNT( * ) as total FROM help_points
     WHERE is_active = true AND (distance) <= $3] *)
Definition count_help_points (lat lng radius : R) (d : database)
  : Z * database :=
  (Z.of_nat
     (List.length
        (filter (fun h => is_active h
                          && Geo.within radius lat lng
                               (hp_latitude h) (hp_longitude h))
           (help_points d))), d).

(** [SELECT zone_type, intensity, incident_count FROM heat_zones
     WHERE (distance from $1,$2) <= 2 OR (distance from $3,$4) <= 2] *)
Definition select_zones_in_route (originLat originLng : R)
  (destinationLat destinationLng : R) (d : database)
  : list heat_zone * database :=
  (filter (fun z =>
             Geo.within 2 originLat originLng (latitude z) (longitude z)
             || Geo.within 2 destinationLat destinationLng
                  (latitude z) (longitude z))
     (heat_zones d), d).

(** [SELECT uuid, name, type, latitude, longitude, phone FROM help_points
     WHERE is_active = true AND ((distance from $1,$2) <= 1
     OR (distance from $3,$4) <= 1) LIMIT 10] *)
Definition select_help_points_in_route (originLat originLng : R)
  (destinationLat destinationLng : R) (d : database)
  : list help_point * database :=
  (firstn 10
     (filter (fun h =>
                is_active h
                && (Geo.within 1 originLat originLng
                      (hp_latitude h) (hp_longitude h)
                    || Geo.within 1 destinationLat destinationLng
                         (hp_latitude h) (hp_longitude h)))
        (help_points d)), d).

End SQL.

(* ================================================================= *)
(** * The handlers *)

(** What a handler sends: [res.status(n).json(...)]; [res.json(...)] alone
    is status 200. *)
Inductive body (D : Type) : Type :=
| Success (message : option string) (data : D)
| ValidationErrors (errors : list string)
| Failure (message : string).

Arguments Success {D} message data.
Arguments ValidationErrors {D} errors.
Arguments Failure {D} message.

Record response (D : Type) : Type := { status : Z; json : body D }.

Arguments status {D} r.
Arguments json {D} r.

(** ** [updateHeatZone(latitude, longitude, incidentType)] *)

Definition updateHeatZone (latitude longitude : R) (incidentType : JSString.t)
  : action unit :=
  try_catch
    (let zoneType := zoneType incidentType in
     existingZone <- query (SQL.select_zone_nearby zoneType latitude longitude) ;;
     match existingZone with
     | zone :: _ =>
         let newIntensity := Z.min 10 (intensity zone + 1) in
         query (SQL.update_zone newIntensity (id zone))
     | [] =>
         u <- uuidv4 ;;
         query (SQL.insert_zone u latitude longitude zoneType)
     end)
    (fun error => console_error "Error al actualizar zona de calor:").

(** ** [POST /api/reports] *)

Record report_request : Type := {
  rq_errors : list string;           (* validationResult(req) *)
  rq_user : Z;                       (* req.user.id, set by verifyToken *)
  rq_incidentType : JSString.t;
  rq_description : option JSString.t;
  rq_latitude : R;
  rq_longitude : R;
  rq_address : option JSString.t;
  rq_severity : option JSString.t;
  rq_imageUrl : option JSString.t;
  rq_isAnonymous : option bool
}.

(** [x || null] for an optional string: the empty string is falsy. *)
Definition or_null (x : option JSString.t) : option JSString.t :=
  match x with
  | Some (_ :: _) => x
  | _ => None
  end.

Definition post_report (req : report_request) : action (response report) :=
  try_catch
    (match rq_errors req with
     | _ :: _ =>
         ret {| status := 400; json := ValidationErrors (rq_errors req) |}
     | [] =>
         let severity :=
           match rq_severity req with
           | Some s => s
           | None => JSString.lit "medium"
           end in
         let isAnonymous :=
           match rq_isAnonymous req with Some b => b | None => false end in
         reportUuid <- uuidv4 ;;
         result <- query
                     (SQL.insert_report
                        {| r_uuid := reportUuid;
                           user_id := rq_user req;
                           incident_type := rq_incidentType req;
                           description := or_null (rq_description req);
                           r_latitude := rq_latitude req;
                           r_longitude := rq_longitude req;
                           address := or_null (rq_address req);
                           severity := severity;
                           r_status := JSString.lit "pending";
                           image_url := or_null (rq_imageUrl req);
                           is_anonymous := isAnonymous |}) ;;
         updateHeatZone (rq_latitude req) (rq_longitude req)
           (rq_incidentType req) ;;;
         match result with
         | report :: _ =>
             ret {| status := 201;
                    json := Success (Some "Reporte creado exitosamente"%string)
                              report |}
         | [] => throw TypeError
         end
     end)
    (fun error =>
       console_error "Error al crear reporte:" ;;;
       ret {| status := 500; json := Failure "Error al crear reporte" |}).

(** ** [GET /api/stats/safety-score] *)

Record score_request : Type := {
  q_lat : option R;        (* absent or empty: [None] *)
  q_lng : option R;
  q_radius : option R      (* default 5 *)
}.

Record score_details : Type := {
  dangerZones : Z;
  crimeZones : Z;
  accidentZones : Z;
  helpPointsNearby : Z
}.

Record score_data : Type := {
  s_safetyScore : Z;
  s_safetyLevel : safety_level;
  details : score_details;
  recommendation : string
}.

Definition get_safety_score (req : score_request)
  : action (response score_data) :=
  try_catch
    (match q_lat req, q_lng req with
     | Some lat, Some lng =>
         let radius := match q_radius req with Some r => r | None => 5%R end in
         zonesResult <- query (SQL.select_zones_within lat lng radius) ;;
         let t := stats_tally zonesResult in
         let safetyScore := clampScore (t_safetyScore t) in
         helpPointsResult <- query (SQL.count_help_points lat lng radius) ;;
         ret {| status := 200;
                json :=
                  Success None
                    {| s_safetyScore := safetyScore;
                       s_safetyLevel := safetyLevel safetyScore;
                       details :=
                         {| dangerZones := Z.of_nat (List.length zonesResult);
                            crimeZones := t_crimeZones t;
                            accidentZones := t_accidentZones t;
                            helpPointsNearby := helpPointsResult |};
                       recommendation :=
                         (if (safetyScore <? 50)%Z
                          then "Se recomienda precaución en esta zona"
                          else if (safetyScore <? 80)%Z
                               then "Zona moderadamente segura"
                               else "Zona segura")%string |} |}
     | _, _ =>
         ret {| status := 400;
                json := Failure "Se requieren latitud y longitud" |}
     end)
    (fun error =>
       console_error "Error al calcular safety score:" ;;;
       ret {| status := 500;
              json := Failure "Error al calcular safety score" |}).

(** ** [POST /api/routes/calculate] *)

Record route_request : Type := {
  v_errors : list string;            (* validationResult(req) *)
  originLat : R;
  originLng : R;
  originAddress : option JSString.t;
  destinationLat : R;
  destinationLng : R;
  destinationAddress : option JSString.t
}.

Record place : Type := {
  p_latitude : R;
  p_longitude : R;
  p_address : option JSString.t
}.

Record route_data : Type := {
  origin : place;
  destination : place;
  r_safetyScore : Z;
  r_safetyLevel : safety_level;
  distanceKm : R;
  estimatedTimeMin : Z;
  r_dangerZones : Z;
  r_helpPointsNearby : list help_point
}.

Definition calculate_route (req : route_request)
  : action (response route_data) :=
  try_catch
    (match v_errors req with
     | _ :: _ =>
         ret {| status := 400; json := ValidationErrors (v_errors req) |}
     | [] =>
         heatZonesInRoute <-
           query (SQL.select_zones_in_route (originLat req) (originLng req)
                    (destinationLat req) (destinationLng req)) ;;
         let safetyScore := clampScore (route_tally heatZonesInRoute) in
         let distance :=
           Geo.haversine (originLat req) (originLng req)
             (destinationLat req) (destinationLng req) in
         let estimatedTime := Geo.estimatedTime distance in
         helpPoints <-
           query (SQL.select_help_points_in_route
                    (originLat req) (originLng req)
                    (destinationLat req) (destinationLng req)) ;;
         ret {| status := 200;
                json :=
                  Success None
                    {| origin := {| p_latitude := originLat req;
                                    p_longitude := originLng req;
                                    p_address := originAddress req |};
                       destination := {| p_latitude := destinationLat req;
                                         p_longitude := destinationLng req;
                                         p_address := destinationAddress req |};
                       r_safetyScore := safetyScore;
                       r_safetyLevel := safetyLevel safetyScore;
                       distanceKm := Geo.toFixed2 distance;
                       estimatedTimeMin := estimatedTime;
                       r_dangerZones :=
                         Z.of_nat (List.length heatZonesInRoute);
                       r_helpPointsNearby := helpPoints |} |}
     end)
    (fun error =>
       console_error "Error al calcular ruta:" ;;;
       ret {| status := 500; json := Failure "Error al calcular ruta" |}).

(* ================================================================= *)
(** * Vocabulary of the statements *)

(** The label contains the keyword in some letter-casing: a stretch of the
    label lower-cases to the keyword. *)
Definition mentions (label : JSString.t) (keyword : string) : Prop :=
  exists pre word post,
    label = pre ++ word ++ post
    /\ JSString.toLowerCase word = JSString.lit keyword.

(** Sum of the intensities of a list of zones (the spec's [S]). *)
Definition total_intensity (zones : list heat_zone) : Z :=
  fold_right (fun zone acc => (intensity zone + acc)%Z) 0%Z zones.

(** [clamp(x, lo, hi)] *)
Definition clamp (x lo hi : Z) : Z :=
  if (x <? lo)%Z then lo else if (hi <? x)%Z then hi else x.

(** Number of zones of one type in a list. *)
Definition count_type (k : zone_kind) (zones : list heat_zone) : Z :=
  Z.of_nat
    (List.length (filter (fun z => zone_kind_eqb (zone_type z) k) zones)).

(** The store answers the next [n] calls: none of them fails. *)
Definition answers (n : nat) (w : world) : Prop :=
  Forall (fun fails => fails = false) (firstn n (failures w)).

(** What a failed call of [updateHeatZone] leaves on the error console:
    the line of [query], then its own. *)
Definition update_log : list string :=
  ["Error en query:"; "Error al actualizar zona de calor:"]%string.

(** ** The state of the heat zones *)

(** The bounds of one zone. *)
Definition zone_ok (zone : heat_zone) : Prop :=
  (1 <= intensity zone <= 10)%Z /\ (1 <= incident_count zone)%Z.

(** [id] is a primary key fed by a sequence: no two rows share one, and
    the sequence is ahead of all of them. *)
Definition keys_ok (d : database) : Prop :=
  NoDup (map id (heat_zones d))
  /\ Forall (fun n => (n < heat_zones_id_seq d)%Z) (map id (heat_zones d)).

Definition store_ok (d : database) : Prop :=
  Forall zone_ok (heat_zones d) /\ keys_ok d.

(** What the update branch makes of the zone it found. *)
Definition bump (zone : heat_zone) : heat_zone :=
  {| id := id zone; uuid := uuid zone;
     latitude := latitude zone; longitude := longitude zone;
     intensity := Z.min 10 (intensity zone + 1);
     zone_type := zone_type zone;
     incident_count := (incident_count zone + 1)%Z |}.

(** The zone a first incident creates. *)
Definition fresh_zone (n : Z) (u : N) (lat lng : R) (k : zone_kind)
  : heat_zone :=
  {| id := n; uuid := u; latitude := lat; longitude := lng;
     intensity := 1; zone_type := k; incident_count := 1 |}.

(** A zone as the insert branch leaves it. *)
Definition just_created (zone : heat_zone) : Prop :=
  intensity zone = 1%Z /\ incident_count zone = 1%Z.

(** What one call of [updateHeatZone] may do to a zone of the table. *)
Inductive zone_step : heat_zone -> heat_zone -> Prop :=
| zone_kept (zone : heat_zone) : zone_step zone zone
| zone_bumped (zone : heat_zone) : zone_step zone (bump zone).

(** The same zone later on: its count has not gone down. *)
Definition never_decreased (zone zone' : heat_zone) : Prop :=
  id zone' = id zone
  /\ (incident_count zone <= incident_count zone')%Z.

(** [new] holds every zone of [old], in place and related by [rel], followed
    by the zones created since. *)
Definition evolves (rel : heat_zone -> heat_zone -> Prop)
  (created_ok : heat_zone -> Prop) (old new : list heat_zone) : Prop :=
  exists kept created,
    new = kept ++ created
    /\ Forall2 rel old kept
    /\ Forall created_ok created.

(** One request served, or a change in the store's availability. *)
Inductive step : world -> world -> Prop :=
| step_report req w r w' : post_report req w = (r, w') -> step w w'
| step_score req w r w' : get_safety_score req w = (r, w') -> step w w'
| step_route req w r w' : calculate_route req w = (r, w') -> step w w'
| step_store fs w : step w (set_failures fs w).

Inductive reachable (w0 : world) : world -> Prop :=
| reach_start : reachable w0 w0
| reach_step w w' : reachable w0 w -> step w w' -> reachable w0 w'.

(** ** A series of incidents at one point *)



(** ** Sample data: the seed script and small worlds *)

Definition seed_zone (n : Z) (lat lng : R) (i : Z) (k : zone_kind) (c : Z)
  : heat_zone :=
  {| id := n; uuid := Z.to_N n; latitude := lat; longitude := lng;
     intensity := i; zone_type := k; incident_count := c |}.

Definition seed_heat_zones : list heat_zone :=
  [ seed_zone 1 (-12.0464) (-77.0428) 7 crime 15;
    seed_zone 2 (-12.0556) (-77.0864) 5 accident 8;
    seed_zone 3 (-12.1186) (-77.0286) 3 congestion 12;
    seed_zone 4 (-12.0789) (-77.0389) 6 danger 10;
    seed_zone 5 (-12.0986) (-77.0352) 4 crime 6;
    seed_zone 6 (-12.1097) (-77.0344) 8 accident 20;
    seed_zone 7 (-12.0812) (-77.0049) 2 congestion 5;
    seed_zone 8 (-12.1019) (-76.9989) 5 crime 9 ].

Definition seed_database : database :=
  {| reports := []; heat_zones := seed_heat_zones; heat_zones_id_seq := 9;
     help_points := [] |}.

(** A table holding the first zone of the seed script alone. *)
Definition single_zone_database : database :=
  {| reports := [];
     heat_zones := [seed_zone 1 (-12.0464) (-77.0428) 7 crime 15];
     heat_zones_id_seq := 2;
     help_points := [] |}.

Definition empty_database : database :=
  {| reports := []; heat_zones := []; heat_zones_id_seq := 1;
     help_points := [] |}.

(** A world whose store never fails. *)
Definition calm (d : database) : world :=
  {| db := d; failures := []; uuid_seq := 100; console := [] |}.

(** A world whose store fails as [fs] says. *)
Definition flaky (fs : list bool) (d : database) : world :=
  {| db := d; failures := fs; uuid_seq := 100; console := [] |}.

(** Requests used in the examples. *)
Definition score_request_at (lat lng : R) : score_request :=
  {| q_lat := Some lat; q_lng := Some lng; q_radius := None |}.

Definition route_request_between (lat1 lng1 lat2 lng2 : R) : route_request :=
  {| v_errors := []; originLat := lat1; originLng := lng1;
     originAddress := None; destinationLat := lat2; destinationLng := lng2;
     destinationAddress := None |}.

Definition report_request_at (lat lng : R) (label : string) : report_request :=
  {| rq_errors := []; rq_user := 1; rq_incidentType := JSString.lit label;
     rq_description := None; rq_latitude := lat; rq_longitude := lng;
     rq_address := None; rq_severity := None; rq_imageUrl := None;
     rq_isAnonymous := None |}.


(** The world after one report of a robbery at the first seed zone. *)
Definition after_one_report : world :=
  snd (post_report (report_request_at (-12.0464) (-77.0428) "Robo")
         (calm seed_database)).

(* ================================================================= *)
(** * Further vocabulary *)

(** The place of a zone type in the order the labels are searched:
    accident first, then crime, then congestion, danger last. *)
Definition class_rank (k : zone_kind) : Z :=
  match k with
  | accident => 3
  | crime => 2
  | congestion => 1
  | danger => 0
  end.

(** No two zones of one type lie within 100 m of each other. *)
Definition separated (zones : list heat_zone) : Prop :=
  ForallOrdPairs
    (fun a b =>
       zone_type a = zone_type b ->
       Geo.within (1 / 10) (latitude b) (longitude b)
         (latitude a) (longitude a) = false)
    zones.

(** The lines the two scoring handlers leave on the error console when
    the store fails them. *)
Definition score_log : list string :=
  ["Error en query:"; "Error al calcular safety score:"]%string.


Definition report_log : list string :=
  ["Error en query:"; "Error al crear reporte:"]%string.


(** A safety-score request with its three parameters given. *)
Definition score_request_within (lat lng radius : R) : score_request :=
  {| q_lat := Some lat; q_lng := Some lng; q_radius := Some radius |}.

(** The world after one report of a robbery, the table holding the first
    seed zone alone. *)
Definition after_one_crime : world :=
  snd (post_report (report_request_at (-12.0464) (-77.0428) "Robo")
         (calm single_zone_database)).

(** The same zone later on, where it was and no less intense. *)
Definition no_calmer (zone zone' : heat_zone) : Prop :=
  latitude zone' = latitude zone
  /\ longitude zone' = longitude zone
  /\ (intensity zone <= intensity zone')%Z.

From Stdlib Require Import Sorted.

(* ================================================================= *)
(** * Numbers read from a request *)

Module JSNumber.
Local Open Scope Z_scope.

(** White space and line terminators, which [parseInt] skips. *)
Definition isWhiteSpace (u : N) : bool :=
  existsb (N.eqb u)
    [9; 10; 11; 12; 13; 32; 160; 5760; 8192; 8193; 8194; 8195; 8196; 8197;
     8198; 8199; 8200; 8201; 8202; 8232; 8233; 8239; 8287; 12288; 65279]%N.

Fixpoint trimStart (s : JSString.t) : JSString.t :=
  match s with
  | [] => []
  | u :: s' => if isWhiteSpace u then trimStart s' else s
  end.

(** The value of a code unit as a digit of the radix, if it is one. *)
Definition digit (radix : Z) (u : N) : option Z :=
  let v :=
    if ((48 <=? u) && (u <=? 57))%N then Z.of_N u - 48
    else if ((97 <=? u) && (u <=? 122))%N then Z.of_N u - 87
    else if ((65 <=? u) && (u <=? 90))%N then Z.of_N u - 55
    else radix in
  if v <? radix then Some v else None.

(** The number the longest prefix of digits denotes; [acc] is the value
    read so far ([None]: no digit yet). *)
Fixpoint digits (radix : Z) (acc : option Z) (s : JSString.t) : option Z :=
  match s with
  | [] => acc
  | u :: s' =>
      match digit radix u with
      | Some v =>
          digits radix
            (Some (radix * match acc with Some n => n | None => 0 end + v)) s'
      | None => acc
      end
  end.

(** The double nearest to a natural number (ties to even): numbers below
    2^53 are doubles; above, 53 bits are kept. *)
Definition round53 (n : Z) : Z :=
  if n <? 2 ^ 53 then n
  else
    let e := Z.log2 n - 52 in
    let q := n / 2 ^ e in
    let r := n mod 2 ^ e in
    let half := 2 ^ (e - 1) in
    let q' := if (half <? r) || ((half =? r) && Z.odd q) then q + 1 else q in
    q' * 2 ^ e.

(** [parseInt(s)] with no radix given: [None] is [NaN]. White space is
    skipped, then a sign, then [0x] or [0X] (which makes the radix 16),
    and the digits that follow are read as far as they go. A number too
    large for a double stands for [Infinity]; like every number from 2^63
    on it is beyond what the statements below accept. *)
Definition parseInt (s : JSString.t) : option Z :=
  let s := trimStart s in
  let '(sign, s) :=
    match s with
    | 45%N :: r => (-1, r)
    | 43%N :: r => (1, r)
    | _ => (1, s)
    end in
  let '(radix, s) :=
    match s with
    | 48%N :: 120%N :: r => (16, r)
    | 48%N :: 88%N :: r => (16, r)
    | _ => (10, s)
    end in
  match digits radix None s with
  | Some n => Some (sign * round53 n)
  | None => None
  end.

(** [parseInt(x)] for a parameter with a default: the default is a number
    and stands for itself. *)
Definition parseInt_or (default : Z) (x : option JSString.t) : option Z :=
  match x with
  | None => Some default
  | Some s => parseInt s
  end.

(** A string is truthy unless it is empty. *)
Definition truthy (x : option JSString.t) : bool :=
  match x with
  | Some (_ :: _) => true
  | _ => false
  end.

(** [a === b] on strings *)
Fixpoint eqb (a b : JSString.t) : bool :=
  match a, b with
  | [], [] => true
  | x :: a', y :: b' => (x =? y)%N && eqb a' b'
  | _, _ => false
  end.

End JSNumber.

(** ** [ORDER BY] and [LIMIT]

    [ORDER BY key DESC]: the rows by falling key. Rows with equal keys
    are left in table order; PostgreSQL leaves their order open. *)
Module Rows.
Local Open Scope Z_scope.

Fixpoint insert_desc {A} (key : A -> Z * Z) (x : A) (l : list A) : list A :=
  match l with
  | [] => [x]
  | y :: l' =>
      let '(x1, x2) := key x in
      let '(y1, y2) := key y in
      if (y1 <? x1) || ((y1 =? x1) && (y2 <? x2))
      then x :: l
      else y :: insert_desc key x l'
  end.

(** Rows by falling first key, those with equal first key by falling
    second key. *)
Definition order_by_desc {A} (key : A -> Z * Z) (l : list A) : list A :=
  fold_right (insert_desc key) [] l.

(** [a] comes no later than [b] in the order. *)
Definition ranks_before {A} (key : A -> Z * Z) (a b : A) : Prop :=
  fst (key b) < fst (key a)
  \/ (fst (key b) = fst (key a) /\ snd (key b) <= snd (key a)).

(** [LIMIT n OFFSET m] with [n] and [m] as the client sent them: the
    server refuses what is no number, negative, or beyond a [bigint]. *)
Definition limit_offset {A} (n m : option Z) (l : list A) : option (list A) :=
  match n, m with
  | Some n, Some m =>
      if (0 <=? n) && (n <? 2 ^ 63) && (0 <=? m) && (m <? 2 ^ 63)
      then Some (firstn (Z.to_nat n) (skipn (Z.to_nat m) l))
      else None
  | _, _ => None
  end.

(** The server reads both numbers of a [LIMIT n OFFSET m]. *)
Definition accepts (n m : option Z) : Prop :=
  exists n' m',
    n = Some n' /\ m = Some m'
    /\ 0 <= n' < 2 ^ 63 /\ 0 <= m' < 2 ^ 63.

(** A page of rows: [limit] of them after the first [offset]. *)
Definition page {A} (limit offset : Z) (l : list A) : list A :=
  firstn (Z.to_nat limit) (skipn (Z.to_nat offset) l).

(** The characters of a string as the server counts them: a surrogate
    pair is one. *)
Fixpoint chars (s : JSString.t) : Z :=
  match s with
  | [] => 0
  | u :: s' =>
      match s' with
      | v :: s'' =>
          if ((55296 <=? u) && (u <=? 56319)
              && (56320 <=? v) && (v <=? 57343))%N
          then 1 + chars s''
          else 1 + chars s'
      | [] => 1
      end
  end.

(** A value for a [VARCHAR(n)] column: NULL, or a text of at most [n]
    characters. *)
Definition varchar (n : Z) (x : option JSString.t) : bool :=
  match x with
  | Some s => chars s <=? n
  | None => true
  end.

(** A value for an [INTEGER] column: NULL, or a number of 32 bits. *)
Definition integer (x : option Z) : bool :=
  match x with
  | Some n => (- 2 ^ 31 <=? n) && (n <? 2 ^ 31)
  | None => true
  end.

(** A parameter compared with an [INTEGER] column: the server refuses
    what is no number or beyond 32 bits. *)
Definition int4 (n : option Z) : option Z :=
  match n with
  | Some n => if (- 2 ^ 31 <=? n) && (n <? 2 ^ 31) then Some n else None
  | None => None
  end.

End Rows.

(* ================================================================= *)
(** * Accounts and saved routes

    The [users] and [safe_routes] tables, the authentication middleware
    and the handlers of the routes router that read and write saved
    routes. They share nothing with the heat zones, so they get a world
    of their own, built like the one above. *)

Module Site.

(** A row of [users], as the middleware selects it. *)
Record user : Type := {
  u_id : Z;
  u_uuid : N;
  u_email : JSString.t;
  u_full_name : JSString.t;
  u_user_type : JSString.t;     (* 'citizen', 'authority' or 'admin' *)
  u_is_active : bool
}.

(** A row of [safe_routes]. *)
Record safe_route : Type := {
  sr_id : Z;
  sr_uuid : N;
  sr_user_id : Z;
  sr_name : option JSString.t;
  origin_lat : R;
  origin_lng : R;
  origin_address : option JSString.t;
  destination_lat : R;
  destination_lng : R;
  destination_address : option JSString.t;
  waypoints : option JSString.t;      (* JSONB, as text *)
  safety_score : Z;                   (* CHECK 0..100 *)
  distance_km : option R;
  estimated_time_min : option Z;
  is_favorite : option bool;          (* BOOLEAN DEFAULT FALSE, nullable *)
  created_at : Z
}.

(** A row of [reports], with all its columns. *)
Record report_row : Type := {
  rp_uuid : N;
  rp_user_id : option Z;              (* REFERENCES users(id), nullable *)
  rp_incident_type : JSString.t;
  rp_description : option JSString.t;
  rp_latitude : R;
  rp_longitude : R;
  rp_address : option JSString.t;
  rp_severity : option JSString.t;    (* nullable, as is_anonymous *)
  rp_status : JSString.t;
  rp_image_url : option JSString.t;
  rp_is_anonymous : option bool;
  rp_views_count : Z;
  rp_created_at : Z;
  rp_updated_at : Z
}.

Record tables : Type := {
  users : list user;
  safe_routes : list safe_route;
  safe_routes_id_seq : Z;
  reports : list report_row
}.

(** What [jwt.verify] throws, and what the store throws. *)
Inductive fault : Type :=
| StoreFault
| TokenExpiredError
| JsonWebTokenError
| OtherError.

Inductive result (A : Type) : Type :=
| Done (a : A)
| Raised (e : fault).

Arguments Done {A} a.
Arguments Raised {A} e.

(** The world of these handlers: the tables, the outcome of the coming
    calls of the store, the values [uuidv4()] will hand out, the time,
    the error console, and what [jwt.verify] makes of a token under the
    server's secret: the [uuid] of its payload (if it has one) or the
    error thrown. *)
Record env : Type := {
  tbl : tables;
  fails : list bool;
  uuids : N;
  now : Z;
  errlog : list string;
  jwt : JSString.t -> result (option N)
}.

Definition act (A : Type) : Type := env -> result A * env.

Definition ret {A} (a : A) : act A := fun s => (Done a, s).

Definition throw {A} (e : fault) : act A := fun s => (Raised e, s).

Definition bind {A B} (m : act A) (k : A -> act B) : act B :=
  fun s =>
    match m s with
    | (Done a, s') => k a s'
    | (Raised e, s') => (Raised e, s')
    end.

Definition try_catch {A} (body : act A) (handler : fault -> act A) : act A :=
  fun s =>
    match body s with
    | (Done a, s') => (Done a, s')
    | (Raised e, s') => handler e s'
    end.

Declare Scope site_scope.
Delimit Scope site_scope with site.
Notation "x <- m ;; k" := (bind m (fun x => k))
  (at level 100, m at next level, right associativity) : site_scope.
Notation "m ;;; k" := (bind m (fun _ => k))
  (at level 100, right associativity) : site_scope.
Local Open Scope site_scope.

Definition set_tbl (t : tables) (s : env) : env :=
  {| tbl := t; fails := fails s; uuids := uuids s; now := now s;
     errlog := errlog s; jwt := jwt s |}.

Definition set_fails (f : list bool) (s : env) : env :=
  {| tbl := tbl s; fails := f; uuids := uuids s; now := now s;
     errlog := errlog s; jwt := jwt s |}.

Definition console_error (msg : string) : act unit :=
  fun s =>
    (Done tt,
     {| tbl := tbl s; fails := fails s; uuids := uuids s; now := now s;
        errlog := errlog s ++ [msg]; jwt := jwt s |}).

Definition uuidv4 : act N :=
  fun s =>
    (Done (uuids s),
     {| tbl := tbl s; fails := fails s; uuids := N.succ (uuids s);
        now := now s; errlog := errlog s; jwt := jwt s |}).

(** [jwt.verify(token, process.env.JWT_SECRET)] *)
Definition jwt_verify (token : JSString.t) : act (option N) :=
  fun s => (jwt s token, s).

(** [pool.query(text, params)] for a statement the server may refuse
    ([None]): a parameter it cannot read, a constraint of the table
    (CHECK, UNIQUE, PRIMARY KEY, REFERENCES, the range of an INTEGER, the
    length of a VARCHAR) violated. A flag of [fails] stands for every
    other reason for which the call fails: the connection lost, a text
    the server cannot encode, a DECIMAL out of its precision. DECIMAL
    columns are read as real numbers, and a column the handlers never
    set to NULL as a value of its type. *)
Definition pool_query {A} (stmt : tables -> Z -> option (A * tables))
  : act A :=
  fun s =>
    let s' := set_fails (tl (fails s)) s in
    if hd false (fails s) then (Raised StoreFault, s')
    else
      match stmt (tbl s) (now s) with
      | Some (rows, t) => (Done rows, set_tbl t s')
      | None => (Raised StoreFault, s')
      end.

(** [query] of the database module *)
Definition query {A} (stmt : tables -> Z -> option (A * tables)) : act A :=
  try_catch (pool_query stmt)
    (fun error => console_error "Error en query:" ;;; throw error).

(** ** The statements *)

Module SQL.

Definition set_safe_routes (rs : list safe_route) (seq : Z) (t : tables)
  : tables :=
  {| users := users t; safe_routes := rs; safe_routes_id_seq := seq;
     reports := reports t |}.

(** [SELECT id, uuid, email, full_name, user_type, is_active FROM users
     WHERE uuid = $1]; a payload without [uuid] compares with NULL and
    finds nothing. *)
Definition select_user (uuid : option N) (t : tables) (_ : Z)
  : option (list user * tables) :=
  Some (match uuid with
        | Some u => filter (fun r => (u_uuid r =? u)%N) (users t)
        | None => []
        end, t).

(** [... WHERE uuid = $1 AND is_active = true] *)
Definition select_active_user (uuid : option N) (t : tables) (_ : Z)
  : option (list user * tables) :=
  Some (match uuid with
        | Some u =>
            filter (fun r => (u_uuid r =? u)%N && u_is_active r) (users t)
        | None => []
        end, t).

(** [SELECT ... FROM safe_routes WHERE user_id = $1
     (AND is_favorite = true) ORDER BY created_at DESC
     LIMIT $2 OFFSET $3] *)
Definition select_routes (user_id : Z) (favoritesOnly : bool)
  (limit offset : option Z) (t : tables) (_ : Z)
  : option (list safe_route * tables) :=
  match
    Rows.limit_offset limit offset
      (Rows.order_by_desc (fun r => (created_at r, 0%Z))
         (filter (fun r =>
                    (sr_user_id r =? user_id)%Z
                    && (negb favoritesOnly
                        || match is_favorite r with
                           | Some true => true
                           | _ => false
                           end))
            (safe_routes t)))
  with
  | Some rows => Some (rows, t)
  | None => None
  end.

(** What the table demands of a row to be inserted under an id: the
    CHECK on [safety_score]; that [user_id] REFERENCES a user; that
    [uuid] is UNIQUE and [id] the PRIMARY KEY; that [name] fits its
    VARCHAR(255) and [estimated_time_min] its INTEGER. *)
Definition admitted (new_id : Z) (r : safe_route) (t : tables) : bool :=
  ((0 <=? safety_score r) && (safety_score r <=? 100))%Z
  && existsb (fun u => (u_id u =? sr_user_id r)%Z) (users t)
  && negb (existsb (fun x => (sr_uuid x =? sr_uuid r)%N) (safe_routes t))
  && negb (existsb (fun x => (sr_id x =? new_id)%Z) (safe_routes t))
  && Rows.varchar 255 (sr_name r)
  && Rows.integer (estimated_time_min r).

(** [INSERT INTO safe_routes (...) VALUES (...) RETURNING ...] *)
Definition insert_route (r : safe_route) (t : tables) (time : Z)
  : option (list safe_route * tables) :=
  if admitted (safe_routes_id_seq t) r t then
    let row :=
      {| sr_id := safe_routes_id_seq t; sr_uuid := sr_uuid r;
         sr_user_id := sr_user_id r; sr_name := sr_name r;
         origin_lat := origin_lat r; origin_lng := origin_lng r;
         origin_address := origin_address r;
         destination_lat := destination_lat r;
         destination_lng := destination_lng r;
         destination_address := destination_address r;
         waypoints := waypoints r; safety_score := safety_score r;
         distance_km := distance_km r;
         estimated_time_min := estimated_time_min r;
         is_favorite := is_favorite r; created_at := time |} in
    Some ([row],
          set_safe_routes (safe_routes t ++ [row])
            (safe_routes_id_seq t + 1)%Z t)
  else None.

Definition with_favorite (f : option bool) (r : safe_route) : safe_route :=
  {| sr_id := sr_id r; sr_uuid := sr_uuid r;
     sr_user_id := sr_user_id r; sr_name := sr_name r;
     origin_lat := origin_lat r; origin_lng := origin_lng r;
     origin_address := origin_address r;
     destination_lat := destination_lat r;
     destination_lng := destination_lng r;
     destination_address := destination_address r;
     waypoints := waypoints r; safety_score := safety_score r;
     distance_km := distance_km r;
     estimated_time_min := estimated_time_min r;
     is_favorite := f; created_at := created_at r |}.

(** The rows a [WHERE uuid = $1 AND user_id = $2] picks. *)
Definition owned (uuid : N) (user_id : Z) (r : safe_route) : bool :=
  (sr_uuid r =? uuid)%N && (sr_user_id r =? user_id)%Z.

(** [UPDATE safe_routes SET is_favorite = $1
     WHERE uuid = $2 AND user_id = $3 RETURNING uuid, is_favorite] *)
Definition update_favorite (f : option bool) (uuid : N) (user_id : Z)
  (t : tables) (_ : Z) : option (list safe_route * tables) :=
  Some (map (with_favorite f) (filter (owned uuid user_id) (safe_routes t)),
        set_safe_routes
          (map (fun r => if owned uuid user_id r then with_favorite f r else r)
             (safe_routes t))
          (safe_routes_id_seq t) t).

(** [DELETE FROM safe_routes WHERE uuid = $1 AND user_id = $2
     RETURNING uuid] *)
Definition delete_route (uuid : N) (user_id : Z) (t : tables) (_ : Z)
  : option (list safe_route * tables) :=
  Some (filter (owned uuid user_id) (safe_routes t),
        set_safe_routes
          (filter (fun r => negb (owned uuid user_id r)) (safe_routes t))
          (safe_routes_id_seq t) t).

(** [reports r LEFT JOIN users u ON r.user_id = u.id]: a row for every
    user that matches, one with NULLs for [u] when none does. *)
Definition join_reporter (us : list user) (r : report_row)
  : list (report_row * option user) :=
  match
    match rp_user_id r with
    | Some n => filter (fun u => (u_id u =? n)%Z) us
    | None => []
    end
  with
  | [] => [(r, None)]
  | matches => map (fun u => (r, Some u)) matches
  end.

(** [CASE WHEN r.is_anonymous THEN NULL ELSE u.full_name END] *)
Definition reporter_name (j : report_row * option user)
  : option JSString.t :=
  match rp_is_anonymous (fst j) with
  | Some true => None
  | _ => match snd j with Some u => Some (u_full_name u) | None => None end
  end.

(** [CASE WHEN r.is_anonymous THEN NULL ELSE u.uuid END] *)
Definition reporter_uuid (j : report_row * option user) : option N :=
  match rp_is_anonymous (fst j) with
  | Some true => None
  | _ => match snd j with Some u => Some (u_uuid u) | None => None end
  end.

(** The WHERE clause [GET /api/reports] builds: each filter is there
    when its parameter is. *)
Definition report_matches (status incidentType severity : option JSString.t)
  (near : option (R * R * R)) (r : report_row) : bool :=
  match status with
  | Some s => JSNumber.eqb (rp_status r) s
  | None => true
  end
  && match incidentType with
     | Some s => JSNumber.eqb (rp_incident_type r) s
     | None => true
     end
  && match severity with
     | Some s =>
         match rp_severity r with
         | Some x => JSNumber.eqb x s
         | None => false
         end
     | None => true
     end
  && match near with
     | Some (lat, lng, radius) =>
         Geo.within radius lat lng (rp_latitude r) (rp_longitude r)
     | None => true
     end.

(** [SELECT ... FROM reports r LEFT JOIN users u ON r.user_id = u.id
     WHERE ... ORDER BY r.created_at DESC LIMIT $n OFFSET $m] *)
Definition select_reports (status incidentType severity : option JSString.t)
  (near : option (R * R * R)) (limit offset : option Z)
  (t : tables) (_ : Z)
  : option (list (report_row * option user) * tables) :=
  match
    Rows.limit_offset limit offset
      (Rows.order_by_desc (fun j => (rp_created_at (fst j), 0%Z))
         (flat_map (join_reporter (users t))
            (filter (report_matches status incidentType severity near)
               (reports t))))
  with
  | Some rows => Some (rows, t)
  | None => None
  end.

Definition set_reports (rs : list report_row) (t : tables) : tables :=
  {| users := users t; safe_routes := safe_routes t;
     safe_routes_id_seq := safe_routes_id_seq t; reports := rs |}.

Definition with_views (n : Z) (r : report_row) : report_row :=
  {| rp_uuid := rp_uuid r; rp_user_id := rp_user_id r;
     rp_incident_type := rp_incident_type r;
     rp_description := rp_description r;
     rp_latitude := rp_latitude r; rp_longitude := rp_longitude r;
     rp_address := rp_address r; rp_severity := rp_severity r;
     rp_status := rp_status r; rp_image_url := rp_image_url r;
     rp_is_anonymous := rp_is_anonymous r;
     rp_views_count := n;
     rp_created_at := rp_created_at r; rp_updated_at := rp_updated_at r |}.

(** [UPDATE reports SET views_count = views_count + 1 WHERE uuid = $1];
    refused when a count would leave the range of an INTEGER. *)
Definition count_view (uuid : N) (t : tables) (_ : Z)
  : option (unit * tables) :=
  if forallb (fun r => negb (rp_uuid r =? uuid)%N
                       || (rp_views_count r + 1 <? 2 ^ 31)%Z)
       (reports t)
  then
    Some (tt,
          set_reports
            (map (fun r => if (rp_uuid r =? uuid)%N
                           then with_views (rp_views_count r + 1) r
                           else r)
               (reports t)) t)
  else None.

(** [SELECT ... FROM reports r LEFT JOIN users u ON r.user_id = u.id
     WHERE r.uuid = $1] *)
Definition select_report (uuid : N) (t : tables) (_ : Z)
  : option (list (report_row * option user) * tables) :=
  Some (flat_map (join_reporter (users t))
          (filter (fun r => (rp_uuid r =? uuid)%N) (reports t)), t).

(** The values the CHECK on [status] admits, which are also those the
    validator of the status route admits. *)
Definition statuses : list JSString.t :=
  map JSString.lit ["pending"; "reviewing"; "confirmed"; "resolved";
                    "rejected"]%string.

Definition with_status (status : JSString.t) (time : Z) (r : report_row)
  : report_row :=
  {| rp_uuid := rp_uuid r; rp_user_id := rp_user_id r;
     rp_incident_type := rp_incident_type r;
     rp_description := rp_description r;
     rp_latitude := rp_latitude r; rp_longitude := rp_longitude r;
     rp_address := rp_address r; rp_severity := rp_severity r;
     rp_status := status; rp_image_url := rp_image_url r;
     rp_is_anonymous := rp_is_anonymous r;
     rp_views_count := rp_views_count r;
     rp_created_at := rp_created_at r; rp_updated_at := time |}.

(** [UPDATE reports SET status = $1, updated_at = CURRENT_TIMESTAMP
     WHERE uuid = $2 RETURNING uuid, status, updated_at]; the CHECK
    refuses a status that is none of the five, if a row is to get it. *)
Definition update_status (status : JSString.t) (uuid : N)
  (t : tables) (time : Z) : option (list report_row * tables) :=
  let hit := filter (fun r => (rp_uuid r =? uuid)%N) (reports t) in
  if existsb (JSNumber.eqb status) statuses
     || match hit with [] => true | _ :: _ => false end
  then
    Some (map (with_status status time) hit,
          set_reports
            (map (fun r => if (rp_uuid r =? uuid)%N
                           then with_status status time r else r)
               (reports t)) t)
  else None.

End SQL.

(** ** The middleware of authentication

    A middleware either answers the request itself or calls [next()],
    here with the user it has put in [req.user]. *)

Inductive passed (D U : Type) : Type :=
| Answered (r : response D)
| Next (u : U).

Arguments Answered {D U} r.
Arguments Next {D U} u.

Definition unauthorized {D} (message : string) : response D :=
  {| status := 401; json := Failure message |}.

(** [authHeader.split(' ')[1]] for a header that starts with
    ['Bearer ']: what stands between the first space and the next. *)
Fixpoint upto_space (s : JSString.t) : JSString.t :=
  match s with
  | [] => []
  | u :: s' => if (u =? 32)%N then [] else u :: upto_space s'
  end.

Definition bearer_token (authHeader : JSString.t) : JSString.t :=
  upto_space (skipn 7 authHeader).

(** [verifyToken] *)
Definition verifyToken {D} (authorization : option JSString.t)
  : act (passed D user) :=
  try_catch
    (match authorization with
     | Some authHeader =>
         if JSNumber.truthy authorization
            && JSString.startsWith authHeader (JSString.lit "Bearer ")
         then
           let token := bearer_token authHeader in
           decoded <- jwt_verify token ;;
           result <- query (SQL.select_user decoded) ;;
           match result with
           | [] => ret (Answered (unauthorized "Usuario no encontrado"))
           | user :: _ =>
               if negb (u_is_active user)
               then ret (Answered (unauthorized "Cuenta desactivada"))
               else ret (Next user)
           end
         else ret (Answered (unauthorized "Token de acceso requerido"))
     | None => ret (Answered (unauthorized "Token de acceso requerido"))
     end)
    (fun error =>
       match error with
       | TokenExpiredError => ret (Answered (unauthorized "Token expirado"))
       | JsonWebTokenError => ret (Answered (unauthorized "Token inválido"))
       | _ =>
           console_error "Error en autenticación:" ;;;
           ret (Answered {| status := 500;
                            json := Failure "Error de autenticación" |})
       end).

(** [optionalAuth]: it always calls [next()], with a user or without. *)
Definition optionalAuth (authorization : option JSString.t)
  : act (option user) :=
  try_catch
    (match authorization with
     | Some authHeader =>
         if JSNumber.truthy authorization
            && JSString.startsWith authHeader (JSString.lit "Bearer ")
         then
           let token := bearer_token authHeader in
           decoded <- jwt_verify token ;;
           result <- query (SQL.select_active_user decoded) ;;
           match result with
           | user :: _ => ret (Some user)
           | [] => ret None
           end
         else ret None
     | None => ret None
     end)
    (fun error => ret None).

Definition forbidden {D} (message : string) : response D :=
  {| status := 403; json := Failure message |}.

(** [isAuthority] *)
Definition isAuthority {D} (req_user : user) : passed D user :=
  if negb (JSNumber.eqb (u_user_type req_user) (JSString.lit "authority"))
     && negb (JSNumber.eqb (u_user_type req_user) (JSString.lit "admin"))
  then Answered
         (forbidden "Acceso denegado. Se requiere rol de autoridad")
  else Next req_user.

(** [isAdmin] *)
Definition isAdmin {D} (req_user : user) : passed D user :=
  if negb (JSNumber.eqb (u_user_type req_user) (JSString.lit "admin"))
  then Answered
         (forbidden "Acceso denegado. Se requiere rol de administrador")
  else Next req_user.

(** A route behind [verifyToken]. *)
Definition behind_token {D} (authorization : option JSString.t)
  (handler : user -> act (response D)) : act (response D) :=
  p <- verifyToken authorization ;;
  match p with
  | Answered r => ret r
  | Next req_user => handler req_user
  end.

(** ** [GET /api/routes] *)

Record list_request : Type := {
  l_limit : option JSString.t;          (* default 20 *)
  l_offset : option JSString.t;         (* default 0 *)
  l_favoritesOnly : option JSString.t   (* default false *)
}.

(** A saved route as the list shows it. *)
Record route_item : Type := {
  ri_uuid : N;
  ri_name : option JSString.t;
  ri_origin : place;
  ri_destination : place;
  ri_waypoints : option JSString.t;
  ri_safetyScore : Z;
  ri_distanceKm : option R;             (* [parseFloat(null)] is [NaN] *)
  ri_estimatedTimeMin : option Z;
  ri_isFavorite : option bool;
  ri_createdAt : Z
}.

Definition route_item_of (r : safe_route) : route_item :=
  {| ri_uuid := sr_uuid r;
     ri_name := sr_name r;
     ri_origin := {| p_latitude := origin_lat r;
                     p_longitude := origin_lng r;
                     p_address := origin_address r |};
     ri_destination := {| p_latitude := destination_lat r;
                          p_longitude := destination_lng r;
                          p_address := destination_address r |};
     ri_waypoints := waypoints r;
     ri_safetyScore := safety_score r;
     ri_distanceKm := distance_km r;
     ri_estimatedTimeMin := estimated_time_min r;
     ri_isFavorite := is_favorite r;
     ri_createdAt := created_at r |}.

Definition list_routes (req : list_request) (req_user : user)
  : act (response (list route_item)) :=
  try_catch
    (let favoritesOnly :=
       match l_favoritesOnly req with
       | Some s => JSNumber.eqb s (JSString.lit "true")
       | None => false
       end in
     result <- query
                 (SQL.select_routes (u_id req_user) favoritesOnly
                    (JSNumber.parseInt_or 20 (l_limit req))
                    (JSNumber.parseInt_or 0 (l_offset req))) ;;
     ret {| status := 200; json := Success None (map route_item_of result) |})
    (fun error =>
       console_error "Error al obtener rutas:" ;;;
       ret {| status := 500; json := Failure "Error al obtener rutas" |}).

(** ** [POST /api/routes] *)

Record save_request : Type := {
  s_errors : list string;               (* validationResult(req) *)
  s_name : option JSString.t;
  s_originLat : R;
  s_originLng : R;
  s_originAddress : option JSString.t;
  s_destinationLat : R;
  s_destinationLng : R;
  s_destinationAddress : option JSString.t;
  s_waypoints : option JSString.t;      (* JSON.stringify(waypoints) *)
  s_safetyScore : option Z;
  s_distanceKm : option R;
  s_estimatedTimeMin : option Z;
  s_isFavorite : option (option bool)   (* absent, or given (null or a boolean) *)
}.

(** [x || null] and [x || 0] for a number: 0 is falsy. *)
Definition nonzero_or_null (x : option Z) : option Z :=
  match x with
  | Some 0%Z => None
  | _ => x
  end.

Definition nonzero_or_null_R (x : option R) : option R :=
  match x with
  | Some r => if Req_dec_T r 0 then None else Some r
  | None => None
  end.

(** [RETURNING uuid, name, safety_score, is_favorite, created_at] *)
Record saved_route : Type := {
  sv_uuid : N;
  sv_name : option JSString.t;
  sv_safety_score : Z;
  sv_is_favorite : option bool;
  sv_created_at : Z
}.

Definition saved_route_of (r : safe_route) : saved_route :=
  {| sv_uuid := sr_uuid r; sv_name := sr_name r;
     sv_safety_score := safety_score r;
     sv_is_favorite := is_favorite r;
     sv_created_at := created_at r |}.

Definition save_route (req : save_request) (req_user : user)
  : act (response (option saved_route)) :=
  try_catch
    (match s_errors req with
     | _ :: _ =>
         ret {| status := 400; json := ValidationErrors (s_errors req) |}
     | [] =>
         let isFavorite :=
           match s_isFavorite req with
           | Some given => given
           | None => Some false
           end in
         routeUuid <- uuidv4 ;;
         result <- query
                     (SQL.insert_route
                        {| sr_id := 0; sr_uuid := routeUuid;
                           sr_user_id := u_id req_user;
                           sr_name := or_null (s_name req);
                           origin_lat := s_originLat req;
                           origin_lng := s_originLng req;
                           origin_address := or_null (s_originAddress req);
                           destination_lat := s_destinationLat req;
                           destination_lng := s_destinationLng req;
                           destination_address :=
                             or_null (s_destinationAddress req);
                           waypoints := s_waypoints req;
                           safety_score :=
                             match s_safetyScore req with
                             | Some n => n
                             | None => 0
                             end;
                           distance_km := nonzero_or_null_R (s_distanceKm req);
                           estimated_time_min :=
                             nonzero_or_null (s_estimatedTimeMin req);
                           is_favorite := isFavorite;
                           created_at := 0 |}) ;;
         ret {| status := 201;
                json := Success (Some "Ruta guardada exitosamente"%string)
                          (hd_error (map saved_route_of result)) |}
     end)
    (fun error =>
       console_error "Error al guardar ruta:" ;;;
       ret {| status := 500; json := Failure "Error al guardar ruta" |}).

(** ** [PUT /api/routes/:uuid/favorite] *)

(** The data is [RETURNING uuid, is_favorite] of the first row. *)
Definition set_favorite (uuid : N) (isFavorite : option bool)
  (req_user : user) : act (response (N * option bool)) :=
  try_catch
    (result <- query (SQL.update_favorite isFavorite uuid (u_id req_user)) ;;
     match result with
     | [] => ret {| status := 404; json := Failure "Ruta no encontrada" |}
     | row :: _ =>
         ret {| status := 200;
                json := Success
                          (Some (match isFavorite with
                                 | Some true => "Ruta marcada como favorita"
                                 | _ => "Ruta desmarcada de favoritos"
                                 end)%string)
                          (sr_uuid row, is_favorite row) |}
     end)
    (fun error =>
       console_error "Error al actualizar favorito:" ;;;
       ret {| status := 500; json := Failure "Error al actualizar favorito" |}).

(** ** [DELETE /api/routes/:uuid] *)

Definition delete_route (uuid : N) (req_user : user) : act (response unit) :=
  try_catch
    (result <- query (SQL.delete_route uuid (u_id req_user)) ;;
     match result with
     | [] => ret {| status := 404; json := Failure "Ruta no encontrada" |}
     | _ :: _ =>
         ret {| status := 200;
                json := Success (Some "Ruta eliminada"%string) tt |}
     end)
    (fun error =>
       console_error "Error al eliminar ruta:" ;;;
       ret {| status := 500; json := Failure "Error al eliminar ruta" |}).

(** ** [GET /api/reports] *)

Record reports_request : Type := {
  g_limit : option JSString.t;          (* default 20 *)
  g_offset : option JSString.t;         (* default 0 *)
  g_status : option JSString.t;
  g_incidentType : option JSString.t;
  g_severity : option JSString.t;
  g_lat : option R;                     (* absent or empty: [None] *)
  g_lng : option R;
  g_radius : option R                   (* default 5 *)
}.

(** A filter of the query string is applied when it is truthy. *)
Definition given (x : option JSString.t) : option JSString.t :=
  if JSNumber.truthy x then x else None.

(** A report as the list shows it. *)
Record report_item : Type := {
  i_uuid : N;
  i_incidentType : JSString.t;
  i_description : option JSString.t;
  i_location : place;
  i_severity : option JSString.t;
  i_status : JSString.t;
  i_imageUrl : option JSString.t;
  i_isAnonymous : option bool;
  i_reporterName : option JSString.t;
  i_viewsCount : Z;
  i_createdAt : Z
}.

Definition report_item_of (j : report_row * option user) : report_item :=
  let r := fst j in
  {| i_uuid := rp_uuid r;
     i_incidentType := rp_incident_type r;
     i_description := rp_description r;
     i_location := {| p_latitude := rp_latitude r;
                      p_longitude := rp_longitude r;
                      p_address := rp_address r |};
     i_severity := rp_severity r;
     i_status := rp_status r;
     i_imageUrl := rp_image_url r;
     i_isAnonymous := rp_is_anonymous r;
     i_reporterName := SQL.reporter_name j;
     i_viewsCount := rp_views_count r;
     i_createdAt := rp_created_at r |}.

Definition get_reports (req : reports_request)
  : act (response (list report_item)) :=
  try_catch
    (let near :=
       match g_lat req, g_lng req with
       | Some lat, Some lng =>
           Some (lat, lng,
                 match g_radius req with Some r => r | None => 5%R end)
       | _, _ => None
       end in
     result <- query
                 (SQL.select_reports (given (g_status req))
                    (given (g_incidentType req)) (given (g_severity req))
                    near
                    (JSNumber.parseInt_or 20 (g_limit req))
                    (JSNumber.parseInt_or 0 (g_offset req))) ;;
     ret {| status := 200;
            json := Success None (map report_item_of result) |})
    (fun error =>
       console_error "Error al obtener reportes:" ;;;
       ret {| status := 500; json := Failure "Error al obtener reportes" |}).

(** The route with its middleware: [optionalAuth] runs first, and the
    handler does not look at the user it may have found. *)
Definition get_reports_route (authorization : option JSString.t)
  (req : reports_request) : act (response (list report_item)) :=
  optionalAuth authorization ;;; get_reports req.

(** ** [GET /api/reports/:uuid] *)

(** A report as its own page shows it. *)
Record report_detail : Type := {
  d_item : report_item;
  d_reporterUuid : option N;
  d_updatedAt : Z
}.

Definition get_report (uuid : N) : act (response report_detail) :=
  try_catch
    (query (SQL.count_view uuid) ;;;
     result <- query (SQL.select_report uuid) ;;
     match result with
     | [] => ret {| status := 404; json := Failure "Reporte no encontrado" |}
     | r :: _ =>
         ret {| status := 200;
                json := Success None
                          {| d_item := report_item_of r;
                             d_reporterUuid := SQL.reporter_uuid r;
                             d_updatedAt := rp_updated_at (fst r) |} |}
     end)
    (fun error =>
       console_error "Error al obtener reporte:" ;;;
       ret {| status := 500; json := Failure "Error al obtener reporte" |}).

Definition get_report_route (authorization : option JSString.t) (uuid : N)
  : act (response report_detail) :=
  optionalAuth authorization ;;; get_report uuid.

(** ** [PUT /api/reports/:uuid/status] *)

(** [body('status').isIn([...]).withMessage('Estado inválido')]: what
    [validationResult] holds for the status sent (a missing one counts as
    the empty string). *)
Definition status_errors (status : option JSString.t) : list string :=
  let sent := match status with Some s => s | None => [] end in
  if existsb (JSNumber.eqb sent) SQL.statuses then []
  else ["Estado inválido"%string].

(** The data is [RETURNING uuid, status, updated_at] of the first row. *)
Definition put_status (uuid : N) (status : option JSString.t)
  : act (response (N * JSString.t * Z)) :=
  try_catch
    (match status_errors status with
     | _ :: _ =>
         ret {| status := 400;
                json := ValidationErrors (status_errors status) |}
     | [] =>
         result <- query
                     (SQL.update_status
                        (match status with Some s => s | None => [] end)
                        uuid) ;;
         match result with
         | [] =>
             ret {| status := 404; json := Failure "Reporte no encontrado" |}
         | row :: _ =>
             ret {| status := 200;
                    json := Success
                              (Some "Estado del reporte actualizado"%string)
                              (rp_uuid row, rp_status row, rp_updated_at row)
                 |}
         end
     end)
    (fun error =>
       console_error "Error al actualizar estado:" ;;;
       ret {| status := 500; json := Failure "Error al actualizar estado" |}).

(** The route with its middleware: [verifyToken], [isAuthority], then
    the handler. *)
Definition put_status_route (authorization : option JSString.t) (uuid : N)
  (status : option JSString.t) : act (response (N * JSString.t * Z)) :=
  behind_token authorization
    (fun req_user =>
       match isAuthority req_user with
       | Answered r => ret r
       | Next _ => put_status uuid status
       end).

(** ** Routes with their middleware *)

Definition list_routes_route (authorization : option JSString.t)
  (req : list_request) : act (response (list route_item)) :=
  behind_token authorization (list_routes req).

Definition save_route_route (authorization : option JSString.t)
  (req : save_request) : act (response (option saved_route)) :=
  behind_token authorization (save_route req).

Definition set_favorite_route (authorization : option JSString.t)
  (uuid : N) (isFavorite : option bool)
  : act (response (N * option bool)) :=
  behind_token authorization (set_favorite uuid isFavorite).

Definition delete_route_route (authorization : option JSString.t)
  (uuid : N) : act (response unit) :=
  behind_token authorization (delete_route uuid).

(** ** Vocabulary of the statements about accounts, routes and reports *)

(** The store answers the next call, the next two calls. *)
Definition served (s : env) : Prop := hd false (fails s) = false.

Definition served_twice (s : env) : Prop :=
  hd false (fails s) = false /\ hd false (tl (fails s)) = false.

(** The rows of [users] with a given [uuid]. *)
Definition users_named (decoded : option N) (t : tables) : list user :=
  match decoded with
  | Some x => filter (fun r => (u_uuid r =? x)%N) (users t)
  | None => []
  end.

(** The header carries a token that [jwt.verify] accepts, with this
    payload. *)
Definition bears (authorization : option JSString.t) (decoded : option N)
  (s : env) : Prop :=
  exists authHeader,
    authorization = Some authHeader
    /\ JSString.startsWith authHeader (JSString.lit "Bearer ") = true
    /\ jwt s (bearer_token authHeader) = Done decoded.

(** The request carries a token for this user: [jwt.verify] accepts it,
    the store answers, and the first user with the [uuid] of the payload
    is this one and is active. *)
Definition admits (authorization : option JSString.t) (s : env) (u : user)
  : Prop :=
  exists decoded,
    bears authorization decoded s
    /\ served s
    /\ hd_error (users_named decoded (tbl s)) = Some u
    /\ u_is_active u = true.

(** The header carries nothing to verify. *)
Definition no_bearer (authorization : option JSString.t) : Prop :=
  match authorization with
  | Some authHeader =>
      JSString.startsWith authHeader (JSString.lit "Bearer ") = false
  | None => True
  end.

Definition is_role (role : string) (u : user) : Prop :=
  u_user_type u = JSString.lit role.

(** The routes of the others. *)
Definition routes_of_others (user_id : Z) (t : tables) : list safe_route :=
  filter (fun r => negb (sr_user_id r =? user_id)%Z) (safe_routes t).

(** All that a request with this header may have changed from [s] to
    [s']: nothing, or rows of [safe_routes] that belong to the user the
    token is for. *)
Definition only_own_routes (authorization : option JSString.t)
  (s s' : env) : Prop :=
  tbl s' = tbl s
  \/ exists u,
       admits authorization s u
       /\ routes_of_others (u_id u) (tbl s') = routes_of_others (u_id u) (tbl s)
       /\ users (tbl s') = users (tbl s)
       /\ reports (tbl s') = reports (tbl s).

(** Newest first. *)
Definition newest_first {A} (created : A -> Z) (rows : list A) : Prop :=
  StronglySorted (fun a b => (created b <= created a)%Z) rows.

(** The table takes a row under the next id: see [SQL.admitted]. *)
Definition insertable (r : safe_route) (t : tables) : Prop :=
  (0 <= safety_score r <= 100)%Z
  /\ (exists v, In v (users t) /\ u_id v = sr_user_id r)
  /\ ~ In (sr_uuid r) (map sr_uuid (safe_routes t))
  /\ ~ In (safe_routes_id_seq t) (map sr_id (safe_routes t))
  /\ (forall x, sr_name r = Some x -> (Rows.chars x <= 255)%Z)
  /\ (forall n, estimated_time_min r = Some n -> (- 2 ^ 31 <= n < 2 ^ 31)%Z).

(** The views of the reports with this uuid can be counted up. *)
Definition countable (uuid : N) (t : tables) : Prop :=
  Forall (fun r => rp_uuid r = uuid -> (rp_views_count r + 1 < 2 ^ 31)%Z)
    (reports t).

(** The row [POST /api/routes] stores for a request. *)
Definition route_saved (req : save_request) (req_user : user) (s : env)
  : safe_route :=
  {| sr_id := safe_routes_id_seq (tbl s);
     sr_uuid := uuids s;
     sr_user_id := u_id req_user;
     sr_name := or_null (s_name req);
     origin_lat := s_originLat req;
     origin_lng := s_originLng req;
     origin_address := or_null (s_originAddress req);
     destination_lat := s_destinationLat req;
     destination_lng := s_destinationLng req;
     destination_address := or_null (s_destinationAddress req);
     waypoints := s_waypoints req;
     safety_score := match s_safetyScore req with Some n => n | None => 0 end;
     distance_km := nonzero_or_null_R (s_distanceKm req);
     estimated_time_min := nonzero_or_null (s_estimatedTimeMin req);
     is_favorite := match s_isFavorite req with
                    | Some given => given
                    | None => Some false
                    end;
     created_at := now s |}.

(** The request for the list with no parameter sent. *)
Definition plain_list : list_request :=
  {| l_limit := None; l_offset := None; l_favoritesOnly := None |}.

(** A request to save a route between two points with a score. *)
Definition save_request_scored (score : Z) : save_request :=
  {| s_errors := []; s_name := None;
     s_originLat := -12; s_originLng := -77; s_originAddress := None;
     s_destinationLat := -12; s_destinationLng := -77;
     s_destinationAddress := None;
     s_waypoints := None; s_safetyScore := Some score;
     s_distanceKm := Some 0%R; s_estimatedTimeMin := Some 0%Z;
     s_isFavorite := None |}.

(** What an item may tell about who reported: nothing of an anonymous
    report, and else only the name of a user whose id the report of
    that uuid carries. *)
Definition reporter_shown (t : tables) (i : report_item) : Prop :=
  (i_isAnonymous i = Some true -> i_reporterName i = None)
  /\ forall name,
       i_reporterName i = Some name ->
       exists r u,
         In r (reports t) /\ In u (users t)
         /\ rp_uuid r = i_uuid i
         /\ rp_is_anonymous r <> Some true
         /\ rp_user_id r = Some (u_id u)
         /\ u_full_name u = name.

(** The filters of a request for the list, as an item meets them. *)
Definition meets (req : reports_request) (i : report_item) : Prop :=
  (forall x, g_status req = Some x -> x <> [] -> i_status i = x)
  /\ (forall x, g_incidentType req = Some x -> x <> [] ->
                i_incidentType i = x)
  /\ (forall x, g_severity req = Some x -> x <> [] ->
                i_severity i = Some x)
  /\ (forall lat lng,
        g_lat req = Some lat -> g_lng req = Some lng ->
        Geo.within (match g_radius req with Some r => r | None => 5%R end)
          lat lng (p_latitude (i_location i)) (p_longitude (i_location i))
        = true).

(** The request for the list of reports with no parameter sent. *)
Definition plain_reports : reports_request :=
  {| g_limit := None; g_offset := None; g_status := None;
     g_incidentType := None; g_severity := None;
     g_lat := None; g_lng := None; g_radius := None |}.

(** A report seen once more. *)
Definition viewed (uuid : N) (r : report_row) : report_row :=
  if (rp_uuid r =? uuid)%N then SQL.with_views (rp_views_count r + 1) r
  else r.

(** ** Sample data *)

Definition sample_user (n : Z) (name role : string) (active : bool) : user :=
  {| u_id := n; u_uuid := Z.to_N (n + 10);
     u_email := JSString.lit name ++ JSString.lit "@example.org";
     u_full_name := JSString.lit name;
     u_user_type := JSString.lit role;
     u_is_active := active |}.

Definition ana : user := sample_user 1 "ana" "citizen" true.
Definition luis : user := sample_user 2 "luis" "authority" true.
Definition eva : user := sample_user 3 "eva" "citizen" false.
Definition rosa : user := sample_user 4 "rosa" "admin" true.

Definition sample_route (n owner created : Z) (favorite : bool)
  : safe_route :=
  {| sr_id := n; sr_uuid := Z.to_N (n + 100); sr_user_id := owner;
     sr_name := None;
     origin_lat := -12; origin_lng := -77; origin_address := None;
     destination_lat := -12; destination_lng := -77;
     destination_address := None;
     waypoints := None; safety_score := 80; distance_km := None;
     estimated_time_min := None;
     is_favorite := Some favorite; created_at := created |}.

Definition sample_report (n : N) (owner : option Z) (label state : string)
  (anonymous : bool) (created : Z) : report_row :=
  {| rp_uuid := n; rp_user_id := owner;
     rp_incident_type := JSString.lit label;
     rp_description := None;
     rp_latitude := -12; rp_longitude := -77; rp_address := None;
     rp_severity := Some (JSString.lit "medium");
     rp_status := JSString.lit state;
     rp_image_url := None;
     rp_is_anonymous := Some anonymous;
     rp_views_count := 0;
     rp_created_at := created; rp_updated_at := created |}.

Definition sample_tables : tables :=
  {| users := [ana; luis; eva; rosa];
     safe_routes := [sample_route 1 1 10 false; sample_route 2 2 20 false;
                     sample_route 3 1 30 true];
     safe_routes_id_seq := 4;
     reports := [sample_report 201 (Some 1%Z) "Robo" "pending" false 40;
                 sample_report 202 (Some 1%Z) "Accidente" "pending" true 50;
                 sample_report 203 None "Robo" "confirmed" false 60] |}.

(** A [jwt.verify] that knows four tokens by name, one that has expired,
    and takes every other for forged. *)
Definition sample_jwt (token : JSString.t) : result (option N) :=
  if JSNumber.eqb token (JSString.lit "ana") then Done (Some 11%N)
  else if JSNumber.eqb token (JSString.lit "luis") then Done (Some 12%N)
  else if JSNumber.eqb token (JSString.lit "eva") then Done (Some 13%N)
  else if JSNumber.eqb token (JSString.lit "rosa") then Done (Some 14%N)
  else if JSNumber.eqb token (JSString.lit "old") then Raised TokenExpiredError
  else Raised JsonWebTokenError.

Definition sample_env : env :=
  {| tbl := sample_tables; fails := []; uuids := 500; now := 100;
     errlog := []; jwt := sample_jwt |}.

Definition bearer (token : string) : option JSString.t :=
  Some (JSString.lit "Bearer " ++ JSString.lit token).

End Site.


(* ================================================================= *)
(** * The heat map

    The handlers of the heat-map router that list zones. They read the
    [heat_zones] table of the first world. The zones of this model carry
    no timestamps, so [lastIncidentAt] is not among the fields listed. *)

Module Heatmap.

(** [pool.query] and [query] for a statement the server may refuse
    ([None]): a parameter that is no number or out of range. *)
Definition pool_query_checked {A} (stmt : database -> option (A * database))
  : action A :=
  fun w =>
    let w' := set_failures (tl (failures w)) w in
    if hd false (failures w) then (Throw StoreError, w')
    else
      match stmt (db w) with
      | Some (rows, d) => (Return rows, set_db d w')
      | None => (Throw StoreError, w')
      end.

Definition query_checked {A} (stmt : database -> option (A * database))
  : action A :=
  try_catch (pool_query_checked stmt)
    (fun error => console_error "Error en query:" ;;; throw error).

(** The text a [zone_type] is stored as. *)
Definition zone_name (k : zone_kind) : JSString.t :=
  JSString.lit
    match k with
    | crime => "crime"
    | accident => "accident"
    | congestion => "congestion"
    | danger => "danger"
    end.

(** [AND zone_type = $n], added when [zoneType] is truthy. *)
Definition of_type (zoneType : option JSString.t) (z : heat_zone) : bool :=
  match zoneType with
  | Some (u :: s) => JSNumber.eqb (zone_name (zone_type z)) (u :: s)
  | _ => true
  end.

(** [AND (distance) <= $n], added when [lat] and [lng] are there. *)
Definition nearby (near : option (R * R * R)) (z : heat_zone) : bool :=
  match near with
  | Some (lat, lng, radius) =>
      Geo.within radius lat lng (latitude z) (longitude z)
  | None => true
  end.

(** [SELECT ... FROM heat_zones WHERE intensity >= $1 (AND ...)
     ORDER BY intensity DESC] *)
Definition select_heatmap (minIntensity : option Z)
  (zoneType : option JSString.t) (near : option (R * R * R)) (d : database)
  : option (list heat_zone * database) :=
  match Rows.int4 minIntensity with
  | Some m =>
      Some (Rows.order_by_desc (fun z => (intensity z, 0%Z))
              (filter (fun z => (m <=? intensity z)%Z
                                && of_type zoneType z && nearby near z)
                 (heat_zones d)), d)
  | None => None
  end.

(** [SELECT ... FROM heat_zones WHERE intensity >= 7 (AND ...)
     ORDER BY intensity DESC, incident_count DESC LIMIT $1] *)
Definition select_high_risk (limit : option Z) (near : option (R * R * R))
  (d : database) : option (list heat_zone * database) :=
  match
    Rows.limit_offset limit (Some 0%Z)
      (Rows.order_by_desc (fun z => (intensity z, incident_count z))
         (filter (fun z => (7 <=? intensity z)%Z && nearby near z)
            (heat_zones d)))
  with
  | Some rows => Some (rows, d)
  | None => None
  end.

Record heatmap_request : Type := {
  h_zoneType : option JSString.t;
  h_lat : option R;                     (* absent or empty: [None] *)
  h_lng : option R;
  h_radius : option R;
  h_minIntensity : option JSString.t;   (* default 1 *)
  h_limit : option JSString.t           (* default 10 *)
}.

(** The location filter of a request, with the radius the handler takes
    when none is sent. *)
Definition near_of (default : R) (req : heatmap_request)
  : option (R * R * R) :=
  match h_lat req, h_lng req with
  | Some lat, Some lng =>
      Some (lat, lng, match h_radius req with Some r => r | None => default end)
  | _, _ => None
  end.

(** A zone as the map shows it. *)
Record zone_item : Type := {
  z_uuid : N;
  z_latitude : R;
  z_longitude : R;
  z_intensity : Z;
  z_type : zone_kind;
  z_incidentCount : Z
}.

Definition zone_item_of (z : heat_zone) : zone_item :=
  {| z_uuid := uuid z; z_latitude := latitude z; z_longitude := longitude z;
     z_intensity := intensity z; z_type := zone_type z;
     z_incidentCount := incident_count z |}.

(** [GET /api/heatmap] *)
Definition get_heatmap (req : heatmap_request)
  : action (response (list zone_item)) :=
  try_catch
    (result <- query_checked
                 (select_heatmap (JSNumber.parseInt_or 1 (h_minIntensity req))
                    (h_zoneType req) (near_of 20 req)) ;;
     ret {| status := 200; json := Success None (map zone_item_of result) |})
    (fun error =>
       console_error "Error al obtener datos de mapa de calor:" ;;;
       ret {| status := 500;
              json := Failure "Error al obtener datos de mapa de calor" |}).

(** [GET /api/heatmap/high-risk] *)
Definition get_high_risk (req : heatmap_request)
  : action (response (list zone_item)) :=
  try_catch
    (result <- query_checked
                 (select_high_risk (JSNumber.parseInt_or 10 (h_limit req))
                    (near_of 50 req)) ;;
     ret {| status := 200; json := Success None (map zone_item_of result) |})
    (fun error =>
       console_error "Error al obtener zonas de alto riesgo:" ;;;
       ret {| status := 500;
              json := Failure "Error al obtener zonas de alto riesgo" |}).

(** The request for the map with no parameter sent, and one that asks
    for a type. *)
Definition plain_map : heatmap_request :=
  {| h_zoneType := None; h_lat := None; h_lng := None; h_radius := None;
     h_minIntensity := None; h_limit := None |}.

Definition map_of_type (zoneType : string) : heatmap_request :=
  {| h_zoneType := Some (JSString.lit zoneType);
     h_lat := None; h_lng := None; h_radius := None;
     h_minIntensity := None; h_limit := None |}.

(** Most intense first. *)
Definition most_intense_first (zones : list heat_zone) : Prop :=
  StronglySorted (fun a b => (intensity b <= intensity a)%Z) zones.

(** Most intense first, and among equally intense zones the one with
    more incidents. *)
Definition riskier (a b : heat_zone) : Prop :=
  (intensity b < intensity a)%Z
  \/ (intensity b = intensity a /\ incident_count b <= incident_count a)%Z.

End Heatmap.

(* ================================================================= *)
(** * The trend of reports

    [GET /api/stats/reports-trend] groups the rows of its statement (one
    for each day and type of incident, with the number of reports) by
    day, in a loop over the rows. The loop is modelled on the rows it is
    given. A day stands for the key its [Date] is turned into, distinct
    days having distinct keys; a count is below 2^53, so that [parseInt]
    reads it exactly. *)

Module Trend.
Local Open Scope Z_scope.

Record row : Type := {
  date : Z;
  incident_type : JSString.t;
  count : Z
}.

(** A JS object with numbers for values: its own properties in the
    order they were created. (Properties whose names are array indices
    are listed first by JavaScript; the statements below read an object
    by name only.) *)
Definition object : Type := list (JSString.t * Z).

Fixpoint get (o : object) (name : JSString.t) : option Z :=
  match o with
  | [] => None
  | (k, v) :: o' => if JSNumber.eqb k name then Some v else get o' name
  end.

Fixpoint put (o : object) (name : JSString.t) (v : Z) : object :=
  match o with
  | [] => [(name, v)]
  | (k, x) :: o' =>
      if JSNumber.eqb k name then (k, v) :: o' else (k, x) :: put o' name v
  end.

(** [o[name] = v] for a number [v]: the name [__proto__] is no property
    but the prototype, which a number cannot be: nothing is stored. *)
Definition assign (o : object) (name : JSString.t) (v : Z) : object :=
  if JSNumber.eqb name (JSString.lit "__proto__") then o else put o name v.

Record entry : Type := {
  e_date : Z;
  e_total : Z;
  byType : object
}.

(** The body of the loop for a day that has its entry already: the
    first entry of that day is the one [trendData[row.date]] holds. *)
Fixpoint add_to (r : row) (trendData : list entry) : option (list entry) :=
  match trendData with
  | [] => None
  | e :: rest =>
      if e_date e =? date r
      then Some ({| e_date := e_date e;
                    e_total := e_total e + count r;
                    byType := assign (byType e) (incident_type r) (count r) |}
                 :: rest)
      else match add_to r rest with
           | Some rest' => Some (e :: rest')
           | None => None
           end
  end.

(** One round of the loop. *)
Definition step (trendData : list entry) (r : row) : list entry :=
  match add_to r trendData with
  | Some trendData' => trendData'
  | None =>
      trendData ++
      [{| e_date := date r;
          e_total := 0 + count r;
          byType := assign [] (incident_type r) (count r) |}]
  end.

(** [Object.values(trendData)] after the loop *)
Definition trend (rows : list row) : list entry := fold_left step rows [].

(** ** Vocabulary *)

Definition sum (l : list Z) : Z := fold_right Z.add 0 l.

(** The reports of a day among the rows. *)
Definition on_day (d : Z) (rows : list row) : list row :=
  filter (fun r => date r =? d) rows.

(** The days of the rows, each once, in the order in which they first
    appear. *)
Fixpoint days (rows : list row) : list Z :=
  match rows with
  | [] => []
  | r :: rows' =>
      date r :: filter (fun d => negb (d =? date r)) (days rows')
  end.

(** No day has two rows of one type: what [GROUP BY DATE(created_at),
    incident_type] gives. *)
Definition grouped (rows : list row) : Prop :=
  ForallOrdPairs
    (fun a b => date a = date b -> incident_type a <> incident_type b) rows.

(** The object the rows of a day make when each has a type of its own:
    a property for each row, but for the type [__proto__]. *)
Definition typed (rows : list row) : object :=
  map (fun r => (incident_type r, count r))
    (filter (fun r => negb (JSNumber.eqb (incident_type r)
                              (JSString.lit "__proto__")))
       rows).

Definition sample_rows : list row :=
  [{| date := 1; incident_type := JSString.lit "Robo"; count := 3 |};
   {| date := 1; incident_type := JSString.lit "Accidente"; count := 2 |};
   {| date := 2; incident_type := JSString.lit "Robo"; count := 5 |};
   {| date := 2; incident_type := JSString.lit "__proto__"; count := 1 |}].

End Trend.
(* ================================================================= *)
(** * Properties of the string functions *)

Module JSStringFacts.
Import JSString.

Lemma startsWith_app (search post : t) : startsWith (search ++ post) search = true.
Proof.
  induction search as [|x search IH]; simpl.
  - now destruct post.
  - now rewrite N.eqb_refl, IH.
Qed.

Lemma startsWith_inv (s search : t) :
  startsWith s search = true -> exists post, s = search ++ post.
Proof.
  revert s; induction search as [|x search IH]; intros s H.
  - now exists s.
  - destruct s as [|y s]; simpl in H; [discriminate|].
    apply andb_true_iff in H as [Hxy Hrest].
    apply N.eqb_eq in Hxy; subst y.
    destruct (IH _ Hrest) as [post ->].
    now exists post.
Qed.

(** [includes] finds exactly the contiguous occurrences. *)
Lemma includes_spec (s search : t) :
  includes s search = true <-> exists pre post, s = pre ++ search ++ post.
Proof.
  split.
  - induction s as [|y s IH]; intros H; cbn [includes] in H.
    + rewrite orb_false_r in H.
      destruct (startsWith_inv _ _ H) as [post Hp]. now exists [], post.
    + apply orb_true_iff in H as [H|H].
      * destruct (startsWith_inv _ _ H) as [post Hp]. now exists [], post.
      * destruct (IH H) as (pre & post & ->). now exists (y :: pre), post.
  - intros (pre & post & ->).
    induction pre as [|y pre IH].
    + cbn [app].
      assert (H : startsWith (search ++ post) search = true)
        by apply startsWith_app.
      destruct (search ++ post); cbn [includes]; now rewrite H.
    + cbn [app includes]. rewrite IH. apply orb_true_r.
Qed.

Lemma toLowerCase_app (a b : t) :
  toLowerCase (a ++ b) = toLowerCase a ++ toLowerCase b.
Proof. apply map_app. Qed.

End JSStringFacts.

Lemma mentions_includes (label : JSString.t) (keyword : string) :
  mentions label keyword
  <-> JSString.includes (JSString.toLowerCase label) (JSString.lit keyword)
      = true.
Proof.
  rewrite JSStringFacts.includes_spec. split.
  - intros (pre & word & post & -> & Hw).
    exists (JSString.toLowerCase pre), (JSString.toLowerCase post).
    now rewrite !JSStringFacts.toLowerCase_app, Hw.
  - intros (pre & post & H).
    unfold JSString.toLowerCase in H.
    apply map_eq_app in H as (l1 & l2 & -> & H1 & H2).
    apply map_eq_app in H2 as (l3 & l4 & -> & H3 & H4).
    now exists l1, l3, l4.
Qed.

(* ================================================================= *)
(** * Classification of incident labels *)

Ltac decide_mentions :=
  repeat match goal with
    | H : mentions _ _ |- _ => apply mentions_includes in H
    | H : ~ mentions _ _ |- _ =>
        rewrite mentions_includes in H; apply not_true_is_false in H
    | H : _ \/ _ |- _ => destruct H
    end.

(** C3. The zone type of a label is found by case-insensitive substring
    search in a fixed order, the first hit deciding: "accidente" gives
    accident; failing that, "robo" or "crimen" gives crime; failing that,
    "congestión" or "tráfico" gives congestion; any other label gives
    danger. *)
Theorem zoneType_priority (incidentType : JSString.t) :
  (mentions incidentType "accidente" -> zoneType incidentType = accident)
  /\ (~ mentions incidentType "accidente" ->
      mentions incidentType "robo" \/ mentions incidentType "crimen" ->
      zoneType incidentType = crime)
  /\ (~ mentions incidentType "accidente" ->
      ~ mentions incidentType "robo" ->
      ~ mentions incidentType "crimen" ->
      mentions incidentType "congestión" \/ mentions incidentType "tráfico" ->
      zoneType incidentType = congestion)
  /\ (~ mentions incidentType "accidente" ->
      ~ mentions incidentType "robo" ->
      ~ mentions incidentType "crimen" ->
      ~ mentions incidentType "congestión" ->
      ~ mentions incidentType "tráfico" ->
      zoneType incidentType = danger).
Proof.
  unfold zoneType; repeat split; intros; decide_mentions;
    repeat match goal with
      | H : JSString.includes _ _ = _ |- _ => rewrite H; clear H
      end; cbn [orb]; try reflexivity;
    now rewrite orb_true_r.
Qed.

Ltac absent :=
  rewrite mentions_includes; vm_compute; discriminate.

Ltac present pre word post :=
  exists (JSString.lit pre), (JSString.lit word), (JSString.lit post);
  split; vm_compute; reflexivity.

Lemma zoneType_priority_witness :
  zoneType (JSString.lit "Robo tras ACCIDENTE de tráfico") = accident
  /\ zoneType (JSString.lit "Crimen en la congestión") = crime
  /\ zoneType (JSString.lit "TRÁFICO lento") = congestion
  /\ zoneType (JSString.lit "Poste caído") = danger.
Proof.
  split; [|split; [|split]].
  - apply (proj1 (zoneType_priority _)).
    present "Robo tras "%string "ACCIDENTE"%string " de tráfico"%string.
  - apply (proj1 (proj2 (zoneType_priority _))); [absent|].
    right. present ""%string "Crimen"%string " en la congestión"%string.
  - apply (proj1 (proj2 (proj2 (zoneType_priority _)))); [absent..|].
    right. present ""%string "TRÁFICO"%string " lento"%string.
  - apply (proj2 (proj2 (proj2 (zoneType_priority _)))); absent.
Defined.

(** The labels of the specification's examples. *)
Example zoneType_examples :
  zoneType (JSString.lit "Accidente de tránsito") = accident
  /\ zoneType (JSString.lit "Robo a mano armada") = crime
  /\ zoneType (JSString.lit "Congestión vehicular") = congestion
  /\ zoneType (JSString.lit "Poste caído") = danger.
Proof. repeat split; vm_compute; reflexivity. Qed.

(* ================================================================= *)
(** * The safety score *)

Lemma count_type_cons (k : zone_kind) (zone : heat_zone) (zones : list heat_zone) :
  count_type k (zone :: zones)
  = ((if zone_kind_eqb (zone_type zone) k then 1 else 0)
     + count_type k zones)%Z.
Proof.
  unfold count_type; cbn [filter].
  destruct (zone_kind_eqb (zone_type zone) k); cbn [List.length]; lia.
Qed.

Lemma stats_fold (rows : list heat_zone) (t : tally) :
  fold_left stats_step rows t
  = {| t_safetyScore := t_safetyScore t - 2 * total_intensity rows;
       t_crimeZones := t_crimeZones t + count_type crime rows;
       t_accidentZones := t_accidentZones t + count_type accident rows |}%Z.
Proof.
  revert t; induction rows as [|zone rows IH]; intros t.
  - destruct t; cbn. f_equal; lia.
  - cbn [fold_left]. rewrite IH, !count_type_cons.
    unfold stats_step; cbn [t_safetyScore t_crimeZones t_accidentZones
                              total_intensity fold_right].
    fold (total_intensity rows).
    destruct (zone_type zone); cbn [zone_kind_eqb]; f_equal; lia.
Qed.

Lemma route_fold (rows : list heat_zone) (safetyScore : Z) :
  fold_left (fun safetyScore zone => safetyScore - intensity zone * 2)%Z
    rows safetyScore
  = (safetyScore - 2 * total_intensity rows)%Z.
Proof.
  revert safetyScore; induction rows as [|zone rows IH]; intros s;
    cbn [fold_left total_intensity fold_right].
  - lia.
  - rewrite IH. fold (total_intensity rows). lia.
Qed.

Lemma clampScore_clamp (s : Z) : clampScore s = clamp s 0 100.
Proof.
  unfold clampScore, clamp.
  destruct (Z.ltb_spec s 0), (Z.ltb_spec 100 s); lia.
Qed.

Lemma total_intensity_app (xs ys : list heat_zone) :
  total_intensity (xs ++ ys) = (total_intensity xs + total_intensity ys)%Z.
Proof.
  induction xs as [|x xs IH]; [reflexivity|].
  cbn [app total_intensity fold_right].
  fold (total_intensity (xs ++ ys)); fold (total_intensity xs). lia.
Qed.

Lemma total_intensity_perm (xs ys : list heat_zone) :
  Permutation xs ys -> total_intensity xs = total_intensity ys.
Proof.
  induction 1 as [|x xs ys _ IH|x y xs|xs ys zs _ IH1 _ IH2].
  - reflexivity.
  - change (intensity x + total_intensity xs
            = intensity x + total_intensity ys)%Z. lia.
  - change (intensity y + (intensity x + total_intensity xs)
            = intensity x + (intensity y + total_intensity xs))%Z. lia.
  - congruence.
Qed.

(* ================================================================= *)
(** * Running the handlers *)

Lemma answers_S (n : nat) (w : world) :
  answers (S n) w
  <-> hd false (failures w) = false
      /\ answers n (set_failures (tl (failures w)) w).
Proof.
  unfold answers. destruct w as [d [|f fs] u c]; cbn.
  - rewrite firstn_nil. intuition constructor.
  - split.
    + intros H; inversion H; subst; auto.
    + intros [-> H]; now constructor.
Qed.

(** A call of [query] the store answers runs its statement. *)
Lemma query_ok {A} (stmt : database -> A * database) (w : world) :
  hd false (failures w) = false ->
  query stmt w
  = (Return (fst (stmt (db w))),
     set_db (snd (stmt (db w))) (set_failures (tl (failures w)) w)).
Proof.
  intros H. unfold query, try_catch, pool_query. rewrite H.
  now destruct (stmt (db w)).
Qed.

(** A call of [query] the store fails on logs and rethrows, tables
    untouched. *)
Lemma query_fail {A} (stmt : database -> A * database) (w : world) :
  hd false (failures w) = true ->
  query stmt w
  = (Throw StoreError,
     {| db := db w; failures := tl (failures w); uuid_seq := uuid_seq w;
        console := console w ++ ["Error en query:"%string] |}).
Proof.
  intros H. unfold query, try_catch, pool_query. now rewrite H.
Qed.

Lemma get_safety_score_ok (req : score_request) (w : world) (lat lng : R) :
  q_lat req = Some lat -> q_lng req = Some lng ->
  answers 2 w ->
  let radius := match q_radius req with Some r => r | None => 5%R end in
  let rows := fst (SQL.select_zones_within lat lng radius (db w)) in
  let score := clampScore (t_safetyScore (stats_tally rows)) in
  exists data w',
    get_safety_score req w
    = (Return {| status := 200; json := Success None data |}, w')
    /\ db w' = db w
    /\ s_safetyScore data = score
    /\ s_safetyLevel data = safetyLevel score
    /\ dangerZones (details data) = Z.of_nat (List.length rows)
    /\ crimeZones (details data) = t_crimeZones (stats_tally rows)
    /\ accidentZones (details data) = t_accidentZones (stats_tally rows)
    /\ helpPointsNearby (details data)
       = fst (SQL.count_help_points lat lng radius (db w)).
Proof.
  intros Hlat Hlng Hw radius rows score.
  apply answers_S in Hw as [H1 Hw]. apply answers_S in Hw as [H2 _].
  unfold get_safety_score, try_catch, bind. rewrite Hlat, Hlng.
  rewrite (query_ok _ _ H1). cbn [fst snd SQL.select_zones_within].
  rewrite query_ok by exact H2.
  do 2 eexists. split; [reflexivity|]. cbn. repeat split.
Qed.

Lemma calculate_route_ok (req : route_request) (w : world) :
  v_errors req = [] ->
  answers 2 w ->
  let rows :=
    fst (SQL.select_zones_in_route (originLat req) (originLng req)
           (destinationLat req) (destinationLng req) (db w)) in
  let score := clampScore (route_tally rows) in
  let distance :=
    Geo.haversine (originLat req) (originLng req)
      (destinationLat req) (destinationLng req) in
  exists data w',
    calculate_route req w
    = (Return {| status := 200; json := Success None data |}, w')
    /\ db w' = db w
    /\ r_safetyScore data = score
    /\ r_safetyLevel data = safetyLevel score
    /\ distanceKm data = Geo.toFixed2 distance
    /\ estimatedTimeMin data = Geo.estimatedTime distance
    /\ r_dangerZones data = Z.of_nat (List.length rows).
Proof.
  intros Herr Hw rows score distance.
  apply answers_S in Hw as [H1 Hw]. apply answers_S in Hw as [H2 _].
  unfold calculate_route, try_catch, bind. rewrite Herr.
  rewrite (query_ok _ _ H1). cbn [fst snd SQL.select_zones_in_route].
  rewrite query_ok by exact H2.
  do 2 eexists. split; [reflexivity|]. cbn. repeat split.
Qed.

(* ================================================================= *)
(** * The safety level *)

(** C5. The level is a function of the score alone, by two thresholds:
    80 and above is high, 50 to 79 is medium, below 50 is low; an
    assessment that finds no zone within the radius answers score 100,
    level high. *)
Theorem safetyLevel_thresholds :
  (forall score, (80 <= score)%Z -> safetyLevel score = high)
  /\ (forall score, (50 <= score < 80)%Z -> safetyLevel score = medium)
  /\ (forall score, (score < 50)%Z -> safetyLevel score = low)
  /\ (forall req w lat lng,
         q_lat req = Some lat -> q_lng req = Some lng -> answers 2 w ->
         exists data w',
           get_safety_score req w
           = (Return {| status := 200; json := Success None data |}, w')
           /\ s_safetyLevel data = safetyLevel (s_safetyScore data)
           /\ (fst (SQL.select_zones_within lat lng
                      match q_radius req with Some r => r | None => 5%R end
                      (db w)) = [] ->
               s_safetyScore data = 100%Z /\ s_safetyLevel data = high))
  /\ (forall req w,
         v_errors req = [] -> answers 2 w ->
         exists data w',
           calculate_route req w
           = (Return {| status := 200; json := Success None data |}, w')
           /\ r_safetyLevel data = safetyLevel (r_safetyScore data)).
Proof.
  split; [|split; [|split; [|split]]].
  - intros s H. unfold safetyLevel.
    destruct (Z.leb_spec 80 s); [reflexivity|lia].
  - intros s H. unfold safetyLevel.
    destruct (Z.leb_spec 80 s); [lia|].
    destruct (Z.leb_spec 50 s); [reflexivity|lia].
  - intros s H. unfold safetyLevel.
    destruct (Z.leb_spec 80 s); [lia|].
    destruct (Z.leb_spec 50 s); [lia|reflexivity].
  - intros req w lat lng Hlat Hlng Hw.
    destruct (get_safety_score_ok req w lat lng Hlat Hlng Hw)
      as (data & w' & Hrun & _ & Hs & Hl & _).
    exists data, w'. split; [exact Hrun|]. split; [now rewrite Hl, Hs|].
    intros Hnone. rewrite Hl, Hs, Hnone. split; reflexivity.
  - intros req w Herr Hw.
    destruct (calculate_route_ok req w Herr Hw)
      as (data & w' & Hrun & _ & Hs & Hl & _).
    exists data, w'. split; [exact Hrun|]. now rewrite Hl, Hs.
Qed.

Lemma safetyLevel_thresholds_witness :
  safetyLevel 82 = high
  /\ safetyLevel 50 = medium
  /\ safetyLevel 49 = low
  /\ (exists data w',
         get_safety_score (score_request_at 0 0) (calm empty_database)
         = (Return {| status := 200; json := Success None data |}, w')
         /\ s_safetyScore data = 100%Z /\ s_safetyLevel data = high)
  /\ (exists data w',
         calculate_route (route_request_between 0 0 1 1) (calm seed_database)
         = (Return {| status := 200; json := Success None data |}, w')
         /\ r_safetyLevel data = safetyLevel (r_safetyScore data)).
Proof.
  destruct safetyLevel_thresholds as (Hh & Hm & Hl & Hstats & Hroute).
  split; [apply Hh; lia|].
  split; [apply Hm; lia|].
  split; [apply Hl; lia|].
  split.
  - destruct (Hstats (score_request_at 0 0) (calm empty_database) 0%R 0%R)
      as (data & w' & Hrun & _ & Hnone);
      [reflexivity | reflexivity | constructor |].
    exists data, w'. split; [exact Hrun|]. apply Hnone. reflexivity.
  - apply Hroute; [reflexivity | constructor].
Defined.

(* ================================================================= *)
(** * The zone counts of the responses *)

Lemma length_by_type (rows : list heat_zone) :
  Z.of_nat (List.length rows)
  = (count_type crime rows + count_type accident rows
     + count_type congestion rows + count_type danger rows)%Z.
Proof.
  induction rows as [|zone rows IH]; [reflexivity|].
  rewrite !count_type_cons. cbn [List.length]. rewrite Nat2Z.inj_succ, IH.
  destruct (zone_type zone); cbn [zone_kind_eqb]; lia.
Qed.

Lemma stats_tally_counts (rows : list heat_zone) :
  t_crimeZones (stats_tally rows) = count_type crime rows
  /\ t_accidentZones (stats_tally rows) = count_type accident rows.
Proof. unfold stats_tally. rewrite stats_fold. split; reflexivity. Qed.

(** C10. In both responses the field [dangerZones] is the number of all
    fetched zones, whatever their type: crime, accident, congestion and
    danger zones together. Only [crimeZones] and [accidentZones] count one
    type. *)
Theorem dangerZones_counts_every_type :
  (forall req w lat lng,
      q_lat req = Some lat -> q_lng req = Some lng -> answers 2 w ->
      let rows :=
        fst (SQL.select_zones_within lat lng
               match q_radius req with Some r => r | None => 5%R end
               (db w)) in
      exists data w',
        get_safety_score req w
        = (Return {| status := 200; json := Success None data |}, w')
        /\ dangerZones (details data) = Z.of_nat (List.length rows)
        /\ dangerZones (details data)
           = (count_type crime rows + count_type accident rows
              + count_type congestion rows + count_type danger rows)%Z
        /\ crimeZones (details data) = count_type crime rows
        /\ accidentZones (details data) = count_type accident rows)
  /\ (forall req w,
         v_errors req = [] -> answers 2 w ->
         let rows :=
           fst (SQL.select_zones_in_route (originLat req) (originLng req)
                  (destinationLat req) (destinationLng req) (db w)) in
         exists data w',
           calculate_route req w
           = (Return {| status := 200; json := Success None data |}, w')
           /\ r_dangerZones data = Z.of_nat (List.length rows)
           /\ r_dangerZones data
              = (count_type crime rows + count_type accident rows
                 + count_type congestion rows + count_type danger rows)%Z).
Proof.
  split.
  - intros req w lat lng Hlat Hlng Hw rows.
    destruct (get_safety_score_ok req w lat lng Hlat Hlng Hw)
      as (data & w' & Hrun & _ & _ & _ & Hd & Hc & Ha & _).
    fold rows in Hd, Hc, Ha.
    destruct (stats_tally_counts rows) as [Ec Ea].
    exists data, w'. rewrite Hd, Hc, Ha, Ec, Ea.
    repeat split; auto using length_by_type.
  - intros req w Herr Hw rows.
    destruct (calculate_route_ok req w Herr Hw)
      as (data & w' & Hrun & _ & _ & _ & _ & _ & Hd).
    fold rows in Hd.
    exists data, w'. rewrite Hd. repeat split; auto using length_by_type.
Qed.

(* ================================================================= *)
(** * Distances *)

Module GeoFacts.
Import Geo.
Local Open Scope R_scope.

Lemma Rleb_true (x y : R) : Rleb x y = true <-> x <= y.
Proof. unfold Rleb. destruct (Rle_dec x y); intuition discriminate. Qed.

(** A point is at distance 0 of itself for the SQL expression. *)
Lemma sql_distance_same_point (lat lng : R) : sql_distance lat lng lat lng = 0.
Proof.
  unfold sql_distance.
  replace (radians lng - radians lng) with 0 by lra.
  rewrite cos_0, Rmult_1_r.
  replace (cos (radians lat) * cos (radians lat)
           + sin (radians lat) * sin (radians lat)) with 1.
  - rewrite acos_1. lra.
  - generalize (sin2_cos2 (radians lat)). unfold Rsqr. lra.
Qed.

Lemma within_same_point (km lat lng : R) :
  0 <= km -> within km lat lng lat lng = true.
Proof.
  intros H. unfold within. apply Rleb_true.
  now rewrite sql_distance_same_point.
Qed.

(** [Math.round] gives the integer within a half of its argument, the
    upper one on a tie. *)
Lemma Math_round_spec (x : R) (n : Z) :
  Math_round x = n <-> IZR n - / 2 <= x < IZR n + / 2.
Proof.
  unfold Math_round. split.
  - intros <-. destruct (base_Int_part (x + / 2)) as [H1 H2]. lra.
  - intros H. symmetry. apply Int_part_spec. lra.
Qed.


Lemma Math_atan2_0_1 : Math_atan2 0 1 = 0.
Proof.
  unfold Math_atan2. destruct (Rlt_dec 0 1); [|lra].
  replace (0 / 1) with 0 by lra. apply atan_0.
Qed.


Lemma haversine_sym (lat1 lng1 lat2 lng2 : R) :
  haversine lat1 lng1 lat2 lng2 = haversine lat2 lng2 lat1 lng1.
Proof.
  unfold haversine.
  replace ((lat1 - lat2) * PI / 180 / 2)
    with (- ((lat2 - lat1) * PI / 180 / 2)) by lra.
  replace ((lng1 - lng2) * PI / 180 / 2)
    with (- ((lng2 - lng1) * PI / 180 / 2)) by lra.
  rewrite !sin_neg.
  set (s := sin ((lat2 - lat1) * PI / 180 / 2)).
  set (u := sin ((lng2 - lng1) * PI / 180 / 2)).
  set (c1 := cos (lat1 * PI / 180)). set (c2 := cos (lat2 * PI / 180)).
  replace (- s * - s + c2 * c1 * - u * - u) with (s * s + c1 * c2 * u * u)
    by ring.
  reflexivity.
Qed.

Lemma haversine_same_point (lat lng : R) : haversine lat lng lat lng = 0.
Proof.
  unfold haversine.
  replace ((lat - lat) * PI / 180 / 2) with 0 by lra.
  replace ((lng - lng) * PI / 180 / 2) with 0 by lra.
  rewrite sin_0.
  replace (0 * 0 + cos (lat * PI / 180) * cos (lat * PI / 180) * 0 * 0)
    with 0 by ring.
  rewrite Rminus_0_r, sqrt_0, sqrt_1, Math_atan2_0_1. ring.
Qed.


(** Along a meridian the distance is the arc of a circle of radius
    6371 km. *)
Lemma haversine_meridian (lat1 lat2 lng : R) :
  0 <= lat2 - lat1 <= 180 ->
  haversine lat1 lng lat2 lng = 6371 * ((lat2 - lat1) * PI / 180).
Proof.
  intros Hd. unfold haversine. pose proof PI_RGT_0 as HPI.
  replace ((lng - lng) * PI / 180 / 2) with 0 by lra.
  rewrite sin_0.
  set (h := (lat2 - lat1) * PI / 180 / 2).
  assert (Hh : 0 <= h <= PI / 2).
  { unfold h. split.
    - apply Rmult_le_pos; [|lra]. apply Rmult_le_pos; [|lra].
      apply Rmult_le_pos; lra.
    - apply Rmult_le_reg_r with (r := 360 / PI).
      + apply Rdiv_lt_0_compat; lra.
      + field_simplify; lra. }
  assert (Hsin : 0 <= sin h) by (apply sin_ge_0; lra).
  assert (Hcos : 0 <= cos h) by (apply cos_ge_0; lra).
  replace (sin h * sin h
           + cos (lat1 * PI / 180) * cos (lat2 * PI / 180) * 0 * 0)
    with (sin h * sin h) by ring.
  replace (1 - sin h * sin h) with (cos h * cos h)
    by (generalize (sin2_cos2 h); unfold Rsqr; lra).
  rewrite !sqrt_square by assumption.
  replace ((lat2 - lat1) * PI / 180) with (2 * h) by (unfold h; lra).
  f_equal. f_equal.
  unfold Math_atan2.
  destruct (Rlt_dec 0 (cos h)) as [Hpos|Hnpos].
  - assert (h < PI / 2).
    { destruct (proj2 Hh) as [Hlt|Heq]; [exact Hlt|].
      rewrite Heq, cos_PI2 in Hpos. lra. }
    change (sin h / cos h) with (tan h). apply atan_tan. lra.
  - assert (Heq : h = PI / 2).
    { destruct (proj2 Hh) as [Hlt|Heq]; [|exact Heq].
      exfalso. apply Hnpos. apply cos_gt_0; lra. }
    rewrite Heq, sin_PI2, cos_PI2.
    destruct (Rlt_dec 0 0); [lra|].
    destruct (Rlt_dec 0 1); lra.
Qed.

(** For the distances the handler meets, [toFixed(2)] gives the
    multiple of 1/100 nearest to its argument. *)
Lemma toFixed2_spec (x : R) :
  0 <= x < 10 ^ 21 ->
  exists n : Z,
    toFixed2 x = IZR n / 100 /\ IZR n - / 2 <= x * 100 < IZR n + / 2.
Proof.
  intros [H0 H1]. unfold toFixed2.
  destruct (Rlt_dec x 0); [lra|].
  destruct (Rle_dec (10 ^ 21) x); [lra|].
  exists (Math_round (x * 100)). split; [reflexivity|].
  now apply Math_round_spec.
Qed.



End GeoFacts.

(** C7. The distance of the route handler, the Haversine formula on a
    sphere of radius 6371 km, is symmetric in its two points and is 0
    between a point and itself; along a meridian it is the arc length
    [6371 * angle]. *)
Theorem haversine_symmetric_zero_diagonal :
  (forall lat1 lng1 lat2 lng2 : R,
      Geo.haversine lat1 lng1 lat2 lng2 = Geo.haversine lat2 lng2 lat1 lng1)
  /\ (forall lat lng : R, Geo.haversine lat lng lat lng = 0%R)
  /\ (forall lat1 lat2 lng : R,
         (0 <= lat2 - lat1 <= 180)%R ->
         Geo.haversine lat1 lng lat2 lng
         = (6371 * ((lat2 - lat1) * PI / 180))%R).
Proof.
  split; [|split].
  - exact GeoFacts.haversine_sym.
  - exact GeoFacts.haversine_same_point.
  - exact GeoFacts.haversine_meridian.
Qed.

Lemma haversine_symmetric_zero_diagonal_witness :
  Geo.haversine 0 0 90 0 = (6371 * ((90 - 0) * PI / 180))%R.
Proof.
  apply (proj2 (proj2 haversine_symmetric_zero_diagonal)). lra.
Defined.

(* ================================================================= *)
(** * The score of the two handlers *)

(** C1. Whatever zones were fetched, with [S] the sum of their
    intensities, the score of both handlers is [clamp(100 - 2*S, 0, 100)]:
    the running value starts at 100, every zone takes [intensity * 2] off
    it, and the order in which the zones come makes no difference. *)
Theorem safetyScore_clamped_sum :
  (forall rows,
      clampScore (t_safetyScore (stats_tally rows))
      = clamp (100 - 2 * total_intensity rows) 0 100
      /\ clampScore (route_tally rows)
         = clamp (100 - 2 * total_intensity rows) 0 100)
  /\ (t_safetyScore (stats_tally []) = 100%Z /\ route_tally [] = 100%Z)
  /\ (forall rows zone,
         t_safetyScore (stats_tally (rows ++ [zone]))
         = (t_safetyScore (stats_tally rows) - intensity zone * 2)%Z
         /\ route_tally (rows ++ [zone])
            = (route_tally rows - intensity zone * 2)%Z)
  /\ (forall rows rows',
         Permutation rows rows' ->
         clampScore (t_safetyScore (stats_tally rows'))
         = clampScore (t_safetyScore (stats_tally rows))
         /\ clampScore (route_tally rows') = clampScore (route_tally rows))
  /\ (forall req w lat lng,
         q_lat req = Some lat -> q_lng req = Some lng -> answers 2 w ->
         exists data w',
           get_safety_score req w
           = (Return {| status := 200; json := Success None data |}, w')
           /\ s_safetyScore data
              = clamp
                  (100 - 2 * total_intensity
                             (fst (SQL.select_zones_within lat lng
                                     match q_radius req with
                                     | Some r => r
                                     | None => 5%R
                                     end (db w))))
                  0 100)
  /\ (forall req w,
         v_errors req = [] -> answers 2 w ->
         exists data w',
           calculate_route req w
           = (Return {| status := 200; json := Success None data |}, w')
           /\ r_safetyScore data
              = clamp
                  (100 - 2 * total_intensity
                             (fst (SQL.select_zones_in_route
                                     (originLat req) (originLng req)
                                     (destinationLat req) (destinationLng req)
                                     (db w))))
                  0 100).
Proof.
  assert (Hstats : forall rows,
             clampScore (t_safetyScore (stats_tally rows))
             = clamp (100 - 2 * total_intensity rows) 0 100).
  { intros rows. unfold stats_tally.
    now rewrite stats_fold, clampScore_clamp. }
  assert (Hroute : forall rows,
             clampScore (route_tally rows)
             = clamp (100 - 2 * total_intensity rows) 0 100).
  { intros rows. unfold route_tally.
    now rewrite route_fold, clampScore_clamp. }
  split; [now split|]. split; [now split|]. split; [|split; [|split]].
  - intros rows zone. unfold stats_tally, route_tally.
    rewrite !stats_fold, !route_fold, total_intensity_app.
    cbn [t_safetyScore total_intensity fold_right]. split; lia.
  - intros rows rows' Hperm.
    now rewrite !Hstats, !Hroute, (total_intensity_perm _ _ Hperm).
  - intros req w lat lng Hlat Hlng Hw.
    destruct (get_safety_score_ok req w lat lng Hlat Hlng Hw)
      as (data & w' & Hrun & _ & Hs & _).
    exists data, w'. split; [exact Hrun|]. now rewrite Hs, Hstats.
  - intros req w Herr Hw.
    destruct (calculate_route_ok req w Herr Hw)
      as (data & w' & Hrun & _ & Hs & _).
    exists data, w'. split; [exact Hrun|]. now rewrite Hs, Hroute.
Qed.

Lemma safetyScore_clamped_sum_witness :
  (clampScore (t_safetyScore (stats_tally (rev seed_heat_zones)))
   = clampScore (t_safetyScore (stats_tally seed_heat_zones))
   /\ clampScore (route_tally (rev seed_heat_zones))
      = clampScore (route_tally seed_heat_zones))
  /\ (exists data w',
         get_safety_score (score_request_at (-12.0464) (-77.0428))
           (calm single_zone_database)
         = (Return {| status := 200; json := Success None data |}, w')
         /\ s_safetyScore data = 86%Z)
  /\ (exists data w',
         calculate_route
           (route_request_between (-12.0464) (-77.0428) 0 0)
           (calm single_zone_database)
         = (Return {| status := 200; json := Success None data |}, w')
         /\ r_safetyScore data = 86%Z).
Proof.
  destruct safetyScore_clamped_sum as (_ & _ & _ & Hperm & Hstats & Hroute).
  split; [|split].
  - apply Hperm. apply Permutation_rev.
  - destruct (Hstats (score_request_at (-12.0464) (-77.0428))
                (calm single_zone_database) (-12.0464)%R (-77.0428)%R)
      as (data & w' & Hrun & Hs); [reflexivity | reflexivity | constructor |].
    exists data, w'. split; [exact Hrun|].
    cbn [calm db single_zone_database heat_zones filter fst
         SQL.select_zones_within score_request_at q_radius seed_zone
         latitude longitude] in Hs.
    rewrite GeoFacts.within_same_point in Hs by lra. exact Hs.
  - destruct (Hroute (route_request_between (-12.0464) (-77.0428) 0 0)
                (calm single_zone_database))
      as (data & w' & Hrun & Hs); [reflexivity | constructor |].
    exists data, w'. split; [exact Hrun|].
    cbn [calm db single_zone_database heat_zones filter fst
         SQL.select_zones_in_route route_request_between
         originLat originLng destinationLat destinationLng seed_zone
         latitude longitude] in Hs.
    rewrite GeoFacts.within_same_point in Hs by lra. exact Hs.
Defined.

(** The scenario of the specification: an accident zone of intensity 6 and
    a crime zone of intensity 3. *)
Example two_zone_scenario (a b : heat_zone) :
  zone_type a = accident -> intensity a = 6%Z ->
  zone_type b = crime -> intensity b = 3%Z ->
  let t := stats_tally [a; b] in
  clampScore (t_safetyScore t) = 82%Z
  /\ safetyLevel (clampScore (t_safetyScore t)) = high
  /\ t_crimeZones t = 1%Z /\ t_accidentZones t = 1%Z.
Proof.
  intros Ha Hia Hb Hib. unfold stats_tally; cbn.
  rewrite Ha, Hb, Hia, Hib. repeat split.
Qed.

(* ================================================================= *)
(** * A crime zone counted under [dangerZones] *)

Lemma dangerZones_counts_every_type_witness :
  (exists data w',
      get_safety_score (score_request_at (-12.0464) (-77.0428))
        (calm single_zone_database)
      = (Return {| status := 200; json := Success None data |}, w')
      /\ dangerZones (details data) = 1%Z
      /\ crimeZones (details data) = 1%Z
      /\ accidentZones (details data) = 0%Z)
  /\ (exists data w',
         calculate_route
           (route_request_between (-12.0464) (-77.0428) 0 0)
           (calm single_zone_database)
         = (Return {| status := 200; json := Success None data |}, w')
         /\ r_dangerZones data = 1%Z).
Proof.
  destruct dangerZones_counts_every_type as [Hstats Hroute]. split.
  - destruct (Hstats (score_request_at (-12.0464) (-77.0428))
                (calm single_zone_database) (-12.0464)%R (-77.0428)%R)
      as (data & w' & Hrun & Hd & _ & Hc & Ha);
      [reflexivity | reflexivity | constructor |].
    exists data, w'. split; [exact Hrun|].
    cbn [calm db single_zone_database heat_zones filter fst
         SQL.select_zones_within score_request_at q_radius seed_zone
         latitude longitude] in Hd, Hc, Ha.
    rewrite GeoFacts.within_same_point in Hd, Hc, Ha by lra.
    repeat split; assumption.
  - destruct (Hroute (route_request_between (-12.0464) (-77.0428) 0 0)
                (calm single_zone_database))
      as (data & w' & Hrun & Hd & _);
      [reflexivity | constructor |].
    exists data, w'. split; [exact Hrun|].
    cbn [calm db single_zone_database heat_zones filter fst
         SQL.select_zones_in_route route_request_between
         originLat originLng destinationLat destinationLng seed_zone
         latitude longitude] in Hd.
    rewrite GeoFacts.within_same_point in Hd by lra.
    exact Hd.
Defined.

(* ================================================================= *)
(** * Route evaluation: time and distance *)



(** The minutes come from the distance as computed, not from the
    two-decimal figure of the response: for a distance of 0.746 km the
    two differ. *)
Example time_uses_unrounded_distance :
  Geo.estimatedTime 0.746 = 1%Z
  /\ Geo.toFixed2 0.746 = 0.75%R
  /\ Geo.estimatedTime 0.75 = 2%Z.
Proof.
  split; [|split].
  - apply GeoFacts.Math_round_spec. simpl. lra.
  - destruct (@GeoFacts.toFixed2_spec 0.746%R) as (n & Hn & Hlo & Hhi).
    + split; [lra|]. apply Rlt_le_trans with (10 ^ 1)%R; [simpl; lra|].
      apply Rle_pow; [lra|lia].
    + rewrite Hn. assert (n = 75%Z) as ->.
      { assert (74 < IZR n < 76)%R as [H1 H2] by lra.
        apply lt_IZR in H1, H2. lia. }
      lra.
  - apply GeoFacts.Math_round_spec. simpl. lra.
Qed.

(* ================================================================= *)
(** * Route evaluation: the zones scored *)

Lemma total_intensity_filter_or (p q : heat_zone -> bool) (l : list heat_zone) :
  total_intensity (filter (fun z => p z || q z) l)
  = (total_intensity (filter p l) + total_intensity (filter q l)
     - total_intensity (filter (fun z => p z && q z) l))%Z.
Proof.
  induction l as [|z l IH]; [reflexivity|].
  cbn [filter]. destruct (p z), (q z); cbn [orb andb];
    cbn [total_intensity fold_right];
    repeat match goal with
      | |- context [fold_right _ 0%Z ?l] => fold (total_intensity l)
      end; lia.
Qed.

(** A selection of rows of a keyed table is keyed. *)
Lemma selection_keyed (keep : heat_zone -> bool) (table : list heat_zone) :
  NoDup (map id table) -> NoDup (map id (filter keep table)).
Proof.
  induction table as [|zone table IH]; intros Hkey; [constructor|].
  apply NoDup_cons_iff in Hkey as [Hnew Hkey]. cbn [filter].
  destruct (keep zone); [|now apply IH].
  cbn [map]. apply NoDup_cons_iff. split; [|now apply IH].
  intros Hin. apply Hnew. apply in_map_iff in Hin as (other & Hid & Hin).
  apply filter_In in Hin as [Hin _].
  apply in_map_iff. now exists other.
Qed.

(** C9. A route evaluation scores the zones within 2 km of the origin
    together with those within 2 km of the destination, every zone of
    the table once: a zone near both ends is counted a single time. *)
Theorem route_zones_union_once (req : route_request) (w : world) :
  v_errors req = [] -> answers 2 w ->
  let table := heat_zones (db w) in
  let near_origin z :=
    Geo.within 2 (originLat req) (originLng req) (latitude z) (longitude z) in
  let near_destination z :=
    Geo.within 2 (destinationLat req) (destinationLng req)
      (latitude z) (longitude z) in
  let scored := filter (fun z => near_origin z || near_destination z) table in
  exists data w',
    calculate_route req w
    = (Return {| status := 200; json := Success None data |}, w')
    /\ r_safetyScore data = clamp (100 - 2 * total_intensity scored) 0 100
    /\ r_dangerZones data = Z.of_nat (List.length scored)
    /\ (forall z,
           In z scored
           <-> In z table
               /\ (near_origin z = true \/ near_destination z = true))
    /\ (NoDup (map id table) -> NoDup (map id scored))
    /\ total_intensity scored
       = (total_intensity (filter near_origin table)
          + total_intensity (filter near_destination table)
          - total_intensity
              (filter (fun z => near_origin z && near_destination z) table))%Z.
Proof.
  intros Herr Hw table near_origin near_destination scored.
  destruct (calculate_route_ok req w Herr Hw)
    as (data & w' & Hrun & _ & Hs & _ & _ & _ & Hd).
  change (fst (SQL.select_zones_in_route (originLat req) (originLng req)
                 (destinationLat req) (destinationLng req) (db w)))
    with scored in Hs, Hd.
  exists data, w'. split; [exact Hrun|].
  split.
  { rewrite Hs. unfold route_tally. now rewrite route_fold, clampScore_clamp. }
  split; [exact Hd|].
  split.
  { intros z. unfold scored. rewrite filter_In, orb_true_iff. reflexivity. }
  split; [apply selection_keyed|].
  apply total_intensity_filter_or.
Qed.

Lemma route_zones_union_once_witness :
  exists data w',
    calculate_route
      (route_request_between (-12.0464) (-77.0428) (-12.0464) (-77.0428))
      (calm single_zone_database)
    = (Return {| status := 200; json := Success None data |}, w')
    /\ r_safetyScore data = 86%Z
    /\ r_dangerZones data = 1%Z.
Proof.
  destruct (@route_zones_union_once
              (route_request_between (-12.0464) (-77.0428)
                 (-12.0464) (-77.0428)) (calm single_zone_database))
    as (data & w' & Hrun & Hs & Hd & _);
    [reflexivity | constructor |].
  exists data, w'. split; [exact Hrun|].
  cbn [calm db single_zone_database heat_zones filter route_request_between
       originLat originLng destinationLat destinationLng seed_zone
       latitude longitude] in Hs, Hd.
  rewrite GeoFacts.within_same_point in Hs, Hd by lra.
  split; [exact Hs | exact Hd].
Defined.

(* ================================================================= *)
(** * Running [updateHeatZone] *)

Lemma answers_2 (w : world) :
  answers 2 w
  <-> hd false (failures w) = false /\ hd false (tl (failures w)) = false.
Proof.
  rewrite answers_S. cbn [failures set_failures].
  split; intros [H1 H2]; split; auto.
  - now apply answers_S in H2 as [H2 _].
  - apply answers_S. split; [exact H2|]. constructor.
Qed.

(** Every way a call of [updateHeatZone] can go: the store fails on one
    of its two calls, and the tables stay as they are; or the zone found
    is updated; or, none being found, a zone is inserted. It never
    throws. *)
Lemma updateHeatZone_run (lat lng : R) (label : JSString.t) (w : world) :
  let found := fst (SQL.select_zone_nearby (zoneType label) lat lng (db w)) in
  exists w',
    updateHeatZone lat lng label w = (Return tt, w')
    /\ ((~ answers 2 w
         /\ db w' = db w
         /\ console w' = console w ++ update_log)
        \/ (answers 2 w
            /\ (exists zone rest,
                   found = zone :: rest
                   /\ db w' = snd (SQL.update_zone
                                     (Z.min 10 (intensity zone + 1))
                                     (id zone) (db w))
                   /\ uuid_seq w' = uuid_seq w)
            /\ console w' = console w
            /\ failures w' = tl (tl (failures w)))
        \/ (answers 2 w
            /\ found = []
            /\ db w' = snd (SQL.insert_zone (uuid_seq w) lat lng
                              (zoneType label) (db w))
            /\ uuid_seq w' = N.succ (uuid_seq w)
            /\ console w' = console w
            /\ failures w' = tl (tl (failures w)))).
Proof.
  intros found. unfold updateHeatZone, try_catch at 1, bind at 1.
  destruct (hd false (failures w)) eqn:H1.
  - (* the SELECT fails *)
    rewrite query_fail by exact H1. cbn.
    eexists. split; [reflexivity|]. left. cbn.
    split; [|split; [reflexivity|now rewrite <- app_assoc]].
    rewrite answers_2. intros [E _]. congruence.
  - rewrite query_ok by exact H1. fold found.
    cbn [snd SQL.select_zone_nearby].
    destruct found as [|zone rest] eqn:Hfound.
    + (* no zone nearby: insert *)
      unfold bind, uuidv4.
      destruct (hd false (tl (failures w))) eqn:H2.
      * rewrite query_fail by exact H2. cbn.
        eexists. split; [reflexivity|]. left. cbn.
        split; [|split; [reflexivity|now rewrite <- app_assoc]].
        rewrite answers_2. intros [_ E]. congruence.
      * rewrite query_ok by exact H2. cbn.
        eexists. split; [reflexivity|]. right; right. cbn.
        rewrite answers_2. repeat split; assumption.
    + (* a zone nearby: update *)
      destruct (hd false (tl (failures w))) eqn:H2.
      * rewrite query_fail by exact H2. cbn.
        eexists. split; [reflexivity|]. left. cbn.
        split; [|split; [reflexivity|now rewrite <- app_assoc]].
        rewrite answers_2. intros [_ E]. congruence.
      * rewrite query_ok by exact H2. cbn.
        eexists. split; [reflexivity|]. right; left. cbn.
        rewrite answers_2. repeat split; try assumption.
        exists zone, rest. repeat split.
Qed.

(* ================================================================= *)
(** * The bounds of a zone are invariant *)

Lemma bump_ok (zone : heat_zone) : zone_ok zone -> zone_ok (bump zone).
Proof. unfold zone_ok, bump; cbn. lia. Qed.

Lemma fresh_zone_ok n u lat lng k : zone_ok (fresh_zone n u lat lng k).
Proof. unfold zone_ok, fresh_zone; cbn. lia. Qed.

Lemma zone_step_ok (zone zone' : heat_zone) :
  zone_step zone zone' -> zone_ok zone -> zone_ok zone'.
Proof. destruct 1; auto using bump_ok. Qed.

Lemma zone_step_id (zone zone' : heat_zone) :
  zone_step zone zone' -> id zone' = id zone.
Proof. now destruct 1. Qed.

Lemma zone_step_never_decreased (zone zone' : heat_zone) :
  zone_step zone zone' -> never_decreased zone zone'.
Proof. destruct 1; unfold never_decreased, bump; cbn; lia. Qed.

Lemma NoDup_key_inj (l : list heat_zone) (x y : heat_zone) :
  NoDup (map id l) -> In x l -> In y l -> id x = id y -> x = y.
Proof.
  induction l as [|a l IH]; cbn; [contradiction|].
  intros H Hx Hy E. inversion H as [|? ? Hnotin Hrest]; subst.
  destruct Hx as [->|Hx], Hy as [->|Hy]; auto.
  - exfalso. apply Hnotin. rewrite E. now apply in_map.
  - exfalso. apply Hnotin. rewrite <- E. now apply in_map.
Qed.

(** The UPDATE statement, on a table with a primary key, bumps the zone
    found and nothing else. *)
Lemma update_zone_steps (d : database) (zone : heat_zone) :
  NoDup (map id (heat_zones d)) -> In zone (heat_zones d) ->
  Forall2 zone_step (heat_zones d)
    (heat_zones
       (snd (SQL.update_zone (Z.min 10 (intensity zone + 1)) (id zone) d))).
Proof.
  intros Hkey Hin. cbn.
  assert (Hsub : forall z, In z (heat_zones d) -> In z (heat_zones d))
    by auto.
  revert Hsub. generalize (heat_zones d) at 1 3 4 as l.
  induction l as [|z l IH]; intros Hsub; cbn; constructor.
  - destruct (Z.eqb_spec (id z) (id zone)) as [E|_]; [|constructor].
    assert (z = zone) as ->
        by (apply (NoDup_key_inj _ _ _ Hkey); auto using in_eq).
    apply zone_bumped.
  - apply IH. intros z' Hz'. apply Hsub. now right.
Qed.

Lemma Forall2_step_ids (l l' : list heat_zone) :
  Forall2 zone_step l l' -> map id l' = map id l.
Proof.
  induction 1 as [|z z' l l' Hz _ IH]; cbn; [reflexivity|].
  now rewrite IH, (zone_step_id _ _ Hz).
Qed.

Lemma Forall2_step_ok (l l' : list heat_zone) :
  Forall2 zone_step l l' -> Forall zone_ok l -> Forall zone_ok l'.
Proof.
  induction 1 as [|z z' l l' Hz _ IH]; intros H; [constructor|].
  inversion H; subst. constructor; eauto using zone_step_ok.
Qed.

Lemma Forall2_kept (l : list heat_zone) : Forall2 zone_step l l.
Proof. induction l; constructor; auto using zone_kept. Qed.


Lemma never_decreased_refl (zone : heat_zone) : never_decreased zone zone.
Proof. unfold never_decreased; lia. Qed.

Lemma never_decreased_trans (a b c : heat_zone) :
  never_decreased a b -> never_decreased b c -> never_decreased a c.
Proof. unfold never_decreased; intros [] []; split; [congruence|lia]. Qed.

Lemma Forall2_never_decreased_trans (l1 l2 l3 : list heat_zone) :
  Forall2 never_decreased l1 l2 -> Forall2 never_decreased l2 l3 ->
  Forall2 never_decreased l1 l3.
Proof.
  intros H; revert l3; induction H as [|a b l1 l2 Hab _ IH]; intros l3 H23;
    inversion H23; subst; constructor;
    eauto using never_decreased_trans.
Qed.

(** Zones are never removed and their counts never go down: this
    composes along a run. *)
Lemma grows_trans (l1 l2 l3 : list heat_zone) :
  evolves never_decreased (fun _ => True) l1 l2 ->
  evolves never_decreased (fun _ => True) l2 l3 ->
  evolves never_decreased (fun _ => True) l1 l3.
Proof.
  intros (k1 & c1 & -> & H1 & _) (k2 & c2 & -> & H2 & _).
  apply Forall2_app_inv_l in H2 as (k2a & k2b & Ha & _ & ->).
  exists k2a, (k2b ++ c2). split; [now rewrite app_assoc|].
  split; [eauto using Forall2_never_decreased_trans|].
  apply Forall_forall; auto.
Qed.

Lemma grows_refl (l : list heat_zone) :
  evolves never_decreased (fun _ => True) l l.
Proof.
  exists l, []. rewrite app_nil_r. split; [reflexivity|]. split.
  - induction l; constructor; auto using never_decreased_refl.
  - constructor.
Qed.

Lemma evolves_grows (l l' : list heat_zone) :
  evolves zone_step just_created l l' ->
  evolves never_decreased (fun _ => True) l l'.
Proof.
  intros (kept & created & -> & H & _). exists kept, created.
  split; [reflexivity|]. split.
  - eapply Forall2_impl; [|exact H]. apply zone_step_never_decreased.
  - apply Forall_forall; auto.
Qed.

Lemma store_ok_same (d d' : database) :
  heat_zones d' = heat_zones d ->
  heat_zones_id_seq d' = heat_zones_id_seq d ->
  store_ok d -> store_ok d'.
Proof. unfold store_ok, keys_ok. now intros -> ->. Qed.

(** One call of [updateHeatZone] keeps the bounds and the key, leaves
    every zone as it was or bumped, and may add one zone just created. *)
Lemma updateHeatZone_evolves (lat lng : R) (label : JSString.t) (w : world) :
  store_ok (db w) ->
  exists w',
    updateHeatZone lat lng label w = (Return tt, w')
    /\ store_ok (db w')
    /\ evolves zone_step just_created
         (heat_zones (db w)) (heat_zones (db w')).
Proof.
  intros (Hok & Hnodup & Hseq).
  destruct (updateHeatZone_run lat lng label w) as (w' & Hrun & Hcases).
  exists w'. split; [exact Hrun|].
  destruct Hcases as [(_ & Hdb & _)
                     |[(_ & (zone & rest & Hfound & Hdb & _) & _)
                      |(_ & Hfound & Hdb & _)]]; rewrite Hdb.
  - (* nothing written *)
    split; [now repeat split|].
    exists (heat_zones (db w)), []. rewrite app_nil_r.
    repeat split; auto using Forall2_kept.
  - (* the zone found is bumped *)
    assert (Hin : In zone (heat_zones (db w))).
    { cbn in Hfound.
      assert (H : In zone (zone :: rest)) by apply in_eq.
      rewrite <- Hfound in H. now apply filter_In in H. }
    pose proof (@update_zone_steps (db w) zone Hnodup Hin) as Hsteps.
    split.
    + split; [eauto using Forall2_step_ok|].
      unfold keys_ok. rewrite (Forall2_step_ids _ _ Hsteps). now split.
    + eexists _, []. rewrite app_nil_r. repeat split; eauto.
  - (* a zone is created *)
    cbn [snd SQL.insert_zone SQL.set_heat_zones heat_zones heat_zones_id_seq].
    split.
    + split; [|split].
      * cbn. apply Forall_app. split; [exact Hok|].
        constructor; [|constructor].
        apply (fresh_zone_ok (heat_zones_id_seq (db w)) (uuid_seq w) lat lng
                 (zoneType label)).
      * cbn. rewrite map_app. apply NoDup_app; [exact Hnodup| |].
        -- cbn. constructor; [intros []|constructor].
        -- intros n Hn [<-|[]]. rewrite Forall_forall in Hseq.
           apply Hseq in Hn. cbn in Hn. lia.
      * cbn. rewrite map_app. apply Forall_app. split.
        -- eapply Forall_impl; [|exact Hseq]. cbn. intros; lia.
        -- cbn. constructor; [lia|constructor].
    + eexists _, _. split; [reflexivity|].
      split; [apply Forall2_kept|].
      constructor; [split; reflexivity|constructor].
Qed.

Lemma updateHeatZone_other_tables (lat lng : R) (label : JSString.t)
  (w w' : world) (r : outcome unit) :
  updateHeatZone lat lng label w = (r, w') ->
  reports (db w') = reports (db w)
  /\ help_points (db w') = help_points (db w).
Proof.
  intros Hrun.
  destruct (updateHeatZone_run lat lng label w) as (w'' & Hrun' & Hcases).
  rewrite Hrun in Hrun'. injection Hrun' as _ <-.
  destruct Hcases as [(_ & Hdb & _)
                     |[(_ & (zone & rest & _ & Hdb & _) & _)
                      |(_ & _ & Hdb & _)]]; rewrite Hdb; split; reflexivity.
Qed.

(** A read-only handler leaves the tables as they are, whatever the
    store does. *)
Lemma get_safety_score_reads (req : score_request) (w w' : world) r :
  get_safety_score req w = (r, w') -> db w' = db w.
Proof.
  unfold get_safety_score, try_catch, bind.
  destruct (q_lat req) as [lat|], (q_lng req) as [lng|];
    try (intros [= _ <-]; reflexivity).
  destruct (hd false (failures w)) eqn:H1;
    [rewrite query_fail by exact H1; intros [= _ <-]; reflexivity|].
  rewrite query_ok by exact H1. cbn [snd SQL.select_zones_within].
  match goal with
  | |- context [query ?s ?w1] =>
      destruct (hd false (failures w1)) eqn:H2;
      [rewrite (@query_fail _ s w1 H2)|rewrite (@query_ok _ s w1 H2)]
  end; intros [= _ <-]; reflexivity.
Qed.

Lemma calculate_route_reads (req : route_request) (w w' : world) r :
  calculate_route req w = (r, w') -> db w' = db w.
Proof.
  unfold calculate_route, try_catch, bind.
  destruct (v_errors req); [|intros [= _ <-]; reflexivity].
  destruct (hd false (failures w)) eqn:H1;
    [rewrite query_fail by exact H1; intros [= _ <-]; reflexivity|].
  rewrite query_ok by exact H1. cbn [snd SQL.select_zones_in_route].
  match goal with
  | |- context [query ?s ?w1] =>
      destruct (hd false (failures w1)) eqn:H2;
      [rewrite (@query_fail _ s w1 H2)|rewrite (@query_ok _ s w1 H2)]
  end; intros [= _ <-]; reflexivity.
Qed.

(** Every way [POST /api/reports] can go. *)
Lemma post_report_run (req : report_request) (w : world) :
  exists resp w',
    post_report req w = (Return resp, w')
    /\ ((rq_errors req <> [] /\ status resp = 400%Z /\ w' = w)
        \/ (rq_errors req = [] /\ hd false (failures w) = true
            /\ status resp = 500%Z /\ db w' = db w)
        \/ (rq_errors req = [] /\ hd false (failures w) = false
            /\ exists row w1,
                resp = {| status := 201;
                          json := Success
                                    (Some "Reporte creado exitosamente"%string)
                                    row |}
                /\ incident_type row = rq_incidentType req
                /\ r_latitude row = rq_latitude req
                /\ r_longitude row = rq_longitude req
                /\ reports (db w1) = reports (db w) ++ [row]
                /\ heat_zones (db w1) = heat_zones (db w)
                /\ heat_zones_id_seq (db w1) = heat_zones_id_seq (db w)
                /\ failures w1 = tl (failures w)
                /\ updateHeatZone (rq_latitude req) (rq_longitude req)
                     (rq_incidentType req) w1 = (Return tt, w'))).
Proof.
  unfold post_report, try_catch at 1.
  destruct (rq_errors req) as [|e es] eqn:Herr.
  - unfold bind at 1, uuidv4. unfold bind at 1.
    destruct (hd false (failures w)) eqn:H1.
    + rewrite query_fail by exact H1. cbn.
      do 2 eexists. split; [reflexivity|]. right; left. now repeat split.
    + rewrite query_ok by exact H1. cbn [fst snd SQL.insert_report].
      unfold bind at 1.
      match goal with
      | |- context [updateHeatZone ?a ?b ?c ?w1] =>
          set (wr := w1);
          destruct (updateHeatZone_run a b c wr) as (w2 & Hrun & _);
          rewrite Hrun
      end.
      cbn. do 2 eexists. split; [reflexivity|]. right; right.
      split; [reflexivity|]. split; [reflexivity|].
      eexists _, wr. split; [reflexivity|].
      repeat split; try reflexivity. exact Hrun.
  - cbn. do 2 eexists. split; [reflexivity|]. left.
    repeat split. discriminate.
Qed.

Lemma evolves_same (d d' : database) :
  d' = d ->
  evolves zone_step just_created (heat_zones d) (heat_zones d').
Proof.
  intros ->. exists (heat_zones d), []. rewrite app_nil_r.
  repeat split; auto using Forall2_kept.
Qed.

Lemma step_invariant (w w' : world) :
  step w w' -> store_ok (db w) ->
  store_ok (db w')
  /\ evolves zone_step just_created (heat_zones (db w)) (heat_zones (db w')).
Proof.
  intros Hstep Hok. destruct Hstep as [req w r w' Hrun|req w r w' Hrun
                                      |req w r w' Hrun|fs w].
  - destruct (post_report_run req w) as (resp & w'' & Hrun' & Hcases).
    rewrite Hrun in Hrun'. injection Hrun' as _ <-.
    destruct Hcases as [(_ & _ & ->)
                       |[(_ & _ & _ & Hdb)
                        |(_ & _ & row & w1 & _ & _ & _ & _ & _
                          & Hz & Hseq & _ & Hupd)]].
    + split; [exact Hok|]. now apply evolves_same.
    + rewrite Hdb. split; [exact Hok|]. now apply evolves_same.
    + assert (Hok1 : store_ok (db w1)) by (apply (store_ok_same _ _ Hz Hseq Hok)).
      destruct (updateHeatZone_evolves (rq_latitude req) (rq_longitude req)
                  (rq_incidentType req) w1 Hok1) as (w2 & Hrun2 & Hok2 & Hev).
      rewrite Hupd in Hrun2. injection Hrun2 as <-.
      rewrite Hz in Hev. now split.
  - apply get_safety_score_reads in Hrun. rewrite Hrun.
    split; [exact Hok|]. now apply evolves_same.
  - apply calculate_route_reads in Hrun. rewrite Hrun.
    split; [exact Hok|]. now apply evolves_same.
  - split; [exact Hok|]. now apply evolves_same.
Qed.

(** C8. The bounds of a zone hold in every state the handlers can reach:
    intensity between 1 and 10, incident count at least 1 and never
    lower than it was. A call of [updateHeatZone] leaves each zone as it
    was or with intensity [min(10, intensity + 1)] and one more incident,
    and a zone it creates has intensity 1 and count 1. *)
Theorem zone_bounds_invariant :
  (forall lat lng label w,
      store_ok (db w) ->
      exists w',
        updateHeatZone lat lng label w = (Return tt, w')
        /\ store_ok (db w')
        /\ evolves zone_step just_created
             (heat_zones (db w)) (heat_zones (db w')))
  /\ (forall w0 w,
         store_ok (db w0) -> reachable w0 w ->
         Forall (fun zone => (1 <= intensity zone <= 10)%Z
                             /\ (1 <= incident_count zone)%Z)
           (heat_zones (db w))
         /\ evolves never_decreased (fun _ => True)
              (heat_zones (db w0)) (heat_zones (db w))).
Proof.
  split; [intros; now apply updateHeatZone_evolves|].
  intros w0 w Hok0 Hreach.
  enough (store_ok (db w)
          /\ evolves never_decreased (fun _ => True)
               (heat_zones (db w0)) (heat_zones (db w)))
    as [[Hzones _] Hgrow] by (split; assumption).
  induction Hreach as [|w w' _ [Hok Hgrow] Hstep].
  - split; [exact Hok0|apply grows_refl].
  - destruct (step_invariant _ _ Hstep Hok) as [Hok' Hev].
    split; [exact Hok'|].
    eapply grows_trans; [exact Hgrow|]. now apply evolves_grows.
Qed.

Lemma seed_store_ok : store_ok seed_database.
Proof.
  split; [|split]; cbn.
  - repeat constructor; cbn; lia.
  - repeat constructor; cbn; intuition discriminate.
  - repeat constructor; cbn; lia.
Qed.

Lemma zone_bounds_invariant_witness :
  Forall (fun zone => (1 <= intensity zone <= 10)%Z
                      /\ (1 <= incident_count zone)%Z)
    (heat_zones (db after_one_report))
  /\ evolves never_decreased (fun _ => True)
       seed_heat_zones (heat_zones (db after_one_report)).
Proof.
  apply (proj2 zone_bounds_invariant (calm seed_database) after_one_report
           seed_store_ok).
  eapply reach_step; [apply reach_start|].
  eapply step_report. apply surjective_pairing.
Defined.

(* ================================================================= *)
(** * A failed accumulation does not fail the report *)

(** C4. A failure of the store inside [updateHeatZone] is caught there
    and written to the console; it never reaches the caller. A report
    whose own insertion succeeded is kept and answered with status 201
    whether or not the accumulation went through. *)
Theorem accumulation_failure_swallowed :
  (forall lat lng label w,
      exists w',
        updateHeatZone lat lng label w = (Return tt, w')
        /\ (~ answers 2 w ->
            db w' = db w /\ console w' = console w ++ update_log))
  /\ (forall req w,
         rq_errors req = [] ->
         hd false (failures w) = false ->
         exists row w',
           post_report req w
           = (Return {| status := 201;
                        json := Success
                                  (Some "Reporte creado exitosamente"%string)
                                  row |}, w')
           /\ incident_type row = rq_incidentType req
           /\ reports (db w') = reports (db w) ++ [row]).
Proof.
  split.
  - intros lat lng label w.
    destruct (updateHeatZone_run lat lng label w) as (w' & Hrun & Hcases).
    exists w'. split; [exact Hrun|]. intros Hfail.
    destruct Hcases as [(_ & Hdb & Hlog)|[(Hw & _)|(Hw & _)]];
      [now split|contradiction..].
  - intros req w Herr Hins.
    destruct (post_report_run req w) as (resp & w' & Hrun & Hcases).
    destruct Hcases as [(Hne & _)|[(_ & Hf & _)|(_ & _ & Hcreated)]];
      [contradiction|congruence|].
    destruct Hcreated as (row & w1 & -> & Hty & _ & _ & Hrep & _ & _ & _ & Hupd).
    exists row, w'. split; [exact Hrun|]. split; [exact Hty|].
    apply updateHeatZone_other_tables in Hupd as [Hreports _].
    now rewrite Hreports.
Qed.

Lemma accumulation_failure_swallowed_witness :
  (exists w',
      updateHeatZone 0 0 (JSString.lit "Robo") (flaky [true] seed_database)
      = (Return tt, w')
      /\ db w' = seed_database
      /\ console w' = update_log)
  /\ (exists row w',
         post_report (report_request_at 0 0 "Robo")
           (flaky [false; true] seed_database)
         = (Return {| status := 201;
                      json := Success
                                (Some "Reporte creado exitosamente"%string)
                                row |}, w')
         /\ incident_type row = JSString.lit "Robo"
         /\ reports (db w') = [row]).
Proof.
  destruct accumulation_failure_swallowed as [Hupd Hpost]. split.
  - destruct (Hupd 0%R 0%R (JSString.lit "Robo") (flaky [true] seed_database))
      as (w' & Hrun & Hfail).
    exists w'. split; [exact Hrun|]. apply Hfail.
    intros H. apply answers_2 in H as [H _]. discriminate.
  - apply (Hpost (report_request_at 0 0 "Robo")
             (flaky [false; true] seed_database)); reflexivity.
Defined.

(** The report is answered 201 with the accumulation failing on its first
    call of the store: the run, step by step. *)
Example report_kept_when_accumulation_fails :
  exists row w',
    post_report (report_request_at 0 0 "Robo")
      (flaky [false; true] empty_database)
    = (Return {| status := 201;
                 json := Success (Some "Reporte creado exitosamente"%string)
                           row |}, w')
    /\ reports (db w') = [row]
    /\ heat_zones (db w') = []
    /\ console w' = update_log.
Proof.
  do 2 eexists.
  cbv beta delta [post_report updateHeatZone try_catch bind uuidv4 query
                    pool_query console_error ret throw report_request_at
                    set_failures set_db SQL.insert_report flaky
                    SQL.select_zone_nearby] iota zeta; cbn.
  repeat split.
Qed.

(* ================================================================= *)
(** * Incidents recorded at one point *)




(** With the store answering and the zone at the end of the table the only
    one of the type nearby, the call bumps it. *)
Lemma updateHeatZone_bumps (lat lng : R) (label : JSString.t) (w : world)
  (table : list heat_zone) (zone : heat_zone) :
  answers 2 w ->
  heat_zones (db w) = table ++ [zone] ->
  fst (SQL.select_zone_nearby (zoneType label) lat lng (db w)) = [zone] ->
  Forall (fun z => id z <> id zone) table ->
  exists w',
    updateHeatZone lat lng label w = (Return tt, w')
    /\ heat_zones (db w') = table ++ [bump zone]
    /\ heat_zones_id_seq (db w') = heat_zones_id_seq (db w)
    /\ failures w' = tl (tl (failures w)).
Proof.
  intros Hw Htable Hfound Hids.
  destruct (updateHeatZone_run lat lng label w) as (w' & Hrun & Hcases).
  exists w'. split; [exact Hrun|].
  destruct Hcases as [(Hn & _)
                     |[(_ & (zone' & rest & Hfound' & Hdb & _) & _ & Hf)
                      |(_ & Hnone & _)]];
    [contradiction| |congruence].
  rewrite Hfound in Hfound'. injection Hfound' as <- <-.
  rewrite Hdb. cbn. rewrite Htable, map_app. cbn.
  rewrite Z.eqb_refl. fold (bump zone).
  split; [|split; [reflexivity|exact Hf]].
  f_equal. clear -Hids.
  induction Hids as [|z table Hz _ IH]; [reflexivity|]. cbn.
  rewrite IH. destruct (Z.eqb_spec (id z) (id zone)); [contradiction|].
  reflexivity.
Qed.


Lemma filter_none_nearby (k : zone_kind) (lat lng : R)
  (table : list heat_zone) :
  (forall z, In z table -> zone_type z = k ->
             Geo.within (1 / 10) lat lng (latitude z) (longitude z) = false) ->
  filter (fun z => zone_kind_eqb (zone_type z) k
                   && Geo.within (1 / 10) lat lng (latitude z) (longitude z))
    table = [].
Proof.
  induction table as [|z table IH]; intros Hfar; [reflexivity|]. cbn.
  rewrite IH by (intros; apply Hfar; auto using in_cons).
  destruct (zone_kind_eqb (zone_type z) k) eqn:E; [|reflexivity].
  rewrite Hfar; [reflexivity|apply in_eq|now destruct (zone_type z), k].
Qed.

Lemma select_last_only (k : zone_kind) (lat lng : R) (d : database)
  (table : list heat_zone) (zone : heat_zone) :
  heat_zones d = table ++ [zone] ->
  (forall z, In z table -> zone_type z = k ->
             Geo.within (1 / 10) lat lng (latitude z) (longitude z) = false) ->
  zone_type zone = k -> latitude zone = lat -> longitude zone = lng ->
  fst (SQL.select_zone_nearby k lat lng d) = [zone].
Proof.
  intros Htable Hfar Hk Hlat Hlng. cbn.
  rewrite Htable, filter_app, (filter_none_nearby _ _ _ _ Hfar). cbn.
  rewrite Hk, Hlat, Hlng, GeoFacts.within_same_point by lra.
  now destruct k.
Qed.






(* ================================================================= *)
(** * Outcomes of the handlers *)

(** Every way [GET /api/stats/safety-score] can go. *)
Lemma get_safety_score_run (req : score_request) (w : world) :
  exists resp w',
    get_safety_score req w = (Return resp, w')
    /\ db w' = db w
    /\ (((q_lat req = None \/ q_lng req = None)
         /\ resp = {| status := 400;
                      json := Failure "Se requieren latitud y longitud" |}
         /\ w' = w)
        \/ ((exists lat lng, q_lat req = Some lat /\ q_lng req = Some lng)
            /\ ~ answers 2 w
            /\ resp = {| status := 500;
                         json := Failure "Error al calcular safety score" |}
            /\ console w' = console w ++ score_log)
        \/ ((exists lat lng, q_lat req = Some lat /\ q_lng req = Some lng)
            /\ answers 2 w
            /\ status resp = 200%Z
            /\ (exists data, json resp = Success None data)
            /\ console w' = console w)).
Proof.
  destruct (q_lat req) as [lat|] eqn:Hlat; [destruct (q_lng req) as [lng|] eqn:Hlng|].
  - destruct (hd false (failures w)) eqn:H1;
      [|destruct (hd false (tl (failures w))) eqn:H2].
    + unfold get_safety_score, try_catch, bind. rewrite Hlat, Hlng.
      rewrite query_fail by exact H1. cbn.
      do 2 eexists. split; [reflexivity|]. split; [reflexivity|].
      right; left. split; [now exists lat, lng|]. split.
      * rewrite answers_2. intros [E _]. congruence.
      * split; [reflexivity|]. cbn. now rewrite <- app_assoc.
    + unfold get_safety_score, try_catch, bind. rewrite Hlat, Hlng.
      rewrite query_ok by exact H1. cbn [fst snd SQL.select_zones_within].
      rewrite query_fail by exact H2. cbn.
      do 2 eexists. split; [reflexivity|]. split; [reflexivity|].
      right; left. split; [now exists lat, lng|]. split.
      * rewrite answers_2. intros [_ E]. congruence.
      * split; [reflexivity|]. cbn. now rewrite <- app_assoc.
    + assert (Hw : answers 2 w) by (apply answers_2; now split).
      destruct (get_safety_score_ok req w lat lng Hlat Hlng Hw)
        as (data & w' & Hrun & Hdb & _).
      exists {| status := 200; json := Success None data |}, w'.
      split; [exact Hrun|]. split; [exact Hdb|].
      right; right. split; [now exists lat, lng|].
      split; [exact Hw|]. split; [reflexivity|]. split; [now exists data|].
      revert Hrun.
      unfold get_safety_score, try_catch, bind. rewrite Hlat, Hlng.
      rewrite query_ok by exact H1. cbn [fst snd SQL.select_zones_within].
      rewrite query_ok by exact H2. now intros [= _ <-].
  - unfold get_safety_score, try_catch. rewrite Hlat, Hlng. cbn.
    do 2 eexists. split; [reflexivity|]. split; [reflexivity|].
    left. repeat split. now right.
  - unfold get_safety_score, try_catch. rewrite Hlat. cbn.
    do 2 eexists. split; [reflexivity|]. split; [reflexivity|].
    left. repeat split. now left.
Qed.

(** The 200 answer of [GET /api/stats/safety-score], field by field. *)
Lemma get_safety_score_success (req : score_request) (w w' : world)
  (resp : response score_data) (msg : option string) (data : score_data) :
  get_safety_score req w = (Return resp, w') ->
  json resp = Success msg data ->
  exists lat lng,
    q_lat req = Some lat /\ q_lng req = Some lng /\ answers 2 w
    /\ status resp = 200%Z
    /\ let radius := match q_radius req with Some r => r | None => 5%R end in
       let rows := fst (SQL.select_zones_within lat lng radius (db w)) in
       s_safetyScore data = clampScore (t_safetyScore (stats_tally rows))
       /\ s_safetyLevel data = safetyLevel (s_safetyScore data)
       /\ recommendation data
          = (if (s_safetyScore data <? 50)%Z
             then "Se recomienda precaución en esta zona"
             else if (s_safetyScore data <? 80)%Z
                  then "Zona moderadamente segura"
                  else "Zona segura")%string
       /\ dangerZones (details data) = Z.of_nat (List.length rows).
Proof.
  unfold get_safety_score, try_catch, bind.
  destruct (q_lat req) as [lat|]; [destruct (q_lng req) as [lng|]|];
    try (intros [= <- _]; discriminate).
  destruct (hd false (failures w)) eqn:H1;
    [rewrite query_fail by exact H1; intros [= <- _]; discriminate|].
  rewrite query_ok by exact H1. cbn [fst snd SQL.select_zones_within].
  match goal with
  | |- context [query ?s ?w1] =>
      destruct (hd false (failures w1)) eqn:H2;
      [rewrite (@query_fail _ s w1 H2); intros [= <- _]; discriminate
      |rewrite (@query_ok _ s w1 H2)]
  end.
  intros [= <- _] [= _ <-]. exists lat, lng.
  split; [reflexivity|]. split; [reflexivity|].
  split; [apply answers_2; now split|]. repeat split.
Qed.

(** The 200 answer of [POST /api/routes/calculate], field by field. *)
Lemma calculate_route_success (req : route_request) (w w' : world)
  (resp : response route_data) (msg : option string) (data : route_data) :
  calculate_route req w = (Return resp, w') ->
  json resp = Success msg data ->
  v_errors req = [] /\ answers 2 w /\ status resp = 200%Z
  /\ let rows :=
       fst (SQL.select_zones_in_route (originLat req) (originLng req)
              (destinationLat req) (destinationLng req) (db w)) in
     let distance :=
       Geo.haversine (originLat req) (originLng req)
         (destinationLat req) (destinationLng req) in
     r_safetyScore data = clampScore (route_tally rows)
     /\ r_safetyLevel data = safetyLevel (r_safetyScore data)
     /\ distanceKm data = Geo.toFixed2 distance
     /\ estimatedTimeMin data = Geo.estimatedTime distance
     /\ r_dangerZones data = Z.of_nat (List.length rows)
     /\ r_helpPointsNearby data
        = fst (SQL.select_help_points_in_route (originLat req) (originLng req)
                 (destinationLat req) (destinationLng req) (db w))
     /\ origin data = {| p_latitude := originLat req;
                         p_longitude := originLng req;
                         p_address := originAddress req |}
     /\ destination data = {| p_latitude := destinationLat req;
                              p_longitude := destinationLng req;
                              p_address := destinationAddress req |}.
Proof.
  unfold calculate_route, try_catch, bind.
  destruct (v_errors req) as [|e es]; [|intros [= <- _]; discriminate].
  destruct (hd false (failures w)) eqn:H1;
    [rewrite query_fail by exact H1; intros [= <- _]; discriminate|].
  rewrite query_ok by exact H1. cbn [fst snd SQL.select_zones_in_route].
  match goal with
  | |- context [query ?s ?w1] =>
      destruct (hd false (failures w1)) eqn:H2;
      [rewrite (@query_fail _ s w1 H2); intros [= <- _]; discriminate
      |rewrite (@query_ok _ s w1 H2)]
  end.
  intros [= <- _] [= _ <-].
  split; [reflexivity|]. split; [apply answers_2; now split|]. repeat split.
Qed.


Lemma post_report_insert_fails (req : report_request) (w : world) :
  rq_errors req = [] -> hd false (failures w) = true ->
  exists w',
    post_report req w
    = (Return {| status := 500; json := Failure "Error al crear reporte" |},
       w')
    /\ db w' = db w
    /\ console w' = console w ++ report_log.
Proof.
  intros Herr H1. unfold post_report, try_catch at 1. rewrite Herr.
  unfold bind at 1, uuidv4. unfold bind at 1.
  rewrite query_fail by exact H1. cbn.
  eexists. split; [reflexivity|]. split; [reflexivity|].
  cbn. now rewrite <- app_assoc.
Qed.

Ltac outcome_goal :=
  try discriminate; try tauto; try assumption;
  try (intros;
       repeat match goal with
         | H : _ /\ _ |- _ => destruct H
         | H : _ \/ _ |- _ => destruct H
         end;
       first [contradiction | discriminate | congruence | tauto]).

(** X1. [GET /api/stats/safety-score] answers 400 exactly when [lat] or
    [lng] is missing, and then without calling the store; 500 exactly
    when both are given and one of its two store calls fails, the failure
    being written to the console; 200 otherwise. It never changes a
    table. *)
Theorem safety_score_outcomes (req : score_request) (w : world) :
  exists resp w',
    get_safety_score req w = (Return resp, w')
    /\ db w' = db w
    /\ (status resp = 400%Z <-> q_lat req = None \/ q_lng req = None)
    /\ (status resp = 500%Z
        <-> q_lat req <> None /\ q_lng req <> None /\ ~ answers 2 w)
    /\ (status resp = 200%Z
        <-> q_lat req <> None /\ q_lng req <> None /\ answers 2 w)
    /\ (status resp = 400%Z -> w' = w)
    /\ (status resp = 500%Z ->
        json resp = Failure "Error al calcular safety score"
        /\ console w' = console w ++ score_log)
    /\ (status resp = 200%Z -> console w' = console w).
Proof.
  destruct (get_safety_score_run req w) as (resp & w' & Hrun & Hdb & Hcases).
  exists resp, w'. split; [exact Hrun|]. split; [exact Hdb|].
  destruct Hcases as [(Hmiss & -> & ->)
                     |[((lat & lng & Hlat & Hlng) & Hw & -> & Hlog)
                      |((lat & lng & Hlat & Hlng) & Hw & Hst & _ & Hlog)]].
  - cbn. repeat split; outcome_goal.
  - cbn. rewrite Hlat, Hlng. repeat split; outcome_goal.
  - rewrite Hst, Hlat, Hlng. repeat split; outcome_goal.
Qed.


(** X3. [POST /api/reports] answers 400 exactly when validation left
    errors, and then the world is untouched; 500 exactly when the request
    is valid and the INSERT of the report fails, and then no table
    changes and the console gets the two lines of the failure; 201 in
    every other case, whatever happens to the heat zone. *)
Theorem post_report_outcomes (req : report_request) (w : world) :
  exists resp w',
    post_report req w = (Return resp, w')
    /\ (status resp = 400%Z <-> rq_errors req <> [])
    /\ (status resp = 500%Z
        <-> rq_errors req = [] /\ hd false (failures w) = true)
    /\ (status resp = 201%Z
        <-> rq_errors req = [] /\ hd false (failures w) = false)
    /\ (status resp = 400%Z ->
        json resp = ValidationErrors (rq_errors req) /\ w' = w)
    /\ (status resp = 500%Z ->
        db w' = db w /\ console w' = console w ++ report_log)
    /\ (status resp = 201%Z ->
        List.length (reports (db w')) = S (List.length (reports (db w)))).
Proof.
  destruct (rq_errors req) as [|e es] eqn:Herr.
  - destruct (hd false (failures w)) eqn:H1.
    + destruct (post_report_insert_fails req w Herr H1)
        as (w' & Hrun & Hdb & Hlog).
      do 2 eexists. split; [exact Hrun|]. cbn.
      repeat split; outcome_goal.
    + destruct (post_report_run req w) as (resp & w' & Hrun & Hcases).
      exists resp, w'. split; [exact Hrun|].
      destruct Hcases as [(Hne & _)|[(_ & Hf & _)|(_ & _ & Hcreated)]];
        [congruence|congruence|].
      destruct Hcreated
        as (row & w1 & -> & _ & _ & _ & Hrep & _ & _ & _ & Hupd).
      apply updateHeatZone_other_tables in Hupd as [Hreports _].
      cbn. repeat split; outcome_goal.
      intros _. rewrite Hreports, Hrep, length_app. cbn. lia.
  - unfold post_report, try_catch. rewrite Herr. cbn.
    do 2 eexists. split; [reflexivity|]. cbn.
    repeat split; outcome_goal.
Qed.

(* ================================================================= *)
(** * Score, level and recommendation *)

Lemma clampScore_range (s : Z) : (0 <= clampScore s <= 100)%Z.
Proof. unfold clampScore. lia. Qed.

Lemma clampScore_mono (s t : Z) :
  (s <= t)%Z -> (clampScore s <= clampScore t)%Z.
Proof. unfold clampScore. lia. Qed.

(** X4. A 200 answer of the safety-score handler carries a score between
    0 and 100, and its recommendation goes with its level: the caution
    text with low, the moderate text with medium, the safe text with
    high. A 200 answer of the route handler carries a score between 0 and
    100 as well. *)
Theorem score_level_recommendation_agree :
  (forall req w w' resp msg data,
      get_safety_score req w = (Return resp, w') ->
      json resp = Success msg data ->
      (0 <= s_safetyScore data <= 100)%Z
      /\ (s_safetyLevel data = low
          <-> recommendation data
              = "Se recomienda precaución en esta zona"%string)
      /\ (s_safetyLevel data = medium
          <-> recommendation data = "Zona moderadamente segura"%string)
      /\ (s_safetyLevel data = high
          <-> recommendation data = "Zona segura"%string))
  /\ (forall req w w' resp msg data,
         calculate_route req w = (Return resp, w') ->
         json resp = Success msg data ->
         (0 <= r_safetyScore data <= 100)%Z
         /\ r_safetyLevel data = safetyLevel (r_safetyScore data)).
Proof.
  split.
  - intros req w w' resp msg data Hrun Hjson.
    destruct (get_safety_score_success req w w' resp msg data Hrun Hjson)
      as (lat & lng & _ & _ & _ & _ & Hs & Hl & Hr & _).
    split; [rewrite Hs; apply clampScore_range|].
    rewrite Hl, Hr. unfold safetyLevel.
    destruct (Z.leb_spec 80 (s_safetyScore data)),
             (Z.leb_spec 50 (s_safetyScore data)),
             (Z.ltb_spec (s_safetyScore data) 50),
             (Z.ltb_spec (s_safetyScore data) 80);
      try lia; repeat split; intros; try discriminate; reflexivity.
  - intros req w w' resp msg data Hrun Hjson.
    destruct (calculate_route_success req w w' resp msg data Hrun Hjson)
      as (_ & _ & _ & Hs & Hl & _).
    split; [rewrite Hs; apply clampScore_range|exact Hl].
Qed.

Lemma score_level_recommendation_agree_witness :
  exists data w',
    get_safety_score (score_request_at 0 0) (calm empty_database)
    = (Return {| status := 200; json := Success None data |}, w')
    /\ (0 <= s_safetyScore data <= 100)%Z
    /\ s_safetyLevel data = high
    /\ recommendation data = "Zona segura"%string.
Proof.
  destruct (get_safety_score_ok (score_request_at 0 0) (calm empty_database)
              0%R 0%R eq_refl eq_refl)
    as (data & w' & Hrun & _ & Hs & Hl & _); [constructor|].
  exists data, w'. split; [exact Hrun|].
  destruct (proj1 score_level_recommendation_agree _ _ _ _ _ _ Hrun eq_refl)
    as (Hrange & _ & _ & Hhigh).
  split; [exact Hrange|].
  assert (Hlevel : s_safetyLevel data = high) by (rewrite Hl; reflexivity).
  split; [exact Hlevel|now apply Hhigh].
Defined.

(* ================================================================= *)
(** * A wider radius, a lower score *)

Lemma within_mono (k1 k2 lat lng latitude longitude : R) :
  (k1 <= k2)%R ->
  Geo.within k1 lat lng latitude longitude = true ->
  Geo.within k2 lat lng latitude longitude = true.
Proof.
  unfold Geo.within. rewrite !GeoFacts.Rleb_true. intros; lra.
Qed.

Lemma total_intensity_filter_mono (p q : heat_zone -> bool)
  (zones : list heat_zone) :
  Forall zone_ok zones ->
  (forall z, p z = true -> q z = true) ->
  (total_intensity (filter p zones) <= total_intensity (filter q zones))%Z
  /\ (List.length (filter p zones) <= List.length (filter q zones))%nat.
Proof.
  intros Hok Hpq. induction Hok as [|z zones [Hz _] _ IH]; [split; reflexivity|].
  cbn [filter]. destruct (p z) eqn:Hp.
  - rewrite (Hpq z Hp).
    change (intensity z + total_intensity (filter p zones)
            <= intensity z + total_intensity (filter q zones)
            /\ (S (List.length (filter p zones))
                <= S (List.length (filter q zones)))%nat)%Z.
    lia.
  - destruct (q z).
    + change (total_intensity (filter p zones)
              <= intensity z + total_intensity (filter q zones)
              /\ (List.length (filter p zones)
                  <= S (List.length (filter q zones)))%nat)%Z.
      lia.
    + exact IH.
Qed.

(** X5. Asking the safety score of a point with a wider radius never
    gives a higher score nor fewer zones: every zone counted for the
    smaller radius is counted for the larger one, and no zone has a
    negative intensity. *)
Theorem wider_radius_lower_score (lat lng r1 r2 : R) (w : world) :
  Forall zone_ok (heat_zones (db w)) ->
  (r1 <= r2)%R ->
  answers 2 w ->
  exists d1 d2 w1 w2,
    get_safety_score (score_request_within lat lng r1) w
    = (Return {| status := 200; json := Success None d1 |}, w1)
    /\ get_safety_score (score_request_within lat lng r2) w
       = (Return {| status := 200; json := Success None d2 |}, w2)
    /\ (s_safetyScore d2 <= s_safetyScore d1)%Z
    /\ (dangerZones (details d1) <= dangerZones (details d2))%Z.
Proof.
  intros Hok Hr Hw.
  destruct (get_safety_score_ok (score_request_within lat lng r1) w lat lng
              eq_refl eq_refl Hw)
    as (d1 & w1 & Hrun1 & _ & Hs1 & _ & Hd1 & _).
  destruct (get_safety_score_ok (score_request_within lat lng r2) w lat lng
              eq_refl eq_refl Hw)
    as (d2 & w2 & Hrun2 & _ & Hs2 & _ & Hd2 & _).
  exists d1, d2, w1, w2. split; [exact Hrun1|]. split; [exact Hrun2|].
  cbn [q_radius score_request_within fst SQL.select_zones_within]
    in Hs1, Hs2, Hd1, Hd2.
  destruct (total_intensity_filter_mono
              (fun z => Geo.within r1 lat lng (latitude z) (longitude z))
              (fun z => Geo.within r2 lat lng (latitude z) (longitude z))
              (heat_zones (db w)) Hok) as [Hsum Hlen].
  { intros z. now apply within_mono. }
  rewrite Hs1, Hs2, Hd1, Hd2. unfold stats_tally. rewrite !stats_fold.
  cbn [t_safetyScore]. split; [apply clampScore_mono|]; lia.
Qed.

Lemma wider_radius_lower_score_witness :
  exists d1 d2 w1 w2,
    get_safety_score (score_request_within (-12.0464) (-77.0428) 1)
      (calm seed_database)
    = (Return {| status := 200; json := Success None d1 |}, w1)
    /\ get_safety_score (score_request_within (-12.0464) (-77.0428) 5)
         (calm seed_database)
       = (Return {| status := 200; json := Success None d2 |}, w2)
    /\ (s_safetyScore d2 <= s_safetyScore d1)%Z
    /\ (dangerZones (details d1) <= dangerZones (details d2))%Z.
Proof.
  apply (wider_radius_lower_score (-12.0464) (-77.0428) 1 5
           (calm seed_database)).
  - apply seed_store_ok.
  - lra.
  - constructor.
Defined.

(* ================================================================= *)
(** * The proximity test of the SQL predicates *)





(* ================================================================= *)
(** * A route and its reverse *)




(* ================================================================= *)
(** * More words, a class at least as high *)

Lemma includes_grows (label pre post : JSString.t) (keyword : string) :
  JSString.includes (JSString.toLowerCase label) (JSString.lit keyword) = true ->
  JSString.includes (JSString.toLowerCase (pre ++ label ++ post))
    (JSString.lit keyword) = true.
Proof.
  rewrite !JSStringFacts.includes_spec. intros (a & b & E).
  exists (JSString.toLowerCase pre ++ a), (b ++ JSString.toLowerCase post).
  rewrite !JSStringFacts.toLowerCase_app, E.
  now rewrite <- !app_assoc.
Qed.

(** X8. Putting words before or after a label never moves it down the
    order in which the classes are tried: a label of class accident stays
    accident, one of class crime stays crime or becomes accident, one of
    class congestion stays congestion or moves up, and only a label of
    class danger can become anything. *)
Theorem longer_label_higher_class (pre label post : JSString.t) :
  (class_rank (zoneType label)
   <= class_rank (zoneType (pre ++ label ++ post)))%Z.
Proof.
  pose proof (includes_grows label pre post "accidente") as Ha.
  pose proof (includes_grows label pre post "robo") as Hr.
  pose proof (includes_grows label pre post "crimen") as Hc.
  pose proof (includes_grows label pre post "congestión") as Hg.
  pose proof (includes_grows label pre post "tráfico") as Ht.
  unfold zoneType.
  destruct (JSString.includes (JSString.toLowerCase label)
              (JSString.lit "accidente")) eqn:EHa;
    [rewrite (Ha eq_refl); cbn; lia|clear Ha].
  destruct (JSString.includes (JSString.toLowerCase (pre ++ label ++ post))
              (JSString.lit "accidente")); [cbn [class_rank];
    repeat match goal with |- context [if ?b then _ else _] => destruct b end;
    cbn; lia|].
  destruct (JSString.includes (JSString.toLowerCase label)
              (JSString.lit "robo")) eqn:EHr;
    [rewrite (Hr eq_refl); cbn; lia|clear Hr].
  destruct (JSString.includes (JSString.toLowerCase label)
              (JSString.lit "crimen")) eqn:EHc;
    [rewrite (Hc eq_refl), !orb_true_r; cbn; lia|clear Hc].
  cbn [orb].
  destruct (JSString.includes (JSString.toLowerCase (pre ++ label ++ post))
              (JSString.lit "robo")
            || JSString.includes (JSString.toLowerCase (pre ++ label ++ post))
                 (JSString.lit "crimen"));
    [repeat match goal with |- context [if ?b then _ else _] => destruct b end;
     cbn; lia|].
  destruct (JSString.includes (JSString.toLowerCase label)
              (JSString.lit "congestión")) eqn:EHg;
    [rewrite (Hg eq_refl); cbn; lia|clear Hg].
  destruct (JSString.includes (JSString.toLowerCase label)
              (JSString.lit "tráfico")) eqn:EHt;
    [rewrite (Ht eq_refl), !orb_true_r; cbn; lia|clear Ht].
  cbn [orb class_rank].
  repeat match goal with |- context [if ?b then _ else _] => destruct b end;
    cbn; lia.
Qed.

(* ================================================================= *)
(** * What one incident changes *)

Lemma first_match_split (keep : heat_zone -> bool) (table : list heat_zone)
  (zone : heat_zone) (rest : list heat_zone) :
  filter keep table = zone :: rest ->
  exists before after,
    table = before ++ zone :: after
    /\ filter keep before = []
    /\ keep zone = true.
Proof.
  induction table as [|z table IH]; cbn [filter]; [discriminate|].
  destruct (keep z) eqn:Hz.
  - intros [= -> _]. exists [], table. now repeat split.
  - intros H. destruct (IH H) as (before & after & -> & Hnone & Hkeep).
    exists (z :: before), after. cbn [app filter]. rewrite Hz. now repeat split.
Qed.

Lemma update_zone_frame (d : database) (before after : list heat_zone)
  (zone : heat_zone) :
  heat_zones d = before ++ zone :: after ->
  NoDup (map id (heat_zones d)) ->
  heat_zones (snd (SQL.update_zone (Z.min 10 (intensity zone + 1)) (id zone) d))
  = before ++ bump zone :: after.
Proof.
  intros Htable Hkey. cbn. rewrite Htable in *. rewrite map_app in *.
  cbn [map] in *. rewrite Z.eqb_refl. fold (bump zone).
  apply NoDup_remove_2 in Hkey.
  assert (Hskip : forall l, ~ In (id zone) (map id l) ->
                    map (fun z => if (id z =? id zone)%Z
                                  then {| id := id z; uuid := uuid z;
                                          latitude := latitude z;
                                          longitude := longitude z;
                                          intensity :=
                                            Z.min 10 (intensity zone + 1);
                                          zone_type := zone_type z;
                                          incident_count :=
                                            (incident_count z + 1)%Z |}
                                  else z) l = l).
  { induction l as [|z l IH]; [reflexivity|]. cbn. intros Hnotin.
    destruct (Z.eqb_spec (id z) (id zone)) as [E|_]; [tauto|].
    rewrite IH by tauto. reflexivity. }
  rewrite !Hskip; [reflexivity| |];
    intros Hin; apply Hkey; apply in_or_app; auto.
Qed.

(** What a call of [updateHeatZone] does to the table, row by row. *)
Lemma updateHeatZone_frame (lat lng : R) (label : JSString.t) (w : world) :
  keys_ok (db w) ->
  exists w',
    updateHeatZone lat lng label w = (Return tt, w')
    /\ (heat_zones_id_seq (db w) <= heat_zones_id_seq (db w'))%Z
    /\ (heat_zones (db w') = heat_zones (db w)
        \/ (exists before zone after,
               heat_zones (db w) = before ++ zone :: after
               /\ heat_zones (db w') = before ++ bump zone :: after
               /\ zone_type zone = zoneType label
               /\ Geo.within (1 / 10) lat lng (latitude zone) (longitude zone)
                  = true)
        \/ (heat_zones (db w')
            = heat_zones (db w)
              ++ [fresh_zone (heat_zones_id_seq (db w)) (uuid_seq w) lat lng
                    (zoneType label)]
            /\ forall z, In z (heat_zones (db w)) ->
                         zone_type z = zoneType label ->
                         Geo.within (1 / 10) lat lng (latitude z) (longitude z)
                         = false)).
Proof.
  intros [Hkey _].
  destruct (updateHeatZone_run lat lng label w) as (w' & Hrun & Hcases).
  exists w'. split; [exact Hrun|].
  destruct Hcases as [(_ & Hdb & _)
                     |[(_ & (zone & rest & Hfound & Hdb & _) & _)
                      |(_ & Hfound & Hdb & _)]]; rewrite Hdb.
  - split; [lia|now left].
  - split; [cbn; lia|]. right; left.
    cbn in Hfound.
    destruct (first_match_split _ _ _ _ Hfound)
      as (before & after & Htable & _ & Hkeep).
    apply andb_true_iff in Hkeep as [Hk Hnear].
    exists before, zone, after. split; [exact Htable|].
    split; [now apply update_zone_frame|].
    split; [now destruct (zone_type zone), (zoneType label)|exact Hnear].
  - split; [cbn; lia|]. right; right. split; [reflexivity|].
    intros z Hin Hk. cbn in Hfound.
    destruct (Geo.within (1 / 10) lat lng (latitude z) (longitude z)) eqn:Hnear;
      [|reflexivity].
    assert (Hz : In z (filter
                         (fun z => zone_kind_eqb (zone_type z) (zoneType label)
                                   && Geo.within (1 / 10) lat lng
                                        (latitude z) (longitude z))
                         (heat_zones (db w)))).
    { apply filter_In. split; [exact Hin|]. rewrite Hk, Hnear.
      now destruct (zoneType label). }
    rewrite Hfound in Hz. destruct Hz.
Qed.

(** X9. One call of [updateHeatZone], on a table with a primary key,
    changes at most one row: either nothing; or exactly one zone, of the
    label's class and within 100 m of the incident, is bumped in place;
    or, no zone of that class being within 100 m, one zone is appended at
    the incident's coordinates. A zone of another class, or farther than
    100 m, is never touched. *)
Theorem incident_touches_one_zone (lat lng : R) (label : JSString.t)
  (w : world) :
  keys_ok (db w) ->
  exists w',
    updateHeatZone lat lng label w = (Return tt, w')
    /\ (heat_zones (db w') = heat_zones (db w)
        \/ (exists before zone after,
               heat_zones (db w) = before ++ zone :: after
               /\ heat_zones (db w') = before ++ bump zone :: after
               /\ zone_type zone = zoneType label
               /\ Geo.within (1 / 10) lat lng (latitude zone) (longitude zone)
                  = true)
        \/ (heat_zones (db w')
            = heat_zones (db w)
              ++ [fresh_zone (heat_zones_id_seq (db w)) (uuid_seq w) lat lng
                    (zoneType label)]
            /\ forall z, In z (heat_zones (db w)) ->
                         zone_type z = zoneType label ->
                         Geo.within (1 / 10) lat lng (latitude z) (longitude z)
                         = false))
    /\ (forall z,
           In z (heat_zones (db w)) ->
           zone_type z <> zoneType label
           \/ Geo.within (1 / 10) lat lng (latitude z) (longitude z) = false ->
           In z (heat_zones (db w'))).
Proof.
  intros Hkeys.
  destruct (updateHeatZone_frame lat lng label w Hkeys)
    as (w' & Hrun & _ & Hcases).
  exists w'. split; [exact Hrun|]. split; [exact Hcases|].
  intros z Hin Hfar.
  destruct Hcases as [->|[(before & zone & after & Hold & -> & Hk & Hnear)
                         |[-> _]]].
  - exact Hin.
  - rewrite Hold in Hin. apply in_app_or in Hin as [Hin|[<-|Hin]].
    + apply in_or_app. now left.
    + destruct Hfar as [Hfar|Hfar]; [contradiction|congruence].
    + apply in_or_app. right. now right.
  - apply in_or_app. now left.
Qed.

Lemma incident_touches_one_zone_witness :
  exists w',
    updateHeatZone (-12.0464) (-77.0428) (JSString.lit "Robo")
      (calm single_zone_database) = (Return tt, w')
    /\ heat_zones (db w')
       = [bump (seed_zone 1 (-12.0464) (-77.0428) 7 crime 15)].
Proof.
  destruct (incident_touches_one_zone (-12.0464) (-77.0428)
              (JSString.lit "Robo") (calm single_zone_database))
    as (w' & Hrun & Hcases & _).
  - split; cbn.
    + repeat constructor. intros [].
    + repeat constructor.
  - exists w'. split; [exact Hrun|].
    destruct (updateHeatZone_bumps (-12.0464) (-77.0428)
                (JSString.lit "Robo") (calm single_zone_database) []
                (seed_zone 1 (-12.0464) (-77.0428) 7 crime 15))
      as (w'' & Hrun' & Htable & _).
    + constructor.
    + reflexivity.
    + apply select_last_only with (table := []); try reflexivity.
      intros z [].
    + constructor.
    + rewrite Hrun in Hrun'. injection Hrun' as <-. exact Htable.
Defined.

(* ================================================================= *)
(** * Zones of one type keep their distance *)

Lemma separated_app_one (zones : list heat_zone) (zone : heat_zone) :
  separated zones ->
  (forall a, In a zones -> zone_type a = zone_type zone ->
             Geo.within (1 / 10) (latitude zone) (longitude zone)
               (latitude a) (longitude a) = false) ->
  separated (zones ++ [zone]).
Proof.
  unfold separated. intros Hsep Hfar.
  induction Hsep as [|a zones Ha _ IH]; cbn [app].
  - constructor; constructor.
  - constructor.
    + apply Forall_app. split; [exact Ha|].
      constructor; [|constructor]. intros E. apply Hfar; [apply in_eq|exact E].
    + apply IH. intros b Hb. apply Hfar. now right.
Qed.

Lemma separated_bump (before after : list heat_zone) (zone : heat_zone) :
  separated (before ++ zone :: after) ->
  separated (before ++ bump zone :: after).
Proof.
  unfold separated. induction before as [|a before IH]; cbn [app]; intros H;
    inversion H as [|? ? Ha Hrest]; subst.
  - constructor; assumption.
  - constructor; [|now apply IH].
    apply Forall_app in Ha as [Hb Hza]. apply Forall_app. split; [exact Hb|].
    inversion Hza; subst. constructor; assumption.
Qed.

Lemma updateHeatZone_separated (lat lng : R) (label : JSString.t)
  (w w' : world) (r : outcome unit) :
  keys_ok (db w) -> separated (heat_zones (db w)) ->
  updateHeatZone lat lng label w = (r, w') ->
  separated (heat_zones (db w')).
Proof.
  intros Hkeys Hsep Hrun.
  destruct (updateHeatZone_frame lat lng label w Hkeys)
    as (w'' & Hrun' & _ & Hcases).
  rewrite Hrun in Hrun'. injection Hrun' as _ <-.
  destruct Hcases as [->|[(before & zone & after & Hold & -> & _)
                         |[-> Hfar]]].
  - exact Hsep.
  - rewrite Hold in Hsep. now apply separated_bump.
  - apply separated_app_one; [exact Hsep|]. exact Hfar.
Qed.

(** X10. If no two zones of one type lie within 100 m of each other, no
    sequence of requests makes two do so: a zone is created only where
    none of its type is within 100 m, and zones never move. *)
Theorem zones_stay_separated (w0 w : world) :
  store_ok (db w0) ->
  separated (heat_zones (db w0)) ->
  reachable w0 w ->
  separated (heat_zones (db w)).
Proof.
  intros Hok0 Hsep0 Hreach.
  enough (store_ok (db w) /\ separated (heat_zones (db w))) by tauto.
  induction Hreach as [|w w' _ [Hok Hsep] Hstep]; [now split|].
  split; [now apply (step_invariant w w')|].
  destruct Hstep as [req w r w' Hrun|req w r w' Hrun|req w r w' Hrun|fs w].
  - destruct (post_report_run req w) as (resp & w'' & Hrun' & Hcases).
    rewrite Hrun in Hrun'. injection Hrun' as _ <-.
    destruct Hcases as [(_ & _ & ->)
                       |[(_ & _ & _ & Hdb)
                        |(_ & _ & row & w1 & _ & _ & _ & _ & _
                          & Hz & Hseq & _ & Hupd)]].
    + exact Hsep.
    + now rewrite Hdb.
    + eapply updateHeatZone_separated; [| |exact Hupd].
      * apply (store_ok_same _ _ Hz Hseq Hok).
      * now rewrite Hz.
  - apply get_safety_score_reads in Hrun. now rewrite Hrun.
  - apply calculate_route_reads in Hrun. now rewrite Hrun.
  - exact Hsep.
Qed.

Lemma zones_stay_separated_witness :
  separated (heat_zones (db after_one_crime)).
Proof.
  apply (zones_stay_separated (calm single_zone_database)).
  - split; [|split]; cbn.
    + repeat constructor; cbn; lia.
    + repeat constructor. intros [].
    + repeat constructor.
  - repeat constructor.
  - eapply reach_step; [apply reach_start|].
    eapply step_report. apply surjective_pairing.
Defined.

(* ================================================================= *)
(** * Numbers read from a request *)

Example parseInt_examples :
  JSNumber.parseInt (JSString.lit "20") = Some 20%Z
  /\ JSNumber.parseInt (JSString.lit "  7 days") = Some 7%Z
  /\ JSNumber.parseInt (JSString.lit "12.9") = Some 12%Z
  /\ JSNumber.parseInt (JSString.lit "1e3") = Some 1%Z
  /\ JSNumber.parseInt (JSString.lit "0x1F") = Some 31%Z
  /\ JSNumber.parseInt (JSString.lit "-1") = Some (-1)%Z
  /\ JSNumber.parseInt (JSString.lit "abc") = None
  /\ JSNumber.parseInt (JSString.lit "") = None
  /\ JSNumber.parseInt (JSString.lit "9007199254740993")
     = Some 9007199254740992%Z.
Proof. repeat split; vm_compute; reflexivity. Qed.

(* ================================================================= *)
(** * Ordered and limited selections *)

Section RowsFacts.
Import Rows.
Local Open Scope Z_scope.
Context {A : Type} (key : A -> Z * Z).

Lemma insert_desc_perm (x : A) (l : list A) :
  Permutation (insert_desc key x l) (x :: l).
Proof.
  induction l as [|y l IH]; [reflexivity|]. cbn.
  destruct (key x) as [x1 x2], (key y) as [y1 y2].
  destruct ((y1 <? x1) || ((y1 =? x1) && (y2 <? x2))); [reflexivity|].
  rewrite IH. apply perm_swap.
Qed.

Lemma order_by_desc_perm (l : list A) : Permutation (order_by_desc key l) l.
Proof.
  induction l as [|x l IH]; [reflexivity|]. cbn.
  fold (order_by_desc key l). rewrite insert_desc_perm. now rewrite IH.
Qed.

Lemma ranks_before_trans (a b c : A) :
  ranks_before key a b -> ranks_before key b c -> ranks_before key a c.
Proof. unfold ranks_before. lia. Qed.

Lemma insert_desc_ranked (x : A) (l : list A) :
  StronglySorted (ranks_before key) l ->
  StronglySorted (ranks_before key) (insert_desc key x l).
Proof.
  induction 1 as [|y l Hs IH Hy]; cbn; [repeat constructor|].
  destruct (key x) as [x1 x2] eqn:Ex, (key y) as [y1 y2] eqn:Ey.
  destruct ((y1 <? x1) || ((y1 =? x1) && (y2 <? x2))) eqn:E.
  - assert (Hxy : ranks_before key x y).
    { unfold ranks_before. rewrite Ex, Ey. cbn. lia. }
    constructor; [now constructor|]. constructor; [exact Hxy|].
    eapply Forall_impl; [|exact Hy]. intros c. now apply ranks_before_trans.
  - constructor; [exact IH|].
    assert (Hyx : ranks_before key y x).
    { unfold ranks_before. rewrite Ex, Ey. cbn. lia. }
    eapply Permutation_Forall; [symmetry; apply insert_desc_perm|].
    now constructor.
Qed.

Lemma order_by_desc_ranked (l : list A) :
  StronglySorted (ranks_before key) (order_by_desc key l).
Proof.
  induction l as [|x l IH]; [constructor|]. now apply insert_desc_ranked.
Qed.

Lemma limit_offset_run (n m : option Z) (l : list A) :
  (accepts n m
   /\ exists n' m', n = Some n' /\ m = Some m'
                    /\ limit_offset n m l = Some (page n' m' l))
  \/ (~ accepts n m /\ limit_offset n m l = None).
Proof.
  unfold limit_offset, accepts, page.
  destruct n as [n|], m as [m|];
    try (right; split; [intros (? & ? & ? & ? & _); discriminate|reflexivity]).
  destruct ((0 <=? n) && (n <? 2 ^ 63) && (0 <=? m) && (m <? 2 ^ 63)) eqn:E.
  - left. split; [exists n, m|exists n, m]; repeat split; auto; lia.
  - right. split; [|reflexivity].
    intros (n' & m' & [= <-] & [= <-] & ? & ?). lia.
Qed.

Lemma page_ranked (R : A -> A -> Prop) (n m : Z) (l : list A) :
  StronglySorted R l -> StronglySorted R (page n m l).
Proof.
  unfold page. intros H.
  assert (Hskip : forall k, StronglySorted R (skipn k l)).
  { induction H as [|x l Hs IH Hx]; intros [|k]; cbn;
      try constructor; auto. }
  generalize (Hskip (Z.to_nat m)). generalize (skipn (Z.to_nat m) l).
  intros l' H'. clear - H'.
  induction H' as [|x l' Hs IH Hx]; intros; destruct (Z.to_nat n);
    cbn; try constructor.
  - clear - Hs. revert n0. induction Hs as [|y l Hs IH Hy]; intros [|k];
      cbn; constructor; auto.
    clear - Hy. revert k. induction Hy; intros [|k]; cbn; constructor; auto.
  - clear - Hx. revert n0. induction Hx; intros [|k]; cbn; constructor; auto.
Qed.

Lemma page_incl (n m : Z) (l : list A) (x : A) : In x (page n m l) -> In x l.
Proof.
  unfold page. intros H.
  assert (Hfirst : forall k l', In x (firstn k l') -> In x l').
  { induction k as [|k IH]; intros [|y l']; cbn; try easy.
    intros [->|H']; [now left|right; now apply IH]. }
  apply Hfirst in H.
  revert H. generalize (Z.to_nat m). induction l as [|y l IH]; intros [|k];
    cbn; auto. intros H. right. now apply (IH k).
Qed.

Lemma page_length (n m : Z) (l : list A) :
  0 <= n -> Z.of_nat (List.length (page n m l)) <= n.
Proof.
  unfold page. intros H. rewrite length_firstn. lia.
Qed.

End RowsFacts.

(* ================================================================= *)
(** * Accounts, saved routes and reports *)

Section SiteFacts.
Import Site.
Local Open Scope site_scope.

Lemma JSNumber_eqb_eq (a b : JSString.t) : JSNumber.eqb a b = true <-> a = b.
Proof.
  revert b. induction a as [|x a IH]; intros [|y b]; cbn; try easy.
  rewrite andb_true_iff, N.eqb_eq, IH. split; [intros [-> ->]|intros [= -> ->]]; auto.
Qed.

(** One call of [query]: the statement runs if the store answers and
    accepts it; if not, the failure is logged and thrown again, and no
    table changes. *)
Lemma site_query_run {A} (stmt : tables -> Z -> option (A * tables))
  (s : env) :
  query stmt s
  = match (if hd false (fails s) then None else stmt (tbl s) (now s)) with
    | Some (rows, t) => (Done rows, set_tbl t (set_fails (tl (fails s)) s))
    | None =>
        (Raised StoreFault,
         {| tbl := tbl s; fails := tl (fails s); uuids := uuids s;
            now := now s; errlog := errlog s ++ ["Error en query:"%string];
            jwt := jwt s |})
    end.
Proof.
  unfold query, try_catch, pool_query.
  destruct (hd false (fails s)); [reflexivity|].
  now destruct (stmt (tbl s) (now s)) as [[rows t]|].
Qed.

Lemma startsWith_truthy (h : JSString.t) :
  JSString.startsWith h (JSString.lit "Bearer ") = true ->
  JSNumber.truthy (Some h) = true.
Proof. now destruct h. Qed.

(** What [verifyToken] does on a header with a bearer token, by what
    [jwt.verify] makes of the token. *)
Lemma verifyToken_run {D} (h : JSString.t) (s : env) :
  JSString.startsWith h (JSString.lit "Bearer ") = true ->
  verifyToken (D := D) (Some h) s
  = match jwt s (bearer_token h) with
    | Done decoded =>
        if hd false (fails s)
        then
          (Done (Answered {| status := 500;
                             json := Failure "Error de autenticación" |}),
           {| tbl := tbl s; fails := tl (fails s); uuids := uuids s;
              now := now s;
              errlog := errlog s ++ ["Error en query:";
                                     "Error en autenticación:"]%string;
              jwt := jwt s |})
        else
          (Done match users_named decoded (tbl s) with
                | [] => Answered (unauthorized "Usuario no encontrado")
                | user :: _ =>
                    if u_is_active user then Next user
                    else Answered (unauthorized "Cuenta desactivada")
                end,
           set_tbl (tbl s) (set_fails (tl (fails s)) s))
    | Raised TokenExpiredError =>
        (Done (Answered (unauthorized "Token expirado")), s)
    | Raised JsonWebTokenError =>
        (Done (Answered (unauthorized "Token inválido")), s)
    | Raised _ =>
        (Done (Answered {| status := 500;
                           json := Failure "Error de autenticación" |}),
         {| tbl := tbl s; fails := fails s; uuids := uuids s; now := now s;
            errlog := errlog s ++ ["Error en autenticación:"%string];
            jwt := jwt s |})
    end.
Proof.
  intros Hb. unfold verifyToken.
  rewrite (startsWith_truthy h Hb), Hb. cbn [andb].
  unfold try_catch at 1, bind at 1, jwt_verify.
  destruct (jwt s (bearer_token h)) as [decoded|[]] eqn:Ej; try reflexivity.
  unfold bind. rewrite site_query_run. unfold SQL.select_user, users_named.
  destruct (hd false (fails s)); cbn.
  - rewrite <- app_assoc. reflexivity.
  - destruct decoded as [x|]; cbn; [|reflexivity].
    destruct (filter _ _) as [|user rest]; cbn; [reflexivity|].
    now destruct (u_is_active user).
Qed.

Lemma verifyToken_no_bearer {D} (authorization : option JSString.t)
  (s : env) :
  no_bearer authorization ->
  verifyToken (D := D) authorization s
  = (Done (Answered (unauthorized "Token de acceso requerido")), s).
Proof.
  unfold no_bearer, verifyToken. destruct authorization as [h|]; [|easy].
  intros ->. now rewrite andb_false_r.
Qed.

Lemma bearer_or_not (authorization : option JSString.t) :
  no_bearer authorization
  \/ exists h, authorization = Some h
               /\ JSString.startsWith h (JSString.lit "Bearer ") = true.
Proof.
  destruct authorization as [h|]; [|now left].
  destruct (JSString.startsWith h (JSString.lit "Bearer ")) eqn:E.
  - right. now exists h.
  - now left.
Qed.

(** What [optionalAuth] does on a header with a bearer token. *)
Lemma optionalAuth_run (h : JSString.t) (s : env) :
  JSString.startsWith h (JSString.lit "Bearer ") = true ->
  optionalAuth (Some h) s
  = match jwt s (bearer_token h) with
    | Done decoded =>
        if hd false (fails s)
        then
          (Done None,
           {| tbl := tbl s; fails := tl (fails s); uuids := uuids s;
              now := now s;
              errlog := errlog s ++ ["Error en query:"%string];
              jwt := jwt s |})
        else
          (Done (hd_error (filter u_is_active (users_named decoded (tbl s)))),
           set_tbl (tbl s) (set_fails (tl (fails s)) s))
    | Raised _ => (Done None, s)
    end.
Proof.
  intros Hb. unfold optionalAuth.
  rewrite (startsWith_truthy h Hb), Hb. cbn [andb].
  unfold try_catch at 1, bind at 1, jwt_verify.
  destruct (jwt s (bearer_token h)) as [decoded|e] eqn:Ej; [|reflexivity].
  unfold bind. rewrite site_query_run.
  unfold SQL.select_active_user, users_named.
  destruct (hd false (fails s)); cbn; [reflexivity|].
  destruct decoded as [x|]; cbn; [|reflexivity].
  assert (E : forall us,
             filter (fun r => (u_uuid r =? x)%N && u_is_active r) us
             = filter u_is_active (filter (fun r => (u_uuid r =? x)%N) us)).
  { induction us as [|a us IH]; [reflexivity|]. cbn.
    destruct (u_uuid a =? x)%N; cbn; [|exact IH].
    destruct (u_is_active a); now rewrite IH. }
  rewrite E. now destruct (filter u_is_active _).
Qed.

Lemma optionalAuth_no_bearer (authorization : option JSString.t) (s : env) :
  no_bearer authorization -> optionalAuth authorization s = (Done None, s).
Proof.
  unfold no_bearer, optionalAuth. destruct authorization as [h|]; [|easy].
  intros ->. now rewrite andb_false_r.
Qed.

(** Under the UNIQUE constraint on [users.uuid] a payload names at most
    one user. *)
Lemma users_named_unique (decoded : option N) (t : tables) :
  NoDup (map u_uuid (users t)) ->
  users_named decoded t = []
  \/ exists u, users_named decoded t = [u].
Proof.
  unfold users_named. destruct decoded as [x|]; [|now left].
  induction (users t) as [|a us IH]; intros Hnd; [now left|].
  inversion Hnd as [|? ? Hnotin Hnd']; subst. cbn.
  destruct (u_uuid a =? x)%N eqn:E.
  - right. exists a. f_equal.
    apply N.eqb_eq in E.
    clear IH Hnd Hnd'. induction us as [|b us IHu]; [reflexivity|].
    cbn in *. destruct (u_uuid b =? x)%N eqn:Eb.
    + apply N.eqb_eq in Eb. exfalso. apply Hnotin. left. congruence.
    + apply IHu. tauto.
  - now apply IH.
Qed.

(** Rows ordered by [created_at DESC] are newest first. *)
Lemma order_newest_first {A} (created : A -> Z) (l : list A) :
  newest_first created
    (Rows.order_by_desc (fun r => (created r, 0%Z)) l).
Proof.
  unfold newest_first.
  pose proof (order_by_desc_ranked (fun r => (created r, 0%Z)) l) as H.
  induction H as [|x l' Hs IH Hx]; constructor; [exact IH|].
  eapply Forall_impl; [|exact Hx]. unfold Rows.ranks_before. cbn. lia.
Qed.

Lemma owned_spec (uuid : N) (user_id : Z) (r : safe_route) :
  SQL.owned uuid user_id r = true
  <-> sr_uuid r = uuid /\ sr_user_id r = user_id.
Proof.
  unfold SQL.owned. now rewrite andb_true_iff, N.eqb_eq, Z.eqb_eq.
Qed.

(** A selection is empty exactly when no row qualifies. *)
Lemma no_route_selected (keep : safe_route -> bool) (l : list safe_route) :
  filter keep l = [] <-> ~ exists r, In r l /\ keep r = true.
Proof.
  split.
  - intros E [r Hr]. apply filter_In in Hr. now rewrite E in Hr.
  - intros H. destruct (filter keep l) as [|r rest] eqn:E; [reflexivity|].
    destruct H. exists r. apply filter_In. rewrite E. now left.
Qed.

Lemma others_kept_by_delete (uuid : N) (user_id : Z) (l : list safe_route) :
  filter (fun r => negb (sr_user_id r =? user_id)%Z)
    (filter (fun r => negb (SQL.owned uuid user_id r)) l)
  = filter (fun r => negb (sr_user_id r =? user_id)%Z) l.
Proof.
  induction l as [|r l IH]; [reflexivity|]. cbn.
  destruct (SQL.owned uuid user_id r) eqn:Eo; cbn.
  - apply owned_spec in Eo. destruct Eo as [_ Eu].
    rewrite (proj2 (Z.eqb_eq _ _) Eu). cbn. exact IH.
  - destruct (sr_user_id r =? user_id)%Z; cbn; now rewrite IH.
Qed.

Lemma others_kept_by_update (f : option bool) (uuid : N) (user_id : Z)
  (l : list safe_route) :
  filter (fun r => negb (sr_user_id r =? user_id)%Z)
    (map (fun r => if SQL.owned uuid user_id r
                   then SQL.with_favorite f r else r) l)
  = filter (fun r => negb (sr_user_id r =? user_id)%Z) l.
Proof.
  induction l as [|r l IH]; [reflexivity|]. cbn.
  destruct (SQL.owned uuid user_id r) eqn:Eo; cbn.
  - apply owned_spec in Eo. destruct Eo as [_ Eu].
    rewrite (proj2 (Z.eqb_eq _ _) Eu). cbn. exact IH.
  - destruct (sr_user_id r =? user_id)%Z; cbn; now rewrite IH.
Qed.

Lemma others_kept_by_insert (row : safe_route) (user_id : Z)
  (l : list safe_route) :
  sr_user_id row = user_id ->
  filter (fun r => negb (sr_user_id r =? user_id)%Z) (l ++ [row])
  = filter (fun r => negb (sr_user_id r =? user_id)%Z) l.
Proof.
  intros E. rewrite filter_app. cbn. rewrite E, Z.eqb_refl. cbn.
  apply app_nil_r.
Qed.

(** The two ways [verifyToken] ends: with the user the request is for,
    one call of the store later; or with an answer of its own. *)
Lemma verifyToken_outcome {D} (authorization : option JSString.t) (s : env) :
  (exists u s1,
      verifyToken (D := D) authorization s = (Done (Next u), s1)
      /\ admits authorization s u
      /\ In u (users (tbl s))
      /\ s1 = set_tbl (tbl s) (set_fails (tl (fails s)) s))
  \/ (exists r s1,
         verifyToken (D := D) authorization s = (Done (Answered r), s1)
         /\ (forall u, ~ admits authorization s u)
         /\ tbl s1 = tbl s
         /\ (status r = 401 \/ status r = 500)%Z).
Proof.
  destruct (bearer_or_not authorization) as [Hno|[h [-> Hb]]].
  - right. rewrite (verifyToken_no_bearer authorization s Hno).
    eexists _, _. split; [reflexivity|]. split; [|split; [reflexivity|now left]].
    intros u [decoded [[h [-> [Hb _]]] _]].
    cbv beta iota delta [no_bearer] in Hno. congruence.
  - rewrite (verifyToken_run h s Hb). unfold admits, served, bears.
    destruct (jwt s (bearer_token h)) as [decoded|e] eqn:Ej.
    + destruct (hd false (fails s)) eqn:Ef.
      * right. eexists _, _. split; [reflexivity|].
        split; [|split; [reflexivity|now right]].
        intros u [d [_ [? _]]]. discriminate.
      * destruct (users_named decoded (tbl s)) as [|user rest] eqn:Eu;
          [|destruct (u_is_active user) eqn:Ea].
        -- right. eexists _, _. split; [reflexivity|].
           split; [|split; [reflexivity|now left]].
           intros u [d [[h' [[= <-] [_ Hj]]] [_ [Hu _]]]].
           rewrite Ej in Hj. injection Hj as <-. now rewrite Eu in Hu.
        -- left. eexists _, _. split; [reflexivity|]. split; [|split].
           ++ exists decoded. repeat split; auto; [now exists h|now rewrite Eu].
           ++ assert (H : In user (users_named decoded (tbl s)))
                by (rewrite Eu; now left).
              unfold users_named in H. destruct decoded; [|easy].
              now apply filter_In in H.
           ++ reflexivity.
        -- right. eexists _, _. split; [reflexivity|].
           split; [|split; [reflexivity|now left]].
           intros u [d [[h' [[= <-] [_ Hj]]] [_ [Hu Ha]]]].
           rewrite Ej in Hj. injection Hj as <-. rewrite Eu in Hu.
           cbn in Hu. congruence.
    + right.
      assert (Hnone : forall u : user,
                 ~ (exists decoded,
                       (exists authHeader,
                           Some h = Some authHeader
                           /\ JSString.startsWith authHeader
                                (JSString.lit "Bearer ") = true
                           /\ jwt s (bearer_token authHeader) = Done decoded)
                       /\ hd false (fails s) = false
                       /\ hd_error (users_named decoded (tbl s)) = Some u
                       /\ u_is_active u = true)).
      { intros u [d [[h' [[= <-] [_ Hj]]] _]]. congruence. }
      destruct e; eexists _, _; (split; [reflexivity|]);
        (split; [exact Hnone|]); (split; [reflexivity|]);
        cbn; auto.
Qed.

(** A route behind [verifyToken] runs its handler for the user of the
    token, or not at all. *)
Lemma behind_token_run {D} (authorization : option JSString.t)
  (handler : user -> act (response D)) (s : env) :
  (exists u,
      admits authorization s u
      /\ In u (users (tbl s))
      /\ behind_token authorization handler s
         = handler u (set_tbl (tbl s) (set_fails (tl (fails s)) s)))
  \/ (exists r s1,
         behind_token authorization handler s = (Done r, s1)
         /\ (forall u, ~ admits authorization s u)
         /\ tbl s1 = tbl s
         /\ (status r = 401 \/ status r = 500)%Z).
Proof.
  unfold behind_token, bind.
  destruct (verifyToken_outcome (D := D) authorization s)
    as [(u & s1 & -> & Ha & Hin & ->)|(r & s1 & -> & Hn & Ht & Hr)].
  - left. exists u. auto.
  - right. exists r, s1. auto.
Qed.

(** The three handlers that write [safe_routes] leave the routes of the
    others, the users and the reports alone. *)
Lemma save_route_frame (req : save_request) (req_user : user) (s : env) :
  exists resp s',
    save_route req req_user s = (Done resp, s')
    /\ routes_of_others (u_id req_user) (tbl s')
       = routes_of_others (u_id req_user) (tbl s)
    /\ users (tbl s') = users (tbl s)
    /\ reports (tbl s') = reports (tbl s).
Proof.
  unfold save_route, try_catch.
  destruct (s_errors req); [|eexists _, _; split; [reflexivity|auto]].
  unfold bind at 1, uuidv4. unfold bind. rewrite site_query_run.
  cbn [fails tbl now]. unfold SQL.insert_route.
  destruct (hd false (fails s));
    [eexists _, _; split; [reflexivity|auto]|].
  destruct (SQL.admitted _ _ _); eexists _, _; (split; [reflexivity|]);
    cbn; auto.
  split; [|auto]. unfold routes_of_others. cbn.
  now apply others_kept_by_insert.
Qed.

Lemma set_favorite_frame (uuid : N) (isFavorite : option bool)
  (req_user : user) (s : env) :
  exists resp s',
    set_favorite uuid isFavorite req_user s = (Done resp, s')
    /\ routes_of_others (u_id req_user) (tbl s')
       = routes_of_others (u_id req_user) (tbl s)
    /\ users (tbl s') = users (tbl s)
    /\ reports (tbl s') = reports (tbl s).
Proof.
  unfold set_favorite, try_catch, bind. rewrite site_query_run.
  unfold SQL.update_favorite.
  destruct (hd false (fails s));
    [eexists _, _; split; [reflexivity|auto]|].
  destruct (filter _ _); eexists _, _; (split; [reflexivity|]); cbn;
    (split; [|auto]); unfold routes_of_others; cbn;
    apply others_kept_by_update.
Qed.

Lemma delete_route_frame (uuid : N) (req_user : user) (s : env) :
  exists resp s',
    delete_route uuid req_user s = (Done resp, s')
    /\ routes_of_others (u_id req_user) (tbl s')
       = routes_of_others (u_id req_user) (tbl s)
    /\ users (tbl s') = users (tbl s)
    /\ reports (tbl s') = reports (tbl s).
Proof.
  unfold delete_route, try_catch, bind. rewrite site_query_run.
  unfold SQL.delete_route.
  destruct (hd false (fails s));
    [eexists _, _; split; [reflexivity|auto]|].
  destruct (filter _ _); eexists _, _; (split; [reflexivity|]); cbn;
    (split; [|auto]); unfold routes_of_others; cbn;
    apply others_kept_by_delete.
Qed.

(** A handler that leaves the routes of the others alone, put behind
    [verifyToken], changes at most the routes of the token's user. *)
Lemma behind_token_isolates {D} (authorization : option JSString.t)
  (handler : user -> act (response D)) (s : env) :
  (forall u s1,
      tbl s1 = tbl s ->
      exists resp s',
        handler u s1 = (Done resp, s')
        /\ routes_of_others (u_id u) (tbl s')
           = routes_of_others (u_id u) (tbl s1)
        /\ users (tbl s') = users (tbl s1)
        /\ reports (tbl s') = reports (tbl s1)) ->
  exists resp s',
    behind_token authorization handler s = (Done resp, s')
    /\ only_own_routes authorization s s'
    /\ ((forall u, ~ admits authorization s u) ->
        tbl s' = tbl s /\ (status resp = 401 \/ status resp = 500)%Z).
Proof.
  intros Hh.
  destruct (behind_token_run authorization handler s)
    as [(u & Ha & Hin & ->)|(r & s1 & -> & Hn & Ht & Hr)].
  - destruct (Hh u (set_tbl (tbl s) (set_fails (tl (fails s)) s)) eq_refl)
      as (resp & s' & -> & Ho & Hu & Hp).
    exists resp, s'. split; [reflexivity|]. split.
    + right. exists u. auto.
    + intros Hn. destruct (Hn u Ha).
  - exists r, s1. split; [reflexivity|]. split; [now left|auto].
Qed.

(** The demands of the table, as a proposition. *)
Lemma admitted_spec (r : safe_route) (t : tables) :
  SQL.admitted (safe_routes_id_seq t) r t = true <-> insertable r t.
Proof.
  unfold SQL.admitted, insertable. rewrite !andb_true_iff, !negb_true_iff.
  assert (Hu : existsb (fun u => (u_id u =? sr_user_id r)%Z) (users t) = true
               <-> exists v, In v (users t) /\ u_id v = sr_user_id r).
  { rewrite existsb_exists. split; intros [v [Hv E]]; exists v;
      (split; [exact Hv|lia]). }
  assert (Hx : existsb (fun x => (sr_uuid x =? sr_uuid r)%N) (safe_routes t)
               = false
               <-> ~ In (sr_uuid r) (map sr_uuid (safe_routes t))).
  { rewrite <- not_true_iff_false, existsb_exists, in_map_iff.
    split; intros H [x [H1 H2]]; apply H; exists x.
    - split; [exact H2|now apply N.eqb_eq].
    - split; [now apply N.eqb_eq|exact H1]. }
  assert (Hi : existsb (fun x => (sr_id x =? safe_routes_id_seq t)%Z)
                 (safe_routes t) = false
               <-> ~ In (safe_routes_id_seq t) (map sr_id (safe_routes t))).
  { rewrite <- not_true_iff_false, existsb_exists, in_map_iff.
    split; intros H [x [H1 H2]]; apply H; exists x.
    - split; [exact H2|lia].
    - split; [lia|exact H1]. }
  assert (Hn : Rows.varchar 255 (sr_name r) = true
               <-> forall x, sr_name r = Some x -> (Rows.chars x <= 255)%Z).
  { unfold Rows.varchar. destruct (sr_name r) as [x|].
    - rewrite Z.leb_le. split; [now intros H y [= <-]|auto].
    - split; [discriminate|reflexivity]. }
  assert (He : Rows.integer (estimated_time_min r) = true
               <-> forall n, estimated_time_min r = Some n
                             -> (- 2 ^ 31 <= n < 2 ^ 31)%Z).
  { unfold Rows.integer. destruct (estimated_time_min r) as [n|].
    - rewrite andb_true_iff, Z.leb_le, Z.ltb_lt.
      split; [now intros H y [= <-]|auto].
    - split; [discriminate|reflexivity]. }
  rewrite Hu, Hx, Hi, Hn, He, Z.leb_le, Z.leb_le. tauto.
Qed.

(** The row of a request is admitted or not whatever id and time it is
    given. *)
Lemma admitted_route_saved (req : save_request) (req_user : user) (s : env)
  (n c : Z) :
  SQL.admitted (safe_routes_id_seq (tbl s))
    {| sr_id := n; sr_uuid := uuids s;
       sr_user_id := u_id req_user;
       sr_name := or_null (s_name req);
       origin_lat := s_originLat req;
       origin_lng := s_originLng req;
       origin_address := or_null (s_originAddress req);
       destination_lat := s_destinationLat req;
       destination_lng := s_destinationLng req;
       destination_address := or_null (s_destinationAddress req);
       waypoints := s_waypoints req;
       safety_score := match s_safetyScore req with Some n => n | None => 0 end;
       distance_km := nonzero_or_null_R (s_distanceKm req);
       estimated_time_min := nonzero_or_null (s_estimatedTimeMin req);
       is_favorite := match s_isFavorite req with
                      | Some given => given
                      | None => Some false
                      end;
       created_at := c |} (tbl s)
  = SQL.admitted (safe_routes_id_seq (tbl s)) (route_saved req req_user s)
      (tbl s).
Proof. reflexivity. Qed.

(** What [POST /api/routes] does with a valid request the store takes. *)
Lemma save_route_stored (req : save_request) (req_user : user) (s : env) :
  s_errors req = [] ->
  served s ->
  insertable (route_saved req req_user s) (tbl s) ->
  save_route req req_user s
  = (Done {| status := 201;
             json := Success (Some "Ruta guardada exitosamente"%string)
                       (Some (saved_route_of (route_saved req req_user s))) |},
     {| tbl := SQL.set_safe_routes
                 (safe_routes (tbl s) ++ [route_saved req req_user s])
                 (safe_routes_id_seq (tbl s) + 1) (tbl s);
        fails := tl (fails s); uuids := N.succ (uuids s); now := now s;
        errlog := errlog s; jwt := jwt s |}).
Proof.
  intros He Hs Hi. unfold save_route, try_catch. rewrite He.
  unfold bind at 1, uuidv4. unfold bind. rewrite site_query_run.
  cbn [fails tbl now]. red in Hs. rewrite Hs.
  unfold SQL.insert_route. rewrite admitted_route_saved.
  rewrite (proj2 (admitted_spec _ _) Hi). reflexivity.
Qed.

(** A row newer than all the others comes first in the order. *)
Lemma newest_heads_order (row : safe_route) (l : list safe_route) :
  Forall (fun r => (created_at r < created_at row)%Z) l ->
  Rows.order_by_desc (fun r => (created_at r, 0%Z)) (l ++ [row])
  = row :: Rows.order_by_desc (fun r => (created_at r, 0%Z)) l.
Proof.
  unfold Rows.order_by_desc. rewrite fold_right_app. cbn [fold_right].
  induction 1 as [|a l Ha Hl IH]; [reflexivity|].
  cbn [fold_right]. rewrite IH. cbn.
  replace (created_at row <? created_at a)%Z with false by lia.
  replace (created_at row =? created_at a)%Z with false by lia.
  reflexivity.
Qed.

(** Every row of the join comes from a report, with a user whose id the
    report carries, if with any. *)
Lemma join_reporter_spec (us : list user) (r : report_row)
  (j : report_row * option user) :
  In j (SQL.join_reporter us r) ->
  fst j = r
  /\ forall u, snd j = Some u -> In u us /\ rp_user_id r = Some (u_id u).
Proof.
  unfold SQL.join_reporter.
  destruct (rp_user_id r) as [n|].
  - destruct (filter (fun u => (u_id u =? n)%Z) us) as [|a rest] eqn:E.
    + intros [<-|[]]. split; [reflexivity|discriminate].
    + intros Hin. apply in_map_iff in Hin. destruct Hin as [u [<- Hu]].
      split; [reflexivity|]. intros u' [= <-].
      rewrite <- E in Hu. apply filter_In in Hu. destruct Hu as [Hu Hid].
      split; [exact Hu|]. f_equal. lia.
  - intros [<-|[]]. split; [reflexivity|discriminate].
Qed.

(** The join leaves no report out: its first row is of the first
    report. *)
Lemma join_first (us : list user) (r : report_row) (l : list report_row) :
  exists j rest,
    flat_map (SQL.join_reporter us) (r :: l) = j :: rest /\ fst j = r.
Proof.
  cbn [flat_map]. unfold SQL.join_reporter.
  destruct (match rp_user_id r with
            | Some n => filter (fun u => (u_id u =? n)%Z) us
            | None => []
            end) as [|a rest]; cbn; eexists _, _; split; reflexivity.
Qed.

Lemma viewed_selected (uuid : N) (l : list report_row) :
  filter (fun r => (rp_uuid r =? uuid)%N) (map (viewed uuid) l)
  = map (viewed uuid) (filter (fun r => (rp_uuid r =? uuid)%N) l).
Proof.
  induction l as [|r l IH]; [reflexivity|]. cbn. unfold viewed at 1.
  destruct (rp_uuid r =? uuid)%N eqn:E; cbn; rewrite E; cbn; now rewrite IH.
Qed.

(** A selection of reports is empty exactly when none qualifies. *)
Lemma no_report_selected (keep : report_row -> bool) (l : list report_row) :
  filter keep l = [] <-> ~ exists r, In r l /\ keep r = true.
Proof.
  split.
  - intros E [r Hr]. apply filter_In in Hr. now rewrite E in Hr.
  - intros H. destruct (filter keep l) as [|r rest] eqn:E; [reflexivity|].
    destruct H. exists r. apply filter_In. rewrite E. now left.
Qed.

Lemma countable_spec (uuid : N) (t : tables) :
  forallb (fun r => negb (rp_uuid r =? uuid)%N
                    || (rp_views_count r + 1 <? 2 ^ 31)%Z) (reports t) = true
  <-> countable uuid t.
Proof.
  unfold countable. rewrite forallb_forall, Forall_forall.
  split; intros H r Hr.
  - intros E. specialize (H r Hr). apply N.eqb_eq in E. rewrite E in H.
    cbn in H. lia.
  - destruct (rp_uuid r =? uuid)%N eqn:E; [|reflexivity].
    apply N.eqb_eq in E. specialize (H r Hr E). cbn. lia.
Qed.

(** [GET /api/reports/:uuid], call by call. *)
Lemma get_report_run (uuid : N) (s : env) :
  get_report uuid s
  = if hd false (fails s)
       || negb (forallb (fun r => negb (rp_uuid r =? uuid)%N
                                  || (rp_views_count r + 1 <? 2 ^ 31)%Z)
                  (reports (tbl s)))
    then
      (Done {| status := 500; json := Failure "Error al obtener reporte" |},
       {| tbl := tbl s; fails := tl (fails s); uuids := uuids s;
          now := now s;
          errlog := errlog s ++ ["Error en query:";
                                 "Error al obtener reporte:"]%string;
          jwt := jwt s |})
    else
      let t := SQL.set_reports (map (viewed uuid) (reports (tbl s))) (tbl s) in
      if hd false (tl (fails s))
      then
        (Done {| status := 500; json := Failure "Error al obtener reporte" |},
         {| tbl := t; fails := tl (tl (fails s)); uuids := uuids s;
            now := now s;
            errlog := errlog s ++ ["Error en query:";
                                   "Error al obtener reporte:"]%string;
            jwt := jwt s |})
      else
        (Done match
                flat_map (SQL.join_reporter (users (tbl s)))
                  (map (viewed uuid)
                     (filter (fun r => (rp_uuid r =? uuid)%N)
                        (reports (tbl s))))
              with
              | [] => {| status := 404;
                         json := Failure "Reporte no encontrado" |}
              | r :: _ =>
                  {| status := 200;
                     json := Success None
                               {| d_item := report_item_of r;
                                  d_reporterUuid := SQL.reporter_uuid r;
                                  d_updatedAt := rp_updated_at (fst r) |} |}
              end,
         {| tbl := t; fails := tl (tl (fails s)); uuids := uuids s;
            now := now s; errlog := errlog s; jwt := jwt s |}).
Proof.
  unfold get_report, try_catch. unfold bind at 1. rewrite site_query_run.
  unfold SQL.count_view.
  destruct (hd false (fails s)); cbn [orb].
  { cbn. now rewrite <- app_assoc. }
  destruct (forallb _ (reports (tbl s))); cbn [negb].
  2:{ cbn. now rewrite <- app_assoc. }
  unfold bind. rewrite site_query_run. cbn [fails tbl now set_tbl set_fails].
  unfold SQL.select_report.
  destruct (hd false (tl (fails s))); cbn.
  { now rewrite <- app_assoc. }
  fold (viewed uuid). rewrite viewed_selected.
  now destruct (flat_map _ _).
Qed.

Lemma joined_rows_spec (us : list user) (l : list report_row)
  (j : report_row * option user) :
  In j (flat_map (SQL.join_reporter us) l) ->
  In (fst j) l
  /\ forall u, snd j = Some u
               -> In u us /\ rp_user_id (fst j) = Some (u_id u).
Proof.
  intros H. apply in_flat_map in H. destruct H as [r [Hr Hj]].
  destruct (join_reporter_spec us r j Hj) as [<- Hu]. auto.
Qed.

(** The item of a joined row tells of the reporter what it may. *)
Lemma joined_row_shown (t : tables) (r : report_row)
  (j : report_row * option user) :
  In r (reports t) ->
  rp_uuid (fst j) = rp_uuid r ->
  rp_is_anonymous (fst j) = rp_is_anonymous r ->
  rp_user_id (fst j) = rp_user_id r ->
  (forall u, snd j = Some u
             -> In u (users t) /\ rp_user_id (fst j) = Some (u_id u)) ->
  reporter_shown t (report_item_of j)
  /\ (rp_is_anonymous r = Some true -> SQL.reporter_uuid j = None)
  /\ (forall x, SQL.reporter_uuid j = Some x ->
                exists u, In u (users t) /\ u_uuid u = x
                          /\ rp_user_id r = Some (u_id u)
                          /\ rp_is_anonymous r <> Some true).
Proof.
  intros Hr Hu Ha Hi Hj. unfold reporter_shown, report_item_of,
    SQL.reporter_name, SQL.reporter_uuid.
  cbn [i_isAnonymous i_reporterName i_uuid].
  rewrite Ha.
  destruct j as [r' [u|]]; cbn [fst snd] in *.
  - destruct (Hj u eq_refl) as [Hin Hid].
    assert (Hid' : rp_user_id r = Some (u_id u)) by congruence.
    destruct (rp_is_anonymous r) as [[|]|] eqn:E.
    + split; [split; [reflexivity|discriminate]|].
      split; [reflexivity|discriminate].
    + split; [split; [discriminate|]|split; [discriminate|]].
      * intros name [= <-]. exists r, u. repeat split; auto. congruence.
      * intros x [= <-]. exists u. repeat split; auto. congruence.
    + split; [split; [discriminate|]|split; [discriminate|]].
      * intros name [= <-]. exists r, u. repeat split; auto. congruence.
      * intros x [= <-]. exists u. repeat split; auto. congruence.
  - destruct (rp_is_anonymous r) as [[|]|];
      (split; [split; [try reflexivity; try discriminate|discriminate]|
               split; [try reflexivity; try discriminate|discriminate]]).
Qed.

(** [GET /api/reports], by what the store does. *)
Lemma get_reports_run (req : reports_request) (s : env) :
  let near :=
    match g_lat req, g_lng req with
    | Some lat, Some lng =>
        Some (lat, lng, match g_radius req with Some r => r | None => 5%R end)
    | _, _ => None
    end in
  let all :=
    Rows.order_by_desc (fun j => (rp_created_at (fst j), 0%Z))
      (flat_map (SQL.join_reporter (users (tbl s)))
         (filter (SQL.report_matches (given (g_status req))
                    (given (g_incidentType req)) (given (g_severity req))
                    near)
            (reports (tbl s)))) in
  get_reports req s
  = match
      (if hd false (fails s) then None
       else Rows.limit_offset (JSNumber.parseInt_or 20 (g_limit req))
              (JSNumber.parseInt_or 0 (g_offset req)) all)
    with
    | Some rows =>
        (Done {| status := 200;
                 json := Success None (map report_item_of rows) |},
         set_tbl (tbl s) (set_fails (tl (fails s)) s))
    | None =>
        (Done {| status := 500;
                 json := Failure "Error al obtener reportes" |},
         {| tbl := tbl s; fails := tl (fails s); uuids := uuids s;
            now := now s;
            errlog := errlog s ++ ["Error en query:";
                                   "Error al obtener reportes:"]%string;
            jwt := jwt s |})
    end.
Proof.
  intros near all. unfold get_reports, try_catch, bind.
  rewrite site_query_run. unfold SQL.select_reports. fold near. fold all.
  destruct (hd false (fails s)); cbn; [now rewrite <- app_assoc|].
  destruct (Rows.limit_offset _ _ all); cbn; [reflexivity|].
  now rewrite <- app_assoc.
Qed.

Lemma given_spec (x : option JSString.t) (v : JSString.t) :
  given x = Some v <-> x = Some v /\ v <> [].
Proof.
  unfold given. destruct x as [[|c w]|]; cbn.
  - split; [discriminate|intros [[= <-] H]; now destruct H].
  - split; [intros [= <-]; split; [reflexivity|discriminate]|].
    now intros [[= <-] _].
  - split; [discriminate|intros [[=] _]].
Qed.

(** A report the WHERE clause keeps meets the filters sent. *)
Lemma report_matches_meets (req : reports_request)
  (j : report_row * option user) :
  SQL.report_matches (given (g_status req)) (given (g_incidentType req))
    (given (g_severity req))
    match g_lat req, g_lng req with
    | Some lat, Some lng =>
        Some (lat, lng, match g_radius req with Some r => r | None => 5%R end)
    | _, _ => None
    end (fst j) = true ->
  meets req (report_item_of j).
Proof.
  unfold SQL.report_matches, meets, report_item_of. cbn.
  rewrite !andb_true_iff. intros [[[Hs Ht] Hv] Hn].
  repeat split.
  - intros x Hx Hne.
    rewrite (proj2 (given_spec (g_status req) x) (conj Hx Hne)) in Hs.
    now apply JSNumber_eqb_eq.
  - intros x Hx Hne.
    rewrite (proj2 (given_spec (g_incidentType req) x) (conj Hx Hne)) in Ht.
    now apply JSNumber_eqb_eq.
  - intros x Hx Hne.
    rewrite (proj2 (given_spec (g_severity req) x) (conj Hx Hne)) in Hv.
    destruct (rp_severity (fst j)) as [y|]; [|discriminate].
    f_equal. now apply JSNumber_eqb_eq.
  - intros lat lng Hlat Hlng. now rewrite Hlat, Hlng in Hn.
Qed.

Lemma status_errors_spec (sent : option JSString.t) :
  (status_errors sent = []
   /\ exists x, sent = Some x /\ In x SQL.statuses
                /\ existsb (JSNumber.eqb x) SQL.statuses = true)
  \/ (status_errors sent = ["Estado inválido"%string]
      /\ ~ exists x, sent = Some x /\ In x SQL.statuses).
Proof.
  unfold status_errors.
  destruct (existsb _ SQL.statuses) eqn:E.
  - left. split; [reflexivity|].
    pose proof E as E'. apply existsb_exists in E. destruct E as [x [Hx He]].
    apply JSNumber_eqb_eq in He.
    destruct sent as [y|].
    + exists y. subst. auto.
    + subst. cbv in Hx. intuition discriminate.
  - right. split; [reflexivity|]. intros [x [-> Hx]].
    assert (H : existsb (JSNumber.eqb x) SQL.statuses = true).
    { apply existsb_exists. exists x. split; [exact Hx|].
      now apply JSNumber_eqb_eq. }
    congruence.
Qed.

(** [PUT /api/reports/:uuid/status] leaves users and routes alone and
    answers; what it does to the reports, by its answer. *)
Lemma put_status_run (uuid : N) (sent : option JSString.t) (s : env) :
  exists resp s',
    put_status uuid sent s = (Done resp, s')
    /\ users (tbl s') = users (tbl s)
    /\ safe_routes (tbl s') = safe_routes (tbl s)
    /\ (status resp <> 200%Z -> tbl s' = tbl s)
    /\ (status resp = 400%Z
        <-> ~ exists x, sent = Some x /\ In x SQL.statuses)
    /\ (status resp = 200%Z ->
        exists x,
          sent = Some x /\ In x SQL.statuses
          /\ (exists r, In r (reports (tbl s)) /\ rp_uuid r = uuid)
          /\ reports (tbl s')
             = map (fun r => if (rp_uuid r =? uuid)%N
                             then SQL.with_status x (now s) r else r)
                 (reports (tbl s))
          /\ json resp
             = Success (Some "Estado del reporte actualizado"%string)
                 (uuid, x, now s)).
Proof.
  unfold put_status, try_catch.
  destruct (status_errors_spec sent) as [[-> (x & -> & Hx & Hb)]|[-> Hbad]].
  2:{ eexists _, _. split; [reflexivity|]. cbn.
      split; [reflexivity|]. split; [reflexivity|]. split; [reflexivity|].
      split; [tauto|discriminate]. }
  assert (Hgood : ~ ~ exists y, Some x = Some y /\ In y SQL.statuses).
  { intros H. apply H. now exists x. }
  unfold bind. rewrite site_query_run. unfold SQL.update_status.
  rewrite Hb. cbn [orb].
  destruct (hd false (fails s)).
  { eexists _, _. split; [reflexivity|]. cbn.
    split; [reflexivity|]. split; [reflexivity|]. split; [reflexivity|].
    split; [split; [discriminate|tauto]|discriminate]. }
  destruct (filter (fun r => (rp_uuid r =? uuid)%N) (reports (tbl s)))
    as [|row rest] eqn:E.
  - assert (Hsame : map (fun r => if (rp_uuid r =? uuid)%N
                                  then SQL.with_status x (now s) r else r)
                      (reports (tbl s)) = reports (tbl s)).
    { clear - E. induction (reports (tbl s)) as [|r l IH]; [reflexivity|].
      cbn in *. destruct (rp_uuid r =? uuid)%N; [discriminate|].
      now rewrite IH. }
    eexists _, _. split; [reflexivity|]. cbn. rewrite Hsame.
    split; [reflexivity|]. split; [reflexivity|].
    split; [now destruct (tbl s)|].
    split; [split; [discriminate|tauto]|discriminate].
  - assert (Hrow : In row (reports (tbl s)) /\ (rp_uuid row =? uuid)%N = true).
    { apply (filter_In (fun r => (rp_uuid r =? uuid)%N)).
      rewrite E. now left. }
    destruct Hrow as [Hin Hid]. apply N.eqb_eq in Hid.
    eexists _, _. split; [reflexivity|]. cbn.
    split; [reflexivity|]. split; [reflexivity|].
    split; [congruence|].
    split; [split; [discriminate|tauto]|].
    intros _. exists x. split; [reflexivity|]. split; [exact Hx|].
    split; [now exists row|]. split; [reflexivity|]. now rewrite Hid.
Qed.

Lemma isAuthority_spec {D} (u : user) :
  (isAuthority (D := D) u = Next u
   /\ (is_role "authority" u \/ is_role "admin" u))
  \/ (isAuthority (D := D) u
      = Answered (forbidden "Acceso denegado. Se requiere rol de autoridad")
      /\ ~ is_role "authority" u /\ ~ is_role "admin" u).
Proof.
  unfold isAuthority, is_role.
  destruct (JSNumber.eqb (u_user_type u) (JSString.lit "authority")) eqn:E1.
  - left. split; [reflexivity|]. left. now apply JSNumber_eqb_eq.
  - destruct (JSNumber.eqb (u_user_type u) (JSString.lit "admin")) eqn:E2.
    + left. split; [reflexivity|]. right. now apply JSNumber_eqb_eq.
    + right. split; [reflexivity|].
      split; intros H; apply JSNumber_eqb_eq in H; congruence.
Qed.

Lemma admits_one (authorization : option JSString.t) (s : env) (u v : user) :
  admits authorization s u -> admits authorization s v -> u = v.
Proof.
  intros (d & (h & -> & _ & Hj) & _ & Hu & _)
         (d' & (h' & [= <-] & _ & Hj') & _ & Hv & _).
  congruence.
Qed.

(** [optionalAuth] ends with [next()], having changed neither tables
    nor time, and having used at most one call of the store. *)
Lemma optionalAuth_state (authorization : option JSString.t) (s : env) :
  exists o s1,
    optionalAuth authorization s = (Done o, s1)
    /\ tbl s1 = tbl s /\ now s1 = now s
    /\ (fails s1 = fails s \/ fails s1 = tl (fails s)).
Proof.
  destruct (bearer_or_not authorization) as [Hno|[h [-> Hb]]].
  - rewrite (optionalAuth_no_bearer authorization s Hno).
    eexists _, _. split; [reflexivity|]. auto.
  - rewrite (optionalAuth_run h s Hb).
    destruct (jwt s (bearer_token h));
      [destruct (hd false (fails s))|];
      eexists _, _; (split; [reflexivity|]); cbn; auto.
Qed.

End SiteFacts.

(** X11. [verifyToken] always answers or passes the request on, and never
    changes a table. It passes the request on exactly when the header
    starts with ["Bearer "], [jwt.verify] accepts the token, the store
    answers, and the first user with the [uuid] of the payload is
    active; that user is the one put in [req.user]. Every other request
    is answered 401 or 500: 401 without a call of the store when there is
    no bearer token, 500 exactly when the store fails or [jwt.verify]
    throws something else than an expired or an invalid token. *)
Theorem verifyToken_admits_exactly (D : Type)
  (authorization : option JSString.t) (s : Site.env) :
  exists p s',
    Site.verifyToken (D := D) authorization s = (Site.Done p, s')
    /\ Site.tbl s' = Site.tbl s
    /\ (forall u, p = Site.Next u <-> Site.admits authorization s u)
    /\ (forall r,
          p = Site.Answered r ->
          (status r = 401 \/ status r = 500)%Z
          /\ (Site.no_bearer authorization -> status r = 401%Z /\ s' = s)
          /\ (status r = 500%Z
              <-> exists h,
                    authorization = Some h
                    /\ JSString.startsWith h (JSString.lit "Bearer ") = true
                    /\ (Site.jwt s (Site.bearer_token h)
                        = Site.Raised Site.StoreFault
                        \/ Site.jwt s (Site.bearer_token h)
                           = Site.Raised Site.OtherError
                        \/ (exists decoded,
                              Site.jwt s (Site.bearer_token h)
                              = Site.Done decoded)
                           /\ ~ Site.served s))).
Proof.
  destruct (bearer_or_not authorization) as [Hno|[h [-> Hb]]].
  - rewrite (verifyToken_no_bearer authorization s Hno).
    eexists _, _. split; [reflexivity|]. split; [reflexivity|]. split.
    + intros u. split; [discriminate|]. unfold Site.admits, Site.bears.
      intros [decoded [[h [-> [Hb _]]] _]]. cbv beta iota delta [Site.no_bearer] in Hno. congruence.
    + intros r [= <-]. cbn [status Site.unauthorized]. split; [now left|]. split; [easy|].
      split; [discriminate|]. intros [h [-> [Hb _]]]. cbv beta iota delta [Site.no_bearer] in Hno. congruence.
  - rewrite (verifyToken_run h s Hb).
    unfold Site.admits, Site.served, Site.bears.
    destruct (Site.jwt s (Site.bearer_token h)) as [decoded|e] eqn:Ej.
    + destruct (hd false (Site.fails s)) eqn:Ef.
      * eexists _, _. split; [reflexivity|]. split; [reflexivity|]. split.
        -- intros u. split; [discriminate|]. intros [d [_ [? _]]]. discriminate.
        -- intros r [= <-]. cbn [status Site.unauthorized]. split; [now right|]. split; [congruence|].
           split; [|easy]. intros _. exists h. repeat split; auto.
           right. right. split; [now exists decoded|congruence].
      * eexists _, _. split; [reflexivity|]. split; [reflexivity|].
        destruct (Site.users_named decoded (Site.tbl s)) as [|user rest] eqn:Eu;
          [|destruct (Site.u_is_active user) eqn:Ea].
        -- split.
           ++ intros u. split; [discriminate|].
              intros [d [[h' [[= <-] [_ Hj]]] [_ [Hu _]]]].
              rewrite Ej in Hj. injection Hj as <-. now rewrite Eu in Hu.
           ++ intros r [= <-]. cbn [status Site.unauthorized]. split; [now left|]. split; [congruence|].
              split; [discriminate|].
              intros [h' [[= <-] [_ [Hj|[Hj|[_ Hs]]]]]]; congruence.
        -- split.
           ++ intros u. split.
              ** intros [= <-]. exists decoded. repeat split; auto.
                 --- exists h. auto.
                 --- now rewrite Eu.
              ** intros [d [[h' [[= <-] [_ Hj]]] [_ [Hu _]]]].
                 rewrite Ej in Hj. injection Hj as <-. rewrite Eu in Hu.
                 cbn in Hu. congruence.
           ++ intros r [=].
        -- split.
           ++ intros u. split; [discriminate|].
              intros [d [[h' [[= <-] [_ Hj]]] [_ [Hu Ha]]]].
              rewrite Ej in Hj. injection Hj as <-. rewrite Eu in Hu.
              cbn in Hu. congruence.
           ++ intros r [= <-]. cbn [status Site.unauthorized]. split; [now left|]. split; [congruence|].
              split; [discriminate|].
              intros [h' [[= <-] [_ [Hj|[Hj|[_ Hs]]]]]]; congruence.
    + assert (Hnext : forall u : Site.user,
                 (exists decoded,
                     (exists authHeader,
                         Some h = Some authHeader
                         /\ JSString.startsWith authHeader
                              (JSString.lit "Bearer ") = true
                         /\ Site.jwt s (Site.bearer_token authHeader)
                            = Site.Done decoded)
                     /\ hd false (Site.fails s) = false
                     /\ hd_error (Site.users_named decoded (Site.tbl s))
                        = Some u
                     /\ Site.u_is_active u = true) -> False).
      { intros u [d [[h' [[= <-] [_ Hj]]] _]]. congruence. }
      destruct e; eexists _, _; (split; [reflexivity|]);
        (split; [reflexivity|]);
        (split; [intros u; split; [discriminate|intros H; destruct (Hnext u H)]|]);
        intros r [= <-]; cbn [status Site.unauthorized].
      * split; [now right|]. split; [congruence|]. split; [|easy].
        intros _. exists h. auto.
      * split; [now left|]. split; [congruence|]. split; [discriminate|].
        intros [h' [[= <-] [_ [Hj|[Hj|[[d Hj] _]]]]]]; congruence.
      * split; [now left|]. split; [congruence|]. split; [discriminate|].
        intros [h' [[= <-] [_ [Hj|[Hj|[[d Hj] _]]]]]]; congruence.
      * split; [now right|]. split; [congruence|]. split; [|easy].
        intros _. exists h. auto.
Qed.

(** X12. [optionalAuth] never answers the request itself and never changes
    a table: it always calls [next()]. With [users.uuid] unique, the
    requests it attaches a user to are exactly those [verifyToken] lets
    through, with the same user; a user it attaches is active. *)
Theorem optionalAuth_agrees_with_verifyToken (D : Type)
  (authorization : option JSString.t) (s : Site.env) :
  NoDup (map Site.u_uuid (Site.users (Site.tbl s))) ->
  exists o s',
    Site.optionalAuth authorization s = (Site.Done o, s')
    /\ Site.tbl s' = Site.tbl s
    /\ (forall u,
          o = Some u
          <-> exists s'',
                Site.verifyToken (D := D) authorization s
                = (Site.Done (Site.Next u), s''))
    /\ (forall u,
          o = Some u ->
          In u (Site.users (Site.tbl s)) /\ Site.u_is_active u = true).
Proof.
  intros Hnd.
  destruct (bearer_or_not authorization) as [Hno|[h [-> Hb]]].
  - rewrite (optionalAuth_no_bearer authorization s Hno).
    rewrite (verifyToken_no_bearer authorization s Hno).
    eexists _, _. split; [reflexivity|]. split; [reflexivity|].
    split; [|discriminate].
    intros u. split; [discriminate|]. intros [s'' [=]].
  - rewrite (optionalAuth_run h s Hb), (verifyToken_run h s Hb).
    destruct (Site.jwt s (Site.bearer_token h)) as [decoded|e].
    + destruct (hd false (Site.fails s)).
      * eexists _, _. split; [reflexivity|]. split; [reflexivity|].
        split; [|discriminate].
        intros u. split; [discriminate|]. intros [s'' [=]].
      * eexists _, _. split; [reflexivity|]. split; [reflexivity|].
        assert (Hin : forall u,
                   In u (Site.users_named decoded (Site.tbl s)) ->
                   In u (Site.users (Site.tbl s))).
        { unfold Site.users_named. destruct decoded; [|easy].
          intros u Hu. now apply filter_In in Hu. }
        destruct (users_named_unique decoded (Site.tbl s) Hnd) as [E|[a E]];
          rewrite E in *; cbn.
        -- split; [|discriminate].
           intros u. split; [discriminate|]. intros [s'' [=]].
        -- destruct (Site.u_is_active a) eqn:Ea; cbn.
           ++ split.
              ** intros u. split; [intros [= <-]; now eexists|].
                 now intros [s'' [= <-]].
              ** intros u [= <-]. split; [apply Hin; now left|exact Ea].
           ++ split; [|discriminate].
              intros u. split; [discriminate|]. intros [s'' [=]].
    + destruct e; eexists _, _; (split; [reflexivity|]);
        (split; [reflexivity|]); (split; [|discriminate]);
        intros u; (split; [discriminate|]); intros [s'' [=]].
Qed.

Lemma optionalAuth_agrees_with_verifyToken_witness :
  exists o s',
    Site.optionalAuth (Site.bearer "luis") Site.sample_env = (Site.Done o, s')
    /\ Site.tbl s' = Site.tbl Site.sample_env
    /\ (forall u,
          o = Some u
          <-> exists s'',
                Site.verifyToken (D := unit) (Site.bearer "luis")
                  Site.sample_env
                = (Site.Done (Site.Next u), s''))
    /\ (forall u,
          o = Some u ->
          In u (Site.users (Site.tbl Site.sample_env))
          /\ Site.u_is_active u = true).
Proof.
  apply (optionalAuth_agrees_with_verifyToken unit (Site.bearer "luis")
           Site.sample_env).
  cbn. repeat constructor; cbn; intuition discriminate.
Defined.

(** X13. [GET /api/routes] never changes a table, and answers 200 exactly
    when the store answers and [limit] and [offset] read as numbers the
    server accepts (so not for [limit=abc] or [limit=-1]); otherwise 500.
    The routes of a 200 answer are a page ([limit] rows after the first
    [offset]) of the user's own routes, newest first, and only the
    favourites when [favoritesOnly] is the string ["true"]. *)
Theorem list_routes_page (req : Site.list_request) (req_user : Site.user)
  (s : Site.env) :
  let limit := JSNumber.parseInt_or 20 (Site.l_limit req) in
  let offset := JSNumber.parseInt_or 0 (Site.l_offset req) in
  let favoritesOnly :=
    match Site.l_favoritesOnly req with
    | Some x => JSNumber.eqb x (JSString.lit "true")
    | None => false
    end in
  let wanted (r : Site.safe_route) :=
    (Site.sr_user_id r =? Site.u_id req_user)%Z
    && (negb favoritesOnly
        || match Site.is_favorite r with Some true => true | _ => false end) in
  exists resp s',
    Site.list_routes req req_user s = (Site.Done resp, s')
    /\ Site.tbl s' = Site.tbl s
    /\ (status resp = 200%Z <-> Site.served s /\ Rows.accepts limit offset)
    /\ (status resp = 500%Z
        <-> ~ (Site.served s /\ Rows.accepts limit offset))
    /\ (status resp = 200%Z ->
        exists all n m,
          limit = Some n /\ offset = Some m
          /\ Permutation all (filter wanted (Site.safe_routes (Site.tbl s)))
          /\ Site.newest_first Site.created_at all
          /\ json resp
             = Success None (map Site.route_item_of (Rows.page n m all))
          /\ (Z.of_nat (List.length (Rows.page n m all)) <= n)%Z
          /\ Forall (fun r => In r (Site.safe_routes (Site.tbl s))
                              /\ Site.sr_user_id r = Site.u_id req_user)
               (Rows.page n m all)).
Proof.
  intros limit offset favoritesOnly wanted.
  unfold Site.list_routes, Site.try_catch, Site.bind.
  rewrite site_query_run. unfold Site.SQL.select_routes, Site.served.
  fold limit offset favoritesOnly. fold wanted.
  set (all := Rows.order_by_desc (fun r => (Site.created_at r, 0%Z))
                (filter wanted (Site.safe_routes (Site.tbl s)))).
  destruct (hd false (Site.fails s)) eqn:Ef.
  - eexists _, _. split; [reflexivity|]. cbn. split; [reflexivity|].
    split; [split; [discriminate|intros [? _]; discriminate]|].
    split; [split; [intros _ [? _]; discriminate|reflexivity]|].
    discriminate.
  - destruct (limit_offset_run limit offset all)
      as [[Hacc (n & m & Hn & Hm & ->)]|[Hrej ->]].
    + eexists _, _. split; [reflexivity|]. cbn.
      split; [reflexivity|]. split; [tauto|]. split.
      { split; [discriminate|]. tauto. }
      intros _. exists all, n, m.
      split; [exact Hn|]. split; [exact Hm|].
      split; [apply order_by_desc_perm|].
      split; [apply order_newest_first|]. split; [reflexivity|].
      destruct Hacc as (n' & m' & Hn' & Hm' & Hn'' & Hm'').
      assert (n' = n) as -> by congruence.
      split; [apply page_length; lia|].
      apply Forall_forall. intros r Hr. apply page_incl in Hr.
      apply (Permutation_in _ (order_by_desc_perm _ _)) in Hr.
      apply filter_In in Hr. destruct Hr as [Hin Hw]. split; [exact Hin|].
      unfold wanted in Hw. apply andb_true_iff in Hw. lia.
    + eexists _, _. split; [reflexivity|]. cbn.
      repeat split; try discriminate; try tauto.
Qed.


(** X15. [DELETE /api/routes/:uuid] answers 200 exactly when the store
    answers and the user owns a route with that uuid, 404 when the store
    answers and the user owns none (be it another user's route), 500
    when the store fails. After a 200 the user's routes with that uuid
    are gone and every other row is where it was; after any other answer
    no table has changed. The routes of other users are never touched. *)
Theorem delete_route_removes_own (uuid : N) (req_user : Site.user)
  (s : Site.env) :
  let mine (r : Site.safe_route) :=
    Site.sr_uuid r = uuid /\ Site.sr_user_id r = Site.u_id req_user in
  let found := exists r, In r (Site.safe_routes (Site.tbl s)) /\ mine r in
  exists resp s',
    Site.delete_route uuid req_user s = (Site.Done resp, s')
    /\ (status resp = 200%Z <-> Site.served s /\ found)
    /\ (status resp = 404%Z <-> Site.served s /\ ~ found)
    /\ (status resp = 500%Z <-> ~ Site.served s)
    /\ (status resp <> 200%Z -> Site.tbl s' = Site.tbl s)
    /\ (status resp = 200%Z ->
        Site.safe_routes (Site.tbl s')
        = filter (fun r => negb (Site.SQL.owned uuid (Site.u_id req_user) r))
            (Site.safe_routes (Site.tbl s))
        /\ forall r, In r (Site.safe_routes (Site.tbl s'))
                     <-> In r (Site.safe_routes (Site.tbl s)) /\ ~ mine r)
    /\ Site.users (Site.tbl s') = Site.users (Site.tbl s)
    /\ Site.reports (Site.tbl s') = Site.reports (Site.tbl s)
    /\ Site.routes_of_others (Site.u_id req_user) (Site.tbl s')
       = Site.routes_of_others (Site.u_id req_user) (Site.tbl s).
Proof.
  intros mine found.
  unfold Site.delete_route, Site.try_catch, Site.bind.
  rewrite site_query_run. unfold Site.SQL.delete_route, Site.served.
  destruct (hd false (Site.fails s)) eqn:Ef.
  { eexists _, _. split; [reflexivity|]. cbn.
    split; [split; [discriminate|intros [? _]; discriminate]|].
    split; [split; [discriminate|intros [? _]; discriminate]|].
    split; [split; [discriminate|reflexivity]|].
    split; [reflexivity|]. split; [discriminate|]. auto. }
  assert (Hfound : found
                   <-> exists r, In r (Site.safe_routes (Site.tbl s))
                                 /\ Site.SQL.owned uuid (Site.u_id req_user) r
                                    = true).
  { unfold found, mine. split; intros [r [Hin H]]; exists r;
      (split; [exact Hin|]); now apply owned_spec. }
  destruct (filter (Site.SQL.owned uuid (Site.u_id req_user))
              (Site.safe_routes (Site.tbl s))) as [|row rest] eqn:E.
  - assert (Hnone : ~ found).
    { rewrite Hfound. now apply no_route_selected. }
    assert (Hsame : filter
                      (fun r => negb (Site.SQL.owned uuid
                                        (Site.u_id req_user) r))
                      (Site.safe_routes (Site.tbl s))
                    = Site.safe_routes (Site.tbl s)).
    { clear - E. induction (Site.safe_routes (Site.tbl s)) as [|r l IH];
        [reflexivity|]. cbn in *.
      destruct (Site.SQL.owned uuid (Site.u_id req_user) r);
        [discriminate|]. cbn. now rewrite IH. }
    eexists _, _. split; [reflexivity|]. cbn. rewrite Hsame.
    split; [split; [discriminate|tauto]|].
    split; [split; [auto|reflexivity]|].
    split; [split; [discriminate|congruence]|].
    split; [now destruct (Site.tbl s)|]. split; [discriminate|]. auto.
  - assert (Hsome : found).
    { rewrite Hfound. exists row. apply filter_In. rewrite E. now left. }
    eexists _, _. split; [reflexivity|]. cbn.
    split; [split; [auto|reflexivity]|].
    split; [split; [discriminate|tauto]|].
    split; [split; [discriminate|congruence]|].
    split; [congruence|]. split.
    + intros _. split; [reflexivity|]. intros r. rewrite filter_In.
      unfold mine. rewrite <- owned_spec, negb_true_iff.
      now destruct (Site.SQL.owned uuid (Site.u_id req_user) r).
    + split; [reflexivity|]. split; [reflexivity|].
      unfold Site.routes_of_others. cbn. apply others_kept_by_delete.
Qed.


(** X17. The three routes that write saved routes ([POST /api/routes],
    [PUT /api/routes/:uuid/favorite], [DELETE /api/routes/:uuid]) always
    answer, and whatever they are sent they change at most rows of
    [safe_routes] that belong to the user the token is for: the routes
    of every other user, the users and the reports stay as they are. A
    request without a token for an active user changes nothing and is
    answered 401 or 500. *)
Theorem routes_isolated_by_token (authorization : option JSString.t)
  (s : Site.env) :
  (forall req,
      exists resp s',
        Site.save_route_route authorization req s = (Site.Done resp, s')
        /\ Site.only_own_routes authorization s s'
        /\ ((forall u, ~ Site.admits authorization s u) ->
            Site.tbl s' = Site.tbl s
            /\ (status resp = 401 \/ status resp = 500)%Z))
  /\ (forall uuid isFavorite,
        exists resp s',
          Site.set_favorite_route authorization uuid isFavorite s
          = (Site.Done resp, s')
          /\ Site.only_own_routes authorization s s'
          /\ ((forall u, ~ Site.admits authorization s u) ->
              Site.tbl s' = Site.tbl s
              /\ (status resp = 401 \/ status resp = 500)%Z))
  /\ (forall uuid,
        exists resp s',
          Site.delete_route_route authorization uuid s
          = (Site.Done resp, s')
          /\ Site.only_own_routes authorization s s'
          /\ ((forall u, ~ Site.admits authorization s u) ->
              Site.tbl s' = Site.tbl s
              /\ (status resp = 401 \/ status resp = 500)%Z)).
Proof.
  split; [|split].
  - intros req. apply behind_token_isolates. intros u s1 _.
    apply save_route_frame.
  - intros uuid isFavorite. apply behind_token_isolates. intros u s1 _.
    apply set_favorite_frame.
  - intros uuid. apply behind_token_isolates. intros u s1 _.
    apply delete_route_frame.
Qed.

(** X18. A route just saved heads its owner's list: after a
    [POST /api/routes] that succeeds, a [GET /api/routes] with no
    parameter by the same user answers 200 with the new route first,
    provided the routes stored before are older. *)
Theorem saved_route_heads_list (req : Site.save_request)
  (req_user : Site.user) (s : Site.env) :
  Site.s_errors req = [] ->
  Site.served_twice s ->
  Site.insertable (Site.route_saved req req_user s) (Site.tbl s) ->
  Forall (fun r => (Site.created_at r < Site.now s)%Z)
    (Site.safe_routes (Site.tbl s)) ->
  exists saved s1 rest s2,
    Site.save_route req req_user s
    = (Site.Done {| status := 201;
                    json := Success
                              (Some "Ruta guardada exitosamente"%string)
                              (Some saved) |}, s1)
    /\ Site.list_routes Site.plain_list req_user s1
       = (Site.Done {| status := 200;
                       json := Success None
                                 (Site.route_item_of
                                    (Site.route_saved req req_user s)
                                  :: rest) |}, s2)
    /\ Site.sv_uuid saved = Site.uuids s
    /\ Site.ri_uuid (Site.route_item_of (Site.route_saved req req_user s))
       = Site.sv_uuid saved
    /\ (Z.of_nat (List.length rest) <= 19)%Z.
Proof.
  intros He [Hs1 Hs2] Hi Hold.
  rewrite (save_route_stored req req_user s He Hs1 Hi).
  eexists _, _, _, _. split; [reflexivity|].
  unfold Site.list_routes, Site.try_catch, Site.bind.
  rewrite site_query_run. cbn [Site.fails Site.tbl Site.now]. rewrite Hs2.
  unfold Site.SQL.select_routes. cbn [Site.plain_list Site.l_limit
    Site.l_offset Site.l_favoritesOnly JSNumber.parseInt_or Site.u_id].
  cbn [Site.safe_routes Site.SQL.set_safe_routes negb orb].
  rewrite filter_app. cbn [filter].
  replace (Site.sr_user_id (Site.route_saved req req_user s)
           =? Site.u_id req_user)%Z with true
    by (symmetry; apply Z.eqb_refl).
  cbn [andb].
  rewrite newest_heads_order.
  2:{ apply Forall_forall. intros r Hin. apply filter_In in Hin.
      rewrite Forall_forall in Hold. now apply Hold. }
  unfold Rows.limit_offset.
  replace ((0 <=? 20) && (20 <? 2 ^ 63) && (0 <=? 0) && (0 <? 2 ^ 63))%Z
    with true by reflexivity.
  change (Z.to_nat 20) with (S 19). change (Z.to_nat 0) with 0%nat.
  cbn [skipn]. rewrite firstn_cons. cbn [map].
  split; [reflexivity|]. split; [reflexivity|]. split; [reflexivity|].
  rewrite length_map, length_firstn. lia.
Qed.

Lemma saved_route_heads_list_witness :
  exists saved s1 rest s2,
    Site.save_route (Site.save_request_scored 80) Site.ana Site.sample_env
    = (Site.Done {| status := 201;
                    json := Success
                              (Some "Ruta guardada exitosamente"%string)
                              (Some saved) |}, s1)
    /\ Site.list_routes Site.plain_list Site.ana s1
       = (Site.Done {| status := 200;
                       json := Success None
                                 (Site.route_item_of
                                    (Site.route_saved
                                       (Site.save_request_scored 80)
                                       Site.ana Site.sample_env)
                                  :: rest) |}, s2)
    /\ Site.sv_uuid saved = Site.uuids Site.sample_env
    /\ Site.ri_uuid
         (Site.route_item_of
            (Site.route_saved (Site.save_request_scored 80) Site.ana
               Site.sample_env))
       = Site.sv_uuid saved
    /\ (Z.of_nat (List.length rest) <= 19)%Z.
Proof.
  apply (saved_route_heads_list (Site.save_request_scored 80) Site.ana
           Site.sample_env).
  - reflexivity.
  - split; reflexivity.
  - unfold Site.insertable. cbn.
    split; [lia|]. split; [exists Site.ana; split; [now left|reflexivity]|].
    split; [intuition discriminate|]. split; [intuition discriminate|].
    split; discriminate.
  - cbn. repeat constructor.
Defined.

(** X19. Saving a route and deleting it again gives back the table of
    saved routes as it was: after a [POST /api/routes] that succeeds,
    the [DELETE] with the uuid the [POST] answered is answered 200 and
    removes that row and no other. (The id of the row is not given out
    again.) *)
Theorem save_then_delete_restores (req : Site.save_request)
  (req_user : Site.user) (s : Site.env) :
  Site.s_errors req = [] ->
  Site.served_twice s ->
  Site.insertable (Site.route_saved req req_user s) (Site.tbl s) ->
  exists saved s1 s2,
    Site.save_route req req_user s
    = (Site.Done {| status := 201;
                    json := Success
                              (Some "Ruta guardada exitosamente"%string)
                              (Some saved) |}, s1)
    /\ Site.delete_route (Site.sv_uuid saved) req_user s1
       = (Site.Done {| status := 200;
                       json := Success (Some "Ruta eliminada"%string) tt |},
          s2)
    /\ Site.safe_routes (Site.tbl s1)
       = Site.safe_routes (Site.tbl s) ++ [Site.route_saved req req_user s]
    /\ Site.safe_routes (Site.tbl s2) = Site.safe_routes (Site.tbl s)
    /\ Site.safe_routes_id_seq (Site.tbl s2)
       = (Site.safe_routes_id_seq (Site.tbl s) + 1)%Z.
Proof.
  intros He [Hs1 Hs2] Hi.
  assert (Hfresh : Forall (fun r => Site.sr_uuid r <> Site.uuids s)
                     (Site.safe_routes (Site.tbl s))).
  { destruct Hi as (_ & _ & Hu & _). apply Forall_forall.
    intros r Hr E. apply Hu. cbn. rewrite <- E. now apply in_map. }
  rewrite (save_route_stored req req_user s He Hs1 Hi).
  eexists _, _, _. split; [reflexivity|].
  unfold Site.delete_route, Site.try_catch, Site.bind.
  rewrite site_query_run. cbn [Site.fails Site.tbl Site.now]. rewrite Hs2.
  unfold Site.SQL.delete_route.
  cbn [Site.safe_routes Site.SQL.set_safe_routes Site.saved_route_of
       Site.sv_uuid Site.safe_routes_id_seq].
  assert (Hown : Site.SQL.owned
                   (Site.sr_uuid (Site.route_saved req req_user s))
                   (Site.u_id req_user) (Site.route_saved req req_user s)
                 = true).
  { apply owned_spec. split; reflexivity. }
  assert (Hnone : forall l,
             Forall (fun r => Site.sr_uuid r <> Site.uuids s) l ->
             filter (Site.SQL.owned
                       (Site.sr_uuid (Site.route_saved req req_user s))
                       (Site.u_id req_user)) l = []
             /\ filter (fun r => negb (Site.SQL.owned
                       (Site.sr_uuid (Site.route_saved req req_user s))
                       (Site.u_id req_user) r)) l = l).
  { induction 1 as [|r l Hr' Hl [IH1 IH2]]; [now split|]. cbn [filter].
    assert (E : Site.SQL.owned
                  (Site.sr_uuid (Site.route_saved req req_user s))
                  (Site.u_id req_user) r = false).
    { destruct (Site.SQL.owned _ _ r) eqn:E; [|reflexivity].
      apply owned_spec in E. destruct E as [E _]. now destruct Hr'. }
    rewrite E. cbn [negb]. now rewrite IH1, IH2. }
  destruct (Hnone _ Hfresh) as [H1 H2].
  rewrite !filter_app, H1, H2. cbn [filter]. rewrite Hown. cbn.
  split; [reflexivity|]. split; [reflexivity|].
  split; [apply app_nil_r|reflexivity].
Qed.

Lemma save_then_delete_restores_witness :
  exists saved s1 s2,
    Site.save_route (Site.save_request_scored 80) Site.ana Site.sample_env
    = (Site.Done {| status := 201;
                    json := Success
                              (Some "Ruta guardada exitosamente"%string)
                              (Some saved) |}, s1)
    /\ Site.delete_route (Site.sv_uuid saved) Site.ana s1
       = (Site.Done {| status := 200;
                       json := Success (Some "Ruta eliminada"%string) tt |},
          s2)
    /\ Site.safe_routes (Site.tbl s1)
       = Site.safe_routes (Site.tbl Site.sample_env)
         ++ [Site.route_saved (Site.save_request_scored 80) Site.ana
               Site.sample_env]
    /\ Site.safe_routes (Site.tbl s2)
       = Site.safe_routes (Site.tbl Site.sample_env)
    /\ Site.safe_routes_id_seq (Site.tbl s2)
       = (Site.safe_routes_id_seq (Site.tbl Site.sample_env) + 1)%Z.
Proof.
  apply (save_then_delete_restores (Site.save_request_scored 80) Site.ana
           Site.sample_env).
  - reflexivity.
  - split; reflexivity.
  - unfold Site.insertable. cbn.
    split; [lia|]. split; [exists Site.ana; split; [now left|reflexivity]|].
    split; [intuition discriminate|]. split; [intuition discriminate|].
    split; discriminate.
Defined.

(** X20. [GET /api/reports/:uuid] counts the view before it reads the
    report, in a statement of its own: whenever its first call of the
    store succeeds, every report with that uuid has one view more and
    nothing else has changed, also when the answer is then 404 or 500.
    It answers 200 exactly when both calls succeed and a report has that
    uuid, and the count it shows is the new one. *)
Theorem get_report_counts_view (uuid : N) (s : Site.env) :
  let found :=
    exists r, In r (Site.reports (Site.tbl s)) /\ Site.rp_uuid r = uuid in
  let counted := Site.served s /\ Site.countable uuid (Site.tbl s) in
  let read := hd false (tl (Site.fails s)) = false in
  exists resp s',
    Site.get_report uuid s = (Site.Done resp, s')
    /\ Site.users (Site.tbl s') = Site.users (Site.tbl s)
    /\ Site.safe_routes (Site.tbl s') = Site.safe_routes (Site.tbl s)
    /\ (counted ->
        Site.reports (Site.tbl s')
        = map (Site.viewed uuid) (Site.reports (Site.tbl s)))
    /\ (~ counted -> Site.tbl s' = Site.tbl s)
    /\ (status resp = 200%Z <-> counted /\ read /\ found)
    /\ (status resp = 404%Z <-> counted /\ read /\ ~ found)
    /\ (status resp = 500%Z <-> ~ (counted /\ read))
    /\ (status resp = 200%Z ->
        exists r d,
          In r (Site.reports (Site.tbl s))
          /\ Site.rp_uuid r = uuid
          /\ json resp = Success None d
          /\ Site.i_uuid (Site.d_item d) = uuid
          /\ Site.i_viewsCount (Site.d_item d)
             = (Site.rp_views_count r + 1)%Z).
Proof.
  intros found counted read. rewrite get_report_run.
  pose proof (countable_spec uuid (Site.tbl s)) as Hc.
  subst counted read. unfold Site.served.
  destruct (hd false (Site.fails s)) eqn:E1.
  { eexists _, _. split; [reflexivity|]. cbn.
    split; [reflexivity|]. split; [reflexivity|].
    split; [intros [? _]; discriminate|]. split; [reflexivity|].
    split; [split; [discriminate|intros [[? _] _]; discriminate]|].
    split; [split; [discriminate|intros [[? _] _]; discriminate]|].
    split; [split; [intros _ [[? _] _]; discriminate|reflexivity]|].
    discriminate. }
  destruct (forallb _ (Site.reports (Site.tbl s))) eqn:Ec.
  2:{ assert (Hn : ~ Site.countable uuid (Site.tbl s)).
      { intros H. apply Hc in H. discriminate. }
      eexists _, _. split; [reflexivity|]. cbn.
      split; [reflexivity|]. split; [reflexivity|].
      split; [tauto|]. split; [reflexivity|].
      split; [split; [discriminate|tauto]|].
      split; [split; [discriminate|tauto]|].
      split; [split; [tauto|reflexivity]|].
      discriminate. }
  assert (Hcnt : Site.countable uuid (Site.tbl s)) by now apply Hc.
  clear Hc.
  cbn [orb negb]. cbv zeta.
  destruct (hd false (tl (Site.fails s))) eqn:E2.
  { eexists _, _. split; [reflexivity|]. cbn.
    split; [reflexivity|]. split; [reflexivity|].
    split; [reflexivity|]. split; [intros H; destruct H; auto|].
    split; [split; [discriminate|intros [_ [? _]]; discriminate]|].
    split; [split; [discriminate|intros [_ [? _]]; discriminate]|].
    split; [split; [intros _ [_ ?]; discriminate|reflexivity]|].
    discriminate. }
  assert (Hfound : found
                   <-> exists r, In r (Site.reports (Site.tbl s))
                                 /\ (Site.rp_uuid r =? uuid)%N = true).
  { unfold found. split; intros [r [Hin H]]; exists r;
      (split; [exact Hin|]); now apply N.eqb_eq. }
  destruct (filter (fun r => (Site.rp_uuid r =? uuid)%N)
              (Site.reports (Site.tbl s))) as [|r rest] eqn:Ef.
  - assert (Hnone : ~ found).
    { rewrite Hfound. now apply no_report_selected. }
    eexists _, _. split; [reflexivity|]. cbn.
    split; [reflexivity|]. split; [reflexivity|].
    split; [reflexivity|]. split; [intros H; destruct H; auto|].
    split; [split; [discriminate|tauto]|].
    split; [split; [auto|reflexivity]|].
    split; [split; [discriminate|intros H; destruct H; auto]|]. discriminate.
  - assert (Hr : In r (Site.reports (Site.tbl s))
                 /\ (Site.rp_uuid r =? uuid)%N = true).
    { apply (filter_In (fun r => (Site.rp_uuid r =? uuid)%N)).
      rewrite Ef. now left. }
    assert (Hsome : found) by (rewrite Hfound; now exists r).
    cbn [map].
    destruct (join_first (Site.users (Site.tbl s)) (Site.viewed uuid r)
                (map (Site.viewed uuid) rest)) as (j & more & -> & Hj).
    eexists _, _. split; [reflexivity|]. cbn [status json Site.tbl].
    split; [reflexivity|]. split; [reflexivity|].
    split; [reflexivity|]. split; [intros H; destruct H; auto|].
    split; [split; [auto|reflexivity]|].
    split; [split; [discriminate|tauto]|].
    split; [split; [discriminate|intros H; destruct H; auto]|].
    intros _. exists r. eexists. split; [apply Hr|].
    destruct Hr as [_ Hu]. split; [now apply N.eqb_eq|].
    split; [reflexivity|]. cbn. rewrite Hj. unfold Site.viewed.
    rewrite Hu. cbn. split; [now apply N.eqb_eq|reflexivity].
Qed.

(** X21. Neither the list of reports nor the page of one report tells who
    filed an anonymous report: the name, and on the page the uuid, of the
    reporter are null whenever the report is anonymous. A name or uuid
    that is shown is that of a user whose id the report carries. *)
Theorem anonymous_reporter_hidden :
  (forall req s resp s' msg items,
      Site.get_reports req s = (Site.Done resp, s') ->
      json resp = Success msg items ->
      Forall (Site.reporter_shown (Site.tbl s)) items)
  /\ (forall uuid s resp s' msg d,
        Site.get_report uuid s = (Site.Done resp, s') ->
        json resp = Success msg d ->
        Site.reporter_shown (Site.tbl s) (Site.d_item d)
        /\ (Site.i_isAnonymous (Site.d_item d) = Some true ->
            Site.d_reporterUuid d = None)
        /\ (forall x,
              Site.d_reporterUuid d = Some x ->
              exists r u,
                In r (Site.reports (Site.tbl s))
                /\ In u (Site.users (Site.tbl s))
                /\ Site.rp_uuid r = uuid
                /\ Site.rp_user_id r = Some (Site.u_id u)
                /\ Site.u_uuid u = x)).
Proof.
  split.
  - intros req s resp s' msg items Hrun Hjson.
    rewrite get_reports_run in Hrun. cbv zeta in Hrun.
    destruct (hd false (Site.fails s)).
    { injection Hrun as <- _. discriminate. }
    match type of Hrun with
    | context [Rows.limit_offset ?n ?m ?l] =>
        destruct (limit_offset_run n m l)
          as [[_ (n' & m' & _ & _ & E)]|[_ E]]; rewrite E in Hrun
    end.
    2:{ injection Hrun as <- _. discriminate. }
    injection Hrun as <- _. injection Hjson as _ <-.
    apply Forall_forall. intros i Hi. apply in_map_iff in Hi.
    destruct Hi as [j [<- Hj]]. apply page_incl in Hj.
    apply (Permutation_in _ (order_by_desc_perm _ _)) in Hj.
    apply joined_rows_spec in Hj. destruct Hj as [Hin Hu].
    apply filter_In in Hin. destruct Hin as [Hin _].
    now apply (joined_row_shown (Site.tbl s) (fst j) j).
  - intros uuid s resp s' msg d Hrun Hjson.
    rewrite get_report_run in Hrun. cbv zeta in Hrun.
    destruct (hd false (Site.fails s) || _).
    { injection Hrun as <- _. discriminate. }
    destruct (hd false (tl (Site.fails s))).
    { injection Hrun as <- _. discriminate. }
    destruct (flat_map _ _) as [|j rest] eqn:E.
    { injection Hrun as <- _. discriminate. }
    injection Hrun as <- _. injection Hjson as _ <-.
    assert (Hj : In j (flat_map
                         (Site.SQL.join_reporter (Site.users (Site.tbl s)))
                         (map (Site.viewed uuid)
                            (filter (fun r => (Site.rp_uuid r =? uuid)%N)
                               (Site.reports (Site.tbl s))))))
      by (rewrite E; now left).
    apply joined_rows_spec in Hj. destruct Hj as [Hin Hu].
    apply in_map_iff in Hin. destruct Hin as [r [Hv Hr]].
    apply filter_In in Hr. destruct Hr as [Hr Hid]. apply N.eqb_eq in Hid.
    assert (Hsame : Site.rp_uuid (fst j) = Site.rp_uuid r
                    /\ Site.rp_is_anonymous (fst j) = Site.rp_is_anonymous r
                    /\ Site.rp_user_id (fst j) = Site.rp_user_id r).
    { rewrite <- Hv. unfold Site.viewed.
      now destruct (Site.rp_uuid r =? uuid)%N. }
    destruct Hsame as (H1 & H2 & H3).
    destruct (joined_row_shown (Site.tbl s) r j Hr H1 H2 H3 Hu)
      as (Hshown & Hanon & Huuid).
    cbn [Site.d_item Site.d_reporterUuid].
    split; [exact Hshown|]. split.
    + cbn. rewrite H2. exact Hanon.
    + intros x Hx. destruct (Huuid x Hx) as (u & Hin & Hux & Hid' & _).
      exists r, u. auto.
Qed.

Lemma anonymous_reporter_hidden_witness :
  exists resp s' items,
    Site.get_reports Site.plain_reports Site.sample_env
    = (Site.Done resp, s')
    /\ json resp = Success None items
    /\ List.length items = 3%nat
    /\ Forall (Site.reporter_shown (Site.tbl Site.sample_env)) items.
Proof.
  destruct anonymous_reporter_hidden as [Hlist _].
  eexists _, _, _. split; [reflexivity|]. split; [reflexivity|].
  split; [reflexivity|].
  eapply (Hlist Site.plain_reports Site.sample_env); reflexivity.
Defined.

(** X22. [PUT /api/reports/:uuid/status] changes a report only for an
    active user with a valid token whose role is authority or admin, and
    only to one of the five statuses: a 200 means all that, sets the
    status and the time of update of the reports with that uuid, and
    touches nothing else; every other answer leaves all tables as they
    were. A user who is neither authority nor admin gets 403 (even with
    an invalid status: the role is checked first); a request without a
    token for an active user gets 401 or 500. *)
Theorem status_change_needs_authority (authorization : option JSString.t)
  (uuid : N) (sent : option JSString.t) (s : Site.env) :
  exists resp s',
    Site.put_status_route authorization uuid sent s = (Site.Done resp, s')
    /\ Site.users (Site.tbl s') = Site.users (Site.tbl s)
    /\ Site.safe_routes (Site.tbl s') = Site.safe_routes (Site.tbl s)
    /\ (status resp <> 200%Z -> Site.tbl s' = Site.tbl s)
    /\ (status resp = 200%Z ->
        exists u x,
          Site.admits authorization s u
          /\ (Site.is_role "authority" u \/ Site.is_role "admin" u)
          /\ sent = Some x /\ In x Site.SQL.statuses
          /\ (exists r, In r (Site.reports (Site.tbl s))
                        /\ Site.rp_uuid r = uuid)
          /\ Site.reports (Site.tbl s')
             = map (fun r => if (Site.rp_uuid r =? uuid)%N
                             then Site.SQL.with_status x (Site.now s) r
                             else r)
                 (Site.reports (Site.tbl s))
          /\ json resp
             = Success (Some "Estado del reporte actualizado"%string)
                 (uuid, x, Site.now s))
    /\ (forall u,
          Site.admits authorization s u ->
          ~ Site.is_role "authority" u -> ~ Site.is_role "admin" u ->
          status resp = 403%Z)
    /\ (forall u,
          Site.admits authorization s u ->
          Site.is_role "authority" u \/ Site.is_role "admin" u ->
          (status resp = 400%Z
           <-> ~ exists x, sent = Some x /\ In x Site.SQL.statuses))
    /\ ((forall u, ~ Site.admits authorization s u) ->
        (status resp = 401 \/ status resp = 500)%Z).
Proof.
  unfold Site.put_status_route.
  destruct (behind_token_run authorization
              (fun req_user =>
                 match Site.isAuthority req_user with
                 | Site.Answered r => Site.ret r
                 | Site.Next _ => Site.put_status uuid sent
                 end) s)
    as [(u & Ha & Hin & ->)|(r & s1 & -> & Hn & Ht & Hr)].
  - destruct (isAuthority_spec (D := N * JSString.t * Z) u)
      as [[-> Hrole]|[-> [Hna Hnd]]].
    + destruct (put_status_run uuid sent
                  (Site.set_tbl (Site.tbl s)
                     (Site.set_fails (tl (Site.fails s)) s)))
        as (resp & s' & -> & Hu & Hs & Hno & H400 & H200).
      exists resp, s'. split; [reflexivity|].
      split; [exact Hu|]. split; [exact Hs|]. split; [exact Hno|]. split.
      * intros E. destruct (H200 E) as (x & Hx). exists u, x. tauto.
      * split.
        -- intros v Hv Hna Hnd.
           rewrite (admits_one authorization s v u Hv Ha) in *. tauto.
        -- split; [intros v _ _; exact H400|].
           intros Hn. destruct (Hn u Ha).
    + eexists _, _. split; [reflexivity|]. cbn.
      split; [reflexivity|]. split; [reflexivity|]. split; [reflexivity|].
      split; [discriminate|]. split; [reflexivity|]. split.
      * intros v Hv Hrole.
        rewrite (admits_one authorization s v u Hv Ha) in *. tauto.
      * intros Hn. destruct (Hn u Ha).
  - exists r, s1. split; [reflexivity|].
    split; [now rewrite Ht|]. split; [now rewrite Ht|].
    split; [intros _; exact Ht|]. split; [lia|].
    split; [intros u Hu; destruct (Hn u Hu)|].
    split; [intros u Hu; destruct (Hn u Hu)|]. auto.
Qed.

(** X23. [GET /api/reports] never changes a table and answers 200 exactly
    when the store answers and [limit] and [offset] read as numbers the
    server accepts; otherwise 500. A 200 lists a page of the reports
    that meet the filters sent, newest first, one item for each report
    and user it is joined with; a filter sent empty is no filter. *)
Theorem get_reports_filters (req : Site.reports_request) (s : Site.env) :
  let limit := JSNumber.parseInt_or 20 (Site.g_limit req) in
  let offset := JSNumber.parseInt_or 0 (Site.g_offset req) in
  let near :=
    match Site.g_lat req, Site.g_lng req with
    | Some lat, Some lng =>
        Some (lat, lng,
              match Site.g_radius req with Some r => r | None => 5%R end)
    | _, _ => None
    end in
  exists resp s',
    Site.get_reports req s = (Site.Done resp, s')
    /\ Site.tbl s' = Site.tbl s
    /\ (status resp = 200%Z <-> Site.served s /\ Rows.accepts limit offset)
    /\ (status resp = 500%Z
        <-> ~ (Site.served s /\ Rows.accepts limit offset))
    /\ (status resp = 200%Z ->
        exists all n m,
          limit = Some n /\ offset = Some m
          /\ Permutation all
               (flat_map (Site.SQL.join_reporter (Site.users (Site.tbl s)))
                  (filter (Site.SQL.report_matches
                             (Site.given (Site.g_status req))
                             (Site.given (Site.g_incidentType req))
                             (Site.given (Site.g_severity req)) near)
                     (Site.reports (Site.tbl s))))
          /\ Site.newest_first (fun j => Site.rp_created_at (fst j)) all
          /\ json resp
             = Success None (map Site.report_item_of (Rows.page n m all))
          /\ (Z.of_nat (List.length (Rows.page n m all)) <= n)%Z
          /\ Forall (fun j => In (fst j) (Site.reports (Site.tbl s))
                              /\ Site.meets req (Site.report_item_of j))
               (Rows.page n m all)).
Proof.
  intros limit offset near. rewrite get_reports_run. cbv zeta.
  fold limit offset near. unfold Site.served.
  match goal with
  | |- context [Rows.limit_offset limit offset ?l] => set (all := l)
  end.
  destruct (hd false (Site.fails s)) eqn:Ef.
  - eexists _, _. split; [reflexivity|]. cbn. split; [reflexivity|].
    split; [split; [discriminate|intros [? _]; discriminate]|].
    split; [split; [intros _ [? _]; discriminate|reflexivity]|].
    discriminate.
  - destruct (limit_offset_run limit offset all)
      as [[Hacc (n & m & Hn & Hm & ->)]|[Hrej ->]].
    + eexists _, _. split; [reflexivity|]. cbn.
      split; [reflexivity|]. split; [tauto|]. split.
      { split; [discriminate|]. tauto. }
      intros _. exists all, n, m.
      split; [exact Hn|]. split; [exact Hm|].
      split; [apply order_by_desc_perm|].
      split; [apply (order_newest_first
                       (fun j => Site.rp_created_at (fst j)))|].
      split; [reflexivity|].
      destruct Hacc as (n' & m' & Hn' & Hm' & Hn'' & Hm'').
      assert (n' = n) as -> by congruence.
      split; [apply page_length; lia|].
      apply Forall_forall. intros j Hj. apply page_incl in Hj.
      apply (Permutation_in _ (order_by_desc_perm _ _)) in Hj.
      apply joined_rows_spec in Hj. destruct Hj as [Hin _].
      apply filter_In in Hin. destruct Hin as [Hin Hm0].
      split; [exact Hin|]. now apply report_matches_meets.
    + eexists _, _. split; [reflexivity|]. cbn.
      split; [reflexivity|].
      split; [split; [discriminate|tauto]|].
      split; [split; [tauto|reflexivity]|]. discriminate.
Qed.

(** X24. The two routes that read reports are open to all: while the store
    answers, the answer to [GET /api/reports] and to
    [GET /api/reports/:uuid], and the tables afterwards, are the same
    whatever the [Authorization] header is: none, a forged or expired
    token, or a valid one. *)
Theorem reports_open_to_all (authorization : option JSString.t)
  (s : Site.env) :
  Site.fails s = [] ->
  (forall req,
      fst (Site.get_reports_route authorization req s)
      = fst (Site.get_reports req s)
      /\ Site.tbl (snd (Site.get_reports_route authorization req s))
         = Site.tbl s)
  /\ (forall uuid,
        fst (Site.get_report_route authorization uuid s)
        = fst (Site.get_report uuid s)
        /\ Site.tbl (snd (Site.get_report_route authorization uuid s))
           = Site.tbl (snd (Site.get_report uuid s))).
Proof.
  intros Hf.
  destruct (optionalAuth_state authorization s)
    as (o & s1 & Ho & Ht & Hn & Hf1).
  assert (Hf1' : Site.fails s1 = []).
  { destruct Hf1 as [E|E]; rewrite E, Hf; reflexivity. }
  split.
  - intros req. unfold Site.get_reports_route, Site.bind. rewrite Ho.
    rewrite !get_reports_run. cbv zeta. rewrite Hf, Hf1', Ht. cbn [hd].
    destruct (Rows.limit_offset _ _ _); cbn; auto.
  - intros uuid. unfold Site.get_report_route, Site.bind. rewrite Ho.
    rewrite !get_report_run. cbv zeta. rewrite Hf, Hf1', Ht.
    cbn [hd tl orb].
    destruct (forallb _ (Site.reports (Site.tbl s))); cbn; auto.
Qed.

Lemma reports_open_to_all_witness :
  (forall req,
      fst (Site.get_reports_route (Site.bearer "luis") req Site.sample_env)
      = fst (Site.get_reports req Site.sample_env)
      /\ Site.tbl
           (snd (Site.get_reports_route (Site.bearer "luis") req
                   Site.sample_env))
         = Site.tbl Site.sample_env)
  /\ (forall uuid,
        fst (Site.get_report_route (Site.bearer "luis") uuid Site.sample_env)
        = fst (Site.get_report uuid Site.sample_env)
        /\ Site.tbl
             (snd (Site.get_report_route (Site.bearer "luis") uuid
                     Site.sample_env))
           = Site.tbl (snd (Site.get_report uuid Site.sample_env))).
Proof.
  apply (reports_open_to_all (Site.bearer "luis") Site.sample_env).
  reflexivity.
Defined.

(* ================================================================= *)
(** * The heat map *)

Section HeatmapFacts.
Import Heatmap.

Lemma query_checked_run {A} (stmt : database -> option (A * database))
  (w : world) :
  query_checked stmt w
  = match (if hd false (failures w) then None else stmt (db w)) with
    | Some (rows, d) => (Return rows, set_db d (set_failures (tl (failures w)) w))
    | None =>
        (Throw StoreError,
         {| db := db w; failures := tl (failures w); uuid_seq := uuid_seq w;
            console := console w ++ ["Error en query:"%string] |})
    end.
Proof.
  unfold query_checked, try_catch, pool_query_checked.
  destruct (hd false (failures w)); [reflexivity|].
  now destruct (stmt (db w)) as [[rows d]|].
Qed.

Lemma order_most_intense_first (l : list heat_zone) :
  most_intense_first (Rows.order_by_desc (fun z => (intensity z, 0%Z)) l).
Proof.
  unfold most_intense_first.
  pose proof (order_by_desc_ranked (fun z => (intensity z, 0%Z)) l) as H.
  induction H as [|x l' Hs IH Hx]; constructor; [exact IH|].
  eapply Forall_impl; [|exact Hx]. unfold Rows.ranks_before. cbn. lia.
Qed.

(** In a ranked list the rows of the first page rank before all that
    are left out. *)
Lemma ranked_page_first {A} (R : A -> A -> Prop) (l : list A) (k : nat)
  (a b : A) :
  StronglySorted R l -> In a (firstn k l) -> In b (skipn k l) -> R a b.
Proof.
  intros H. revert k. induction H as [|x l Hs IH Hx]; intros [|k]; cbn;
    try easy.
  intros [<-|Ha] Hb.
  - rewrite Forall_forall in Hx. apply Hx.
    clear - Hb. revert l Hb. induction k as [|k IHk]; intros [|y l]; cbn;
      auto; intros H; right; now apply IHk.
  - now apply (IH k).
Qed.

Lemma zone_name_inj (a b : zone_kind) : zone_name a = zone_name b -> a = b.
Proof. destruct a, b; cbv; intros H; try reflexivity; discriminate. Qed.

End HeatmapFacts.

(** X25. [GET /api/heatmap] never changes a table and answers 200 exactly
    when the store answers and [minIntensity] reads as a 32-bit number;
    otherwise 500. A 200 lists each zone that meets the filters sent
    exactly once, most intense first. With no parameter sent it lists
    every zone whose intensity is at least 1; a [zoneType] that is not
    one of the four names (as ["Crime"]) gives an empty list, not an
    error. *)
Theorem heatmap_lists_matching_zones (req : Heatmap.heatmap_request)
  (w : world) :
  let minIntensity := JSNumber.parseInt_or 1 (Heatmap.h_minIntensity req) in
  exists resp w',
    Heatmap.get_heatmap req w = (Return resp, w')
    /\ db w' = db w
    /\ (status resp = 200%Z
        <-> hd false (failures w) = false /\ Rows.int4 minIntensity <> None)
    /\ (status resp = 500%Z
        <-> ~ (hd false (failures w) = false
               /\ Rows.int4 minIntensity <> None))
    /\ (status resp = 200%Z ->
        exists zones m,
          minIntensity = Some m
          /\ json resp = Success None (map Heatmap.zone_item_of zones)
          /\ Permutation zones
               (filter (fun z => (m <=? intensity z)%Z
                                 && Heatmap.of_type (Heatmap.h_zoneType req) z
                                 && Heatmap.nearby (Heatmap.near_of 20 req) z)
                  (heat_zones (db w)))
          /\ Heatmap.most_intense_first zones
          /\ Forall (fun z => (m <= intensity z)%Z) zones
          /\ (forall x,
                Heatmap.h_zoneType req = Some x -> x <> [] ->
                Forall (fun z => Heatmap.zone_name (zone_type z) = x) zones)
          /\ (forall x,
                Heatmap.h_zoneType req = Some x -> x <> [] ->
                (forall k, Heatmap.zone_name k <> x) -> zones = [])
          /\ (req = Heatmap.plain_map ->
              Forall zone_ok (heat_zones (db w)) ->
              Permutation zones (heat_zones (db w)))).
Proof.
  intros minIntensity.
  unfold Heatmap.get_heatmap, try_catch, bind.
  rewrite query_checked_run. unfold Heatmap.select_heatmap.
  fold minIntensity.
  destruct (hd false (failures w)) eqn:Ef.
  { eexists _, _. split; [reflexivity|]. cbn. split; [reflexivity|].
    split; [split; [discriminate|intros [? _]; discriminate]|].
    split; [split; [intros _ [? _]; discriminate|reflexivity]|].
    discriminate. }
  destruct (Rows.int4 minIntensity) as [m|] eqn:Em.
  2:{ eexists _, _. split; [reflexivity|]. cbn. split; [reflexivity|].
      split; [split; [discriminate|intros [_ H]; now destruct H]|].
      split; [split; [intros _ [_ H]; now destruct H|reflexivity]|].
      discriminate. }
  assert (Hm : minIntensity = Some m).
  { unfold Rows.int4 in Em. destruct minIntensity as [n|]; [|discriminate].
    destruct (_ && _); congruence. }
  set (keep := fun z => (m <=? intensity z)%Z
                        && Heatmap.of_type (Heatmap.h_zoneType req) z
                        && Heatmap.nearby (Heatmap.near_of 20 req) z).
  set (zones := Rows.order_by_desc (fun z => (intensity z, 0%Z))
                  (filter keep (heat_zones (db w)))).
  assert (Hperm : Permutation zones (filter keep (heat_zones (db w))))
    by apply order_by_desc_perm.
  assert (Hkeep : forall z, In z zones -> keep z = true).
  { intros z Hz. apply (Permutation_in _ Hperm) in Hz.
    now apply filter_In in Hz. }
  eexists _, _. split; [reflexivity|]. cbn. split; [reflexivity|].
  split; [split; [intros _; split; [reflexivity|discriminate]|reflexivity]|].
  split; [split; [discriminate|intros H; destruct H; split;
                               [reflexivity|discriminate]]|].
  intros _. exists zones, m. split; [exact Hm|]. split; [reflexivity|].
  split; [exact Hperm|]. split; [apply order_most_intense_first|].
  assert (Htype : forall x,
             Heatmap.h_zoneType req = Some x -> x <> [] ->
             Forall (fun z => Heatmap.zone_name (zone_type z) = x) zones).
  { intros x Hx Hne. apply Forall_forall. intros z Hz.
    apply Hkeep in Hz. unfold keep in Hz. rewrite !andb_true_iff in Hz.
    destruct Hz as [[_ Ht] _]. unfold Heatmap.of_type in Ht. rewrite Hx in Ht.
    destruct x as [|c x]; [now destruct Hne|]. now apply JSNumber_eqb_eq. }
  split.
  { apply Forall_forall. intros z Hz. apply Hkeep in Hz. unfold keep in Hz.
    rewrite !andb_true_iff in Hz. lia. }
  split; [exact Htype|]. split.
  { intros x Hx Hne Hnone. specialize (Htype x Hx Hne).
    destruct zones as [|z rest]; [reflexivity|].
    inversion Htype as [|? ? Hz _]. now destruct (Hnone (zone_type z)). }
  intros -> Hok. rewrite Hperm.
  assert (E : filter keep (heat_zones (db w)) = heat_zones (db w)).
  { assert (Em' : m = 1%Z).
    { unfold minIntensity in Hm. cbn in Hm. congruence. }
    unfold keep. cbn. clear - Hok Em'. subst m.
    induction Hok as [|z l [Hz _] Hl IH]; [reflexivity|]. cbn.
    replace (1 <=? intensity z)%Z with true by lia. cbn. now rewrite IH. }
  now rewrite E.
Qed.

(** X26. [GET /api/heatmap/high-risk] never changes a table and answers
    200 exactly when the store answers and [limit] reads as a number the
    server accepts; otherwise 500. A 200 lists at most [limit] zones (10
    when none is sent), all of intensity 7 or more and within the radius
    if a point is sent, the riskiest first; no zone left out is riskier
    than one that is listed. *)
Theorem high_risk_top_zones (req : Heatmap.heatmap_request) (w : world) :
  let limit := JSNumber.parseInt_or 10 (Heatmap.h_limit req) in
  exists resp w',
    Heatmap.get_high_risk req w = (Return resp, w')
    /\ db w' = db w
    /\ (status resp = 200%Z
        <-> hd false (failures w) = false /\ Rows.accepts limit (Some 0%Z))
    /\ (status resp = 500%Z
        <-> ~ (hd false (failures w) = false
               /\ Rows.accepts limit (Some 0%Z)))
    /\ (status resp = 200%Z ->
        exists ranked n,
          limit = Some n
          /\ Permutation ranked
               (filter (fun z => (7 <=? intensity z)%Z
                                 && Heatmap.nearby (Heatmap.near_of 50 req) z)
                  (heat_zones (db w)))
          /\ StronglySorted Heatmap.riskier ranked
          /\ json resp
             = Success None
                 (map Heatmap.zone_item_of (firstn (Z.to_nat n) ranked))
          /\ (Z.of_nat (List.length (firstn (Z.to_nat n) ranked)) <= n)%Z
          /\ Forall (fun z => (7 <= intensity z)%Z) ranked
          /\ (forall shown left,
                In shown (firstn (Z.to_nat n) ranked) ->
                In left (skipn (Z.to_nat n) ranked) ->
                Heatmap.riskier shown left)).
Proof.
  intros limit.
  unfold Heatmap.get_high_risk, try_catch, bind.
  rewrite query_checked_run. unfold Heatmap.select_high_risk.
  fold limit.
  set (keep := fun z => (7 <=? intensity z)%Z
                        && Heatmap.nearby (Heatmap.near_of 50 req) z).
  set (ranked := Rows.order_by_desc
                   (fun z => (intensity z, incident_count z))
                   (filter keep (heat_zones (db w)))).
  destruct (hd false (failures w)) eqn:Ef.
  { eexists _, _. split; [reflexivity|]. cbn. split; [reflexivity|].
    split; [split; [discriminate|intros [? _]; discriminate]|].
    split; [split; [intros _ [? _]; discriminate|reflexivity]|].
    discriminate. }
  destruct (limit_offset_run limit (Some 0%Z) ranked)
    as [[Hacc (n & m & Hn & Hm & ->)]|[Hrej ->]].
  2:{ eexists _, _. split; [reflexivity|]. cbn. split; [reflexivity|].
      split; [split; [discriminate|tauto]|].
      split; [split; [tauto|reflexivity]|]. discriminate. }
  injection Hm as <-.
  assert (Hperm : Permutation ranked (filter keep (heat_zones (db w))))
    by apply order_by_desc_perm.
  assert (Hsorted : StronglySorted Heatmap.riskier ranked).
  { apply (order_by_desc_ranked
             (fun z => (intensity z, incident_count z))). }
  eexists _, _. split; [reflexivity|]. cbn. split; [reflexivity|].
  split; [tauto|]. split; [split; [discriminate|tauto]|].
  intros _. exists ranked, n. split; [exact Hn|]. split; [exact Hperm|].
  split; [exact Hsorted|]. split; [reflexivity|].
  destruct Hacc as (n' & m' & Hn' & _ & Hn'' & _).
  assert (n' = n) as -> by congruence.
  split; [rewrite length_firstn; lia|]. split.
  { apply Forall_forall. intros z Hz. apply (Permutation_in _ Hperm) in Hz.
    apply filter_In in Hz. unfold keep in Hz.
    rewrite andb_true_iff in Hz. lia. }
  intros shown left Hs Hl.
  now apply (ranked_page_first Heatmap.riskier ranked (Z.to_nat n)).
Qed.

(* ================================================================= *)
(** * The trend of reports *)

Section TrendFacts.
Import Trend.
Local Open Scope Z_scope.

Lemma sum_app (a b : list Z) : sum (a ++ b) = sum a + sum b.
Proof. unfold sum. induction a as [|x a IH]; cbn; lia. Qed.

(** The loop finds an entry to add to exactly when the day has one. *)
Lemma add_to_none (r : row) (es : list entry) :
  add_to r es = None <-> ~ In (date r) (map e_date es).
Proof.
  induction es as [|e es IH]; cbn; [tauto|].
  destruct (e_date e =? date r) eqn:E.
  - split; [discriminate|]. intros H. destruct H. left. lia.
  - destruct (add_to r es); split; try discriminate; try tauto.
    + intros H. exfalso. apply H. right.
      destruct (proj1 IH); try tauto.
      apply Decidable.not_not; [|intros Hn; now apply IH in Hn].
      unfold Decidable.decidable.
      destruct (in_dec Z.eq_dec (date r) (map e_date es)); auto.
    + intros _ [H|H]; [lia|]. now apply IH in H.
Qed.

(** Adding to the entry of a day keeps the days and adds the count to
    the total of that day. *)
Lemma add_to_some (r : row) (es es' : list entry) :
  add_to r es = Some es' ->
  NoDup (map e_date es) ->
  Forall2 (fun e e' =>
             if e_date e =? date r
             then e' = {| e_date := e_date e;
                          e_total := e_total e + count r;
                          byType := assign (byType e) (incident_type r)
                                      (count r) |}
             else e' = e)
    es es'.
Proof.
  revert es'. induction es as [|e es IH]; cbn; [discriminate|].
  intros es' H Hnd. inversion Hnd as [|? ? Hnotin Hnd']; subst.
  destruct (e_date e =? date r) eqn:E.
  - injection H as <-. constructor; [now rewrite E|].
    clear - Hnotin E. induction es as [|a es IH]; constructor.
    + replace (e_date a =? date r) with false; [reflexivity|].
      symmetry. apply Z.eqb_neq. intros Ha. apply Hnotin. left. lia.
    + apply IH. intros H. apply Hnotin. now right.
  - destruct (add_to r es) as [rest|]; [|discriminate].
    injection H as <-. constructor; [now rewrite E|]. now apply IH.
Qed.

Lemma trend_snoc (rows : list row) (r : row) :
  trend (rows ++ [r]) = step (trend rows) r.
Proof. unfold trend. now rewrite fold_left_app. Qed.

Lemma days_snoc (rows : list row) (r : row) :
  days (rows ++ [r])
  = days rows
    ++ (if existsb (Z.eqb (date r)) (days rows) then [] else [date r]).
Proof.
  induction rows as [|a rows IH]; [reflexivity|].
  cbn [app days]. rewrite IH, filter_app. cbn [existsb].
  f_equal. f_equal.
  destruct (date r =? date a) eqn:E.
  - cbn. destruct (existsb _ (days rows)); [reflexivity|]. cbn.
    now rewrite E.
  - cbn [orb].
    assert (Hx : existsb (Z.eqb (date r))
                   (filter (fun d => negb (d =? date a)) (days rows))
                 = existsb (Z.eqb (date r)) (days rows)).
    { clear - E. generalize (days rows). intros l.
      induction l as [|d l IHl]; [reflexivity|]. cbn.
      destruct (d =? date a) eqn:Ed; cbn; rewrite IHl; [|reflexivity].
      replace (date r =? d) with false by lia. reflexivity. }
    rewrite Hx. destruct (existsb _ (days rows)); [reflexivity|].
    cbn. now rewrite E.
Qed.

Lemma days_NoDup (rows : list row) : NoDup (days rows).
Proof.
  induction rows as [|a rows IH]; cbn; constructor.
  - intros H. apply filter_In in H. destruct H as [_ H].
    now rewrite Z.eqb_refl in H.
  - now apply NoDup_filter.
Qed.

Lemma on_day_snoc (d : Z) (rows : list row) (r : row) :
  on_day d (rows ++ [r])
  = on_day d rows ++ (if date r =? d then [r] else []).
Proof. unfold on_day. rewrite filter_app. reflexivity. Qed.

(** What the loop has built after any number of rows: an entry for each
    day, in the order in which the days first appear, with the counts
    of the day added up. *)
Lemma trend_days_totals (rows : list row) :
  map e_date (trend rows) = days rows
  /\ Forall (fun e => e_total e = sum (map count (on_day (e_date e) rows)))
       (trend rows).
Proof.
  induction rows as [|r rows [IHd IHt]] using rev_ind.
  { split; [reflexivity|constructor]. }
  rewrite trend_snoc, days_snoc. unfold step.
  destruct (add_to r (trend rows)) as [es'|] eqn:E.
  - assert (Hin : In (date r) (days rows)).
    { rewrite <- IHd.
      destruct (in_dec Z.eq_dec (date r) (map e_date (trend rows)))
        as [H|H]; [exact H|].
      apply add_to_none in H. congruence. }
    replace (existsb (Z.eqb (date r)) (days rows)) with true.
    2:{ symmetry. apply existsb_exists. exists (date r). split; [exact Hin|lia]. }
    rewrite app_nil_r.
    pose proof (add_to_some r (trend rows) es' E) as H2.
    rewrite IHd in H2. specialize (H2 (days_NoDup rows)).
    rewrite <- IHd. clear E Hin IHd.
    induction H2 as [|e e' es es' He H2 IH]; [split; [reflexivity|constructor]|].
    inversion IHt as [|? ? Ht IHt']; subst.
    destruct (IH IHt') as [IH1 IH2]. cbn [map]. split.
    + f_equal; [|exact IH1].
      destruct (e_date e =? date r); now subst.
    + constructor; [|exact IH2].
      rewrite on_day_snoc, map_app, sum_app.
      destruct (e_date e =? date r) eqn:Ee; subst e'; cbn [e_date e_total].
      * replace (date r =? e_date e) with true by lia.
        rewrite Ht. cbn. lia.
      * replace (date r =? e_date e) with false by lia.
        rewrite Ht. cbn. lia.
  - apply add_to_none in E. rewrite IHd in E.
    replace (existsb (Z.eqb (date r)) (days rows)) with false.
    2:{ symmetry. apply not_true_is_false. intros H.
        apply existsb_exists in H. destruct H as [d [Hd Hd']].
        apply E. replace (date r) with d by lia. exact Hd. }
    rewrite map_app, IHd. split; [reflexivity|].
    apply Forall_app. split.
    + apply Forall_forall. intros e He.
      rewrite Forall_forall in IHt. rewrite (IHt e He).
      rewrite on_day_snoc, map_app, sum_app.
      assert (Hne : e_date e <> date r).
      { intros H. apply E. rewrite <- H, <- IHd. now apply in_map. }
      replace (date r =? e_date e) with false by lia. cbn. lia.
    + constructor; [|constructor]. cbn [e_date e_total].
      rewrite on_day_snoc, Z.eqb_refl, map_app, sum_app.
      assert (Hnone : on_day (date r) rows = []).
      { unfold on_day.
        assert (Hd : forall x, In x rows -> In (date x) (days rows)).
        { clear. induction rows as [|a rows IH]; [easy|].
          intros x [<-|Hx]; cbn; [now left|].
          destruct (Z.eq_dec (date x) (date a)) as [->|Hne]; [now left|].
          right. apply filter_In. split; [now apply IH|].
          apply negb_true_iff. lia. }
        destruct (filter _ rows) as [|x l] eqn:Ef; [reflexivity|].
        assert (Hx : In x (filter (fun r0 => date r0 =? date r) rows))
          by (rewrite Ef; now left).
        apply filter_In in Hx. destruct Hx as [Hx Hdx].
        destruct E. replace (date r) with (date x) by lia. now apply Hd. }
      rewrite Hnone. cbn. lia.
Qed.

Lemma step_total (es : list entry) (r : row) :
  sum (map e_total (step es r)) = sum (map e_total es) + count r.
Proof.
  unfold step. destruct (add_to r es) as [es'|] eqn:E.
  - revert es' E. induction es as [|e es IH]; cbn; [discriminate|].
    intros es'. destruct (e_date e =? date r).
    + intros [= <-]. cbn. lia.
    + destruct (add_to r es) as [rest|]; [|discriminate].
      intros [= <-]. cbn. specialize (IH rest eq_refl).
      unfold sum in IH. lia.
  - rewrite map_app, sum_app. cbn. lia.
Qed.

Lemma JSNumber_eqb_neq (a b : JSString.t) :
  JSNumber.eqb a b = false <-> a <> b.
Proof.
  split.
  - intros E H. apply JSNumber_eqb_eq in H. congruence.
  - intros H. destruct (JSNumber.eqb a b) eqn:E; [|reflexivity].
    apply JSNumber_eqb_eq in E. now destruct H.
Qed.

(** A name the object has not is added at the end. *)
Lemma put_fresh (o : object) (name : JSString.t) (v : Z) :
  Forall (fun p => fst p <> name) o -> put o name v = o ++ [(name, v)].
Proof.
  induction 1 as [|[k x] o Hk Ho IH]; [reflexivity|]. cbn in *.
  replace (JSNumber.eqb k name) with false
    by (symmetry; now apply JSNumber_eqb_neq).
  now rewrite IH.
Qed.

Lemma grouped_snoc (rows : list row) (r : row) :
  grouped (rows ++ [r]) ->
  grouped rows
  /\ Forall (fun a => date a = date r -> incident_type a <> incident_type r)
       rows.
Proof.
  unfold grouped. induction rows as [|a rows IH]; cbn.
  - intros _. split; constructor.
  - intros H. inversion H as [|? ? Ha Hr]; subst.
    destruct (IH Hr) as [IH1 IH2]. split.
    + constructor; [|exact IH1].
      rewrite Forall_app in Ha. tauto.
    + constructor; [|exact IH2].
      rewrite Forall_app in Ha. destruct Ha as [_ Ha].
      now inversion Ha.
Qed.

Lemma typed_snoc (rows : list row) (r : row) :
  typed (rows ++ [r])
  = typed rows
    ++ (if JSNumber.eqb (incident_type r) (JSString.lit "__proto__")
        then [] else [(incident_type r, count r)]).
Proof.
  unfold typed. rewrite filter_app, map_app. cbn [filter].
  now destruct (JSNumber.eqb (incident_type r) (JSString.lit "__proto__")).
Qed.

Lemma assign_typed (rows : list row) (r : row) :
  Forall (fun a => incident_type a <> incident_type r) rows ->
  assign (typed rows) (incident_type r) (count r) = typed (rows ++ [r]).
Proof.
  intros H. rewrite typed_snoc. unfold assign.
  destruct (JSNumber.eqb (incident_type r) (JSString.lit "__proto__"));
    [now rewrite app_nil_r|].
  apply put_fresh. unfold typed. apply Forall_forall.
  intros p Hp. apply in_map_iff in Hp. destruct Hp as [a [<- Ha]].
  apply filter_In in Ha. rewrite Forall_forall in H. now apply H.
Qed.

(** With a row for each day and type, the [byType] of a day holds the
    rows of the day. *)
Lemma trend_byType (rows : list row) :
  grouped rows ->
  Forall (fun e => byType e = typed (on_day (e_date e) rows)) (trend rows).
Proof.
  induction rows as [|r rows IH] using rev_ind; [constructor|].
  intros Hg. apply grouped_snoc in Hg. destruct Hg as [Hg Hr].
  specialize (IH Hg).
  destruct (trend_days_totals rows) as [Hd _].
  rewrite trend_snoc. unfold step.
  destruct (add_to r (trend rows)) as [es'|] eqn:E.
  - pose proof (add_to_some r (trend rows) es' E) as H2.
    rewrite Hd in H2. specialize (H2 (days_NoDup rows)).
    clear E Hd.
    induction H2 as [|e e' es es' He H2 IH2]; [constructor|].
    inversion IH as [|? ? Hb IH']; subst.
    constructor; [|now apply IH2].
    rewrite on_day_snoc.
    destruct (e_date e =? date r) eqn:Ee; subst e'; cbn [e_date byType].
    + replace (date r =? e_date e) with true by lia.
      rewrite Hb. apply assign_typed.
      apply Forall_forall. intros a Ha. apply filter_In in Ha.
      rewrite Forall_forall in Hr. apply Hr; [tauto|lia].
    + replace (date r =? e_date e) with false by lia.
      now rewrite app_nil_r.
  - apply add_to_none in E. apply Forall_app. split.
    + apply Forall_forall. intros e He.
      rewrite Forall_forall in IH. rewrite (IH e He), on_day_snoc.
      assert (Hne : e_date e <> date r).
      { intros H. apply E. rewrite <- H. now apply in_map. }
      replace (date r =? e_date e) with false by lia.
      now rewrite app_nil_r.
    + constructor; [|constructor]. cbn [e_date byType].
      rewrite on_day_snoc, Z.eqb_refl.
      change (@nil (JSString.t * Z)) with (typed []).
      rewrite (assign_typed [] r); [|constructor].
      rewrite !typed_snoc.
      assert (Hnone : typed (on_day (date r) rows) = []).
      { unfold typed, on_day.
        assert (Hf : filter (fun r0 => date r0 =? date r) rows = []).
        { destruct (filter _ rows) as [|x l] eqn:Ef; [reflexivity|].
          assert (Hx : In x (filter (fun r0 => date r0 =? date r) rows))
            by (rewrite Ef; now left).
          apply filter_In in Hx. destruct Hx as [Hx Hdx].
          destruct E. rewrite Hd. replace (date r) with (date x) by lia.
          clear - Hx. induction rows as [|a rows IHr]; [easy|].
          destruct Hx as [<-|Hx]; cbn; [now left|].
          destruct (Z.eq_dec (date x) (date a)) as [->|Hne]; [now left|].
          right. apply filter_In. split; [now apply IHr|].
          apply negb_true_iff. lia. }
        now rewrite Hf. }
      now rewrite Hnone.
Qed.

(** Reading the object of a day by the type of one of its rows. *)
Lemma get_proto (rows : list row) (name : JSString.t) :
  JSNumber.eqb name (JSString.lit "__proto__") = true ->
  get (typed rows) name = None.
Proof.
  intros Ek. apply JSNumber_eqb_eq in Ek. unfold typed.
  induction rows as [|b rows IH]; [reflexivity|]. cbn [filter].
  destruct (JSNumber.eqb (incident_type b) (JSString.lit "__proto__"))
    eqn:Eb; cbn [negb map get]; [exact IH|].
  replace (JSNumber.eqb (incident_type b) name) with false; [exact IH|].
  symmetry. apply JSNumber_eqb_neq. apply JSNumber_eqb_neq in Eb. congruence.
Qed.

Lemma get_typed (rows : list row) (r : row) :
  ForallOrdPairs (fun a b => incident_type a <> incident_type b) rows ->
  In r rows ->
  get (typed rows) (incident_type r)
  = if JSNumber.eqb (incident_type r) (JSString.lit "__proto__")
    then None else Some (count r).
Proof.
  intros H Hin.
  destruct (JSNumber.eqb (incident_type r) (JSString.lit "__proto__"))
    eqn:Ep; [now apply get_proto|].
  induction H as [|a rows Ha Hr IH]; [easy|].
  unfold typed. cbn [filter].
  destruct Hin as [->|Hin].
  - rewrite Ep. cbn [negb map get].
    now rewrite (proj2 (JSNumber_eqb_eq _ _) eq_refl).
  - specialize (IH Hin). unfold typed in IH.
    destruct (JSNumber.eqb (incident_type a) (JSString.lit "__proto__"));
      cbn [negb map get]; [exact IH|].
    replace (JSNumber.eqb (incident_type a) (incident_type r)) with false;
      [exact IH|].
    symmetry. apply JSNumber_eqb_neq. rewrite Forall_forall in Ha.
    now apply Ha.
Qed.

Lemma grouped_on_day (d : Z) (rows : list row) :
  grouped rows ->
  ForallOrdPairs (fun a b => incident_type a <> incident_type b)
    (on_day d rows).
Proof.
  unfold grouped, on_day. induction 1 as [|a rows Ha Hr IH]; [constructor|].
  cbn. destruct (date a =? d) eqn:E; [|exact IH].
  constructor; [|exact IH].
  apply Forall_forall. intros b Hb. apply filter_In in Hb.
  rewrite Forall_forall in Ha. apply Ha; [tauto|lia].
Qed.

End TrendFacts.

(** X27. The loop of [GET /api/stats/reports-trend] makes one entry for
    each day of the rows it is given, in the order in which the days
    first appear; the total of an entry is the sum of the counts of the
    rows of its day, and the totals of all entries add up to the counts
    of all rows: no report is lost or counted twice. *)
Theorem trend_totals_add_up (rows : list Trend.row) :
  map Trend.e_date (Trend.trend rows) = Trend.days rows
  /\ NoDup (map Trend.e_date (Trend.trend rows))
  /\ Forall (fun e =>
               Trend.e_total e
               = Trend.sum (map Trend.count
                              (Trend.on_day (Trend.e_date e) rows)))
       (Trend.trend rows)
  /\ Trend.sum (map Trend.e_total (Trend.trend rows))
     = Trend.sum (map Trend.count rows).
Proof.
  destruct (trend_days_totals rows) as [Hd Ht].
  split; [exact Hd|]. split; [rewrite Hd; apply days_NoDup|].
  split; [exact Ht|].
  clear. induction rows as [|r rows IH] using rev_ind; [reflexivity|].
  rewrite trend_snoc, step_total, IH, map_app, sum_app. cbn. lia.
Qed.

(** X28. When the rows have one row for each day and type of incident (as
    the GROUP BY of the statement gives them), the entry of a day holds
    under each type the count of that row, and its total is the sum of
    what it holds by type. The type named [__proto__] is the exception:
    its reports are in the total but not under [byType]. *)
Theorem trend_by_type (rows : list Trend.row) :
  Trend.grouped rows ->
  (forall r,
      In r rows ->
      exists e,
        In e (Trend.trend rows)
        /\ Trend.e_date e = Trend.date r
        /\ Trend.get (Trend.byType e) (Trend.incident_type r)
           = if JSNumber.eqb (Trend.incident_type r)
                  (JSString.lit "__proto__")
             then None else Some (Trend.count r))
  /\ Forall (fun e =>
               Trend.byType e
               = Trend.typed (Trend.on_day (Trend.e_date e) rows))
       (Trend.trend rows)
  /\ ((forall r, In r rows ->
                 Trend.incident_type r <> JSString.lit "__proto__") ->
      Forall (fun e =>
                Trend.e_total e = Trend.sum (map snd (Trend.byType e)))
        (Trend.trend rows)).
Proof.
  intros Hg.
  pose proof (trend_byType rows Hg) as Hb.
  destruct (trend_days_totals rows) as [Hd Ht].
  split; [|split; [exact Hb|]].
  - intros r Hr.
    assert (Hin : In (Trend.date r) (map Trend.e_date (Trend.trend rows))).
    { rewrite Hd. clear - Hr. induction rows as [|a rows IH]; [easy|].
      destruct Hr as [<-|Hr]; cbn; [now left|].
      destruct (Z.eq_dec (Trend.date r) (Trend.date a)) as [->|Hne];
        [now left|].
      right. apply filter_In. split; [now apply IH|].
      apply negb_true_iff. lia. }
    apply in_map_iff in Hin. destruct Hin as [e [He Hin]].
    exists e. split; [exact Hin|]. split; [exact He|].
    rewrite Forall_forall in Hb. rewrite (Hb e Hin), He.
    apply get_typed; [now apply grouped_on_day|].
    apply filter_In. split; [exact Hr|lia].
  - intros Hnp. apply Forall_forall. intros e He.
    rewrite Forall_forall in Hb, Ht. rewrite (Ht e He), (Hb e He).
    assert (Hsub : forall r, In r (Trend.on_day (Trend.e_date e) rows) ->
                             In r rows).
    { intros r Hr. now apply filter_In in Hr. }
    assert (Hf : filter
                   (fun r => negb (JSNumber.eqb (Trend.incident_type r)
                                     (JSString.lit "__proto__")))
                   (Trend.on_day (Trend.e_date e) rows)
                 = Trend.on_day (Trend.e_date e) rows).
    { induction (Trend.on_day (Trend.e_date e) rows) as [|a l IH];
        [reflexivity|]. cbn [filter].
      replace (JSNumber.eqb (Trend.incident_type a)
                 (JSString.lit "__proto__")) with false.
      - cbn [negb]. rewrite IH; [reflexivity|].
        intros r Hr. apply Hsub. now right.
      - symmetry. apply JSNumber_eqb_neq. apply Hnp. apply Hsub. now left. }
    unfold Trend.typed. rewrite Hf, map_map. reflexivity.
Qed.

Lemma trend_by_type_witness :
  (forall r,
      In r Trend.sample_rows ->
      exists e,
        In e (Trend.trend Trend.sample_rows)
        /\ Trend.e_date e = Trend.date r
        /\ Trend.get (Trend.byType e) (Trend.incident_type r)
           = if JSNumber.eqb (Trend.incident_type r)
                  (JSString.lit "__proto__")
             then None else Some (Trend.count r))
  /\ map Trend.e_total (Trend.trend Trend.sample_rows) = [5; 6]%Z
  /\ map (fun e => Trend.sum (map snd (Trend.byType e)))
       (Trend.trend Trend.sample_rows) = [5; 5]%Z.
Proof.
  split; [|split; reflexivity].
  apply (trend_by_type Trend.sample_rows).
  unfold Trend.grouped, Trend.sample_rows.
  repeat constructor; cbn; intros; try discriminate; try lia.
Defined.

(* ================================================================= *)
(** * Scores over time *)

Lemma zone_step_no_calmer (zone zone' : heat_zone) :
  zone_ok zone -> zone_step zone zone' -> no_calmer zone zone'.
Proof.
  intros Hok Hstep. destruct Hstep as [z|z]; destruct Hok as [Hi _];
    unfold no_calmer; cbn [bump latitude longitude intensity];
    repeat split; lia.
Qed.

Lemma no_calmer_chain (l1 l2 l3 : list heat_zone) :
  Forall2 no_calmer l1 l2 -> Forall2 no_calmer l2 l3 ->
  Forall2 no_calmer l1 l3.
Proof.
  intros H. revert l3. induction H as [|a b l1 l2 Hab _ IH]; intros l3 H23;
    inversion H23 as [|? c ? ? Hbc Hrest]; subst; constructor; auto.
  destruct Hab as (? & ? & ?), Hbc as (? & ? & ?).
  unfold no_calmer. repeat split; try congruence; lia.
Qed.

(** Along a run of requests every zone stays where it is and gets no
    calmer, and zones are only added. *)
Lemma run_no_calmer (w0 w : world) :
  store_ok (db w0) -> reachable w0 w ->
  store_ok (db w)
  /\ evolves no_calmer (fun _ => True)
       (heat_zones (db w0)) (heat_zones (db w)).
Proof.
  intros Hok0 Hreach.
  induction Hreach as [|w w' _ [Hok Hev] Hstep].
  - split; [exact Hok0|]. exists (heat_zones (db w0)), [].
    rewrite app_nil_r. split; [reflexivity|]. split; [|constructor].
    induction (heat_zones (db w0)); constructor; auto.
    unfold no_calmer. repeat split; lia.
  - destruct (step_invariant _ _ Hstep Hok)
      as [Hok' (kept & created & Hnew & Hkept & _)].
    split; [exact Hok'|].
    destruct Hev as (k1 & c1 & Hmid & H1 & _).
    rewrite Hmid in Hkept.
    apply Forall2_app_inv_l in Hkept as (ka & kb & Ha & _ & ->).
    exists ka, (kb ++ created). rewrite Hnew, app_assoc.
    split; [reflexivity|]. split; [|apply Forall_forall; auto].
    apply (no_calmer_chain _ k1); [exact H1|].
    destruct Hok as [Hz _]. rewrite Hmid in Hz.
    apply Forall_app in Hz. destruct Hz as [Hz _].
    clear - Ha Hz. induction Ha as [|a b l l' Hab _ IH]; constructor.
    + apply zone_step_no_calmer; [|exact Hab]. now inversion Hz.
    + apply IH. now inversion Hz.
Qed.

(** Zones that got no calmer weigh no less within any radius of any
    point. *)
Lemma no_calmer_within (lat lng radius : R) (old kept : list heat_zone) :
  Forall2 no_calmer old kept ->
  (total_intensity
     (filter (fun z => Geo.within radius lat lng (latitude z) (longitude z))
        old)
   <= total_intensity
        (filter (fun z => Geo.within radius lat lng (latitude z) (longitude z))
           kept))%Z
  /\ List.length
       (filter (fun z => Geo.within radius lat lng (latitude z) (longitude z))
          old)
     = List.length
         (filter (fun z => Geo.within radius lat lng (latitude z)
                             (longitude z))
            kept).
Proof.
  induction 1 as [|a b old kept (Hlat & Hlng & Hi) _ [IH1 IH2]];
    [split; reflexivity|].
  cbn [filter]. rewrite Hlat, Hlng.
  destruct (Geo.within radius lat lng (latitude a) (longitude a)).
  - cbn [total_intensity fold_right List.length].
    fold (total_intensity
            (filter (fun z => Geo.within radius lat lng (latitude z)
                                (longitude z)) old)).
    fold (total_intensity
            (filter (fun z => Geo.within radius lat lng (latitude z)
                                (longitude z)) kept)).
    split; [lia|now rewrite IH2].
  - now split.
Qed.

(** X29. Nothing the API does makes a place look safer: whatever requests
    are served in between (reports, score and route queries), the safety
    score of a point and radius is never higher afterwards than it was,
    and the number of danger zones counted there never lower. Zones are
    never removed, moved or made calmer. *)
Theorem scores_never_rise (w0 w : world) (lat lng radius : R) :
  store_ok (db w0) ->
  reachable w0 w ->
  answers 2 w0 -> answers 2 w ->
  exists d0 d w0' w',
    get_safety_score (score_request_within lat lng radius) w0
    = (Return {| status := 200; json := Success None d0 |}, w0')
    /\ get_safety_score (score_request_within lat lng radius) w
       = (Return {| status := 200; json := Success None d |}, w')
    /\ (s_safetyScore d <= s_safetyScore d0)%Z
    /\ (dangerZones (details d0) <= dangerZones (details d))%Z.
Proof.
  intros Hok0 Hreach Ha0 Ha.
  destruct (get_safety_score_ok (score_request_within lat lng radius) w0
              lat lng eq_refl eq_refl Ha0)
    as (d0 & w0' & Hrun0 & _ & Hs0 & _ & Hd0 & _).
  destruct (get_safety_score_ok (score_request_within lat lng radius) w
              lat lng eq_refl eq_refl Ha)
    as (d & w' & Hrun & _ & Hs & _ & Hd & _).
  exists d0, d, w0', w'. split; [exact Hrun0|]. split; [exact Hrun|].
  cbn [q_radius score_request_within fst SQL.select_zones_within]
    in Hs0, Hs, Hd0, Hd.
  destruct (run_no_calmer w0 w Hok0 Hreach)
    as [[Hz _] (kept & created & Hnew & Hkept & _)].
  destruct (no_calmer_within lat lng radius _ _ Hkept) as [Hsum Hlen].
  rewrite Hnew in Hz. apply Forall_app in Hz. destruct Hz as [_ Hc].
  destruct (total_intensity_filter_mono (fun _ => false)
              (fun z => Geo.within radius lat lng (latitude z) (longitude z))
              created Hc) as [Hsum' _]; [discriminate|].
  assert (Hnil : filter (fun _ : heat_zone => false) created = []).
  { clear. induction created; auto. }
  rewrite Hnil in Hsum'. cbn in Hsum'.
  rewrite Hs0, Hs, Hd0, Hd, Hnew, !filter_app.
  unfold stats_tally. rewrite !stats_fold. cbn [t_safetyScore].
  rewrite total_intensity_app, length_app.
  split; [apply clampScore_mono|]; lia.
Qed.

Lemma scores_never_rise_witness :
  exists d0 d w0' w',
    get_safety_score (score_request_within (-12.0464) (-77.0428) 1)
      (calm seed_database)
    = (Return {| status := 200; json := Success None d0 |}, w0')
    /\ get_safety_score (score_request_within (-12.0464) (-77.0428) 1)
         (set_failures [] after_one_report)
       = (Return {| status := 200; json := Success None d |}, w')
    /\ (s_safetyScore d <= s_safetyScore d0)%Z
    /\ (dangerZones (details d0) <= dangerZones (details d))%Z.
Proof.
  apply (scores_never_rise (calm seed_database)
           (set_failures [] after_one_report) (-12.0464) (-77.0428) 1).
  - apply seed_store_ok.
  - eapply reach_step; [|apply step_store].
    eapply reach_step; [apply reach_start|].
    eapply step_report. apply surjective_pairing.
  - constructor.
  - constructor.
Defined.
